(** * SOS chat: crypto core, relay registry, client transport and controller

    A shallow embedding of the Python sources
      chat/sos/crypto.py, chat/sos/transport.py, chat/sos/room.py,
      src/sos/relay.py, src/sos/app.py
    and the properties stated about them.

    Conventions of the embedding.
    - A Python [str] is the list of its code points ([pystr]); [len] is
      [length], slicing is [take]/[drop], [''.join] is [concat].
    - A Python [bytes] is a list of integers in [0, 256) ([bytes]).
    - [time.time()] and every other float timestamp is an exact rational
      ([Q]); [int(x)] is truncation toward zero, [x // 15] is the floor.
    - A call that can raise returns a [result]; the state a method leaves
      behind is returned next to it.
    - A request body of the relay is the JSON value it parses to
      ([json.value]), of any shape; a handler that ends in an exception
      answers 500.
    - Randomness ([nacl.utils.random], [uuid.uuid4], [secrets]) and the clock
      are inputs of the function that reads them. *)

From Stdlib Require Import ZArith QArith Qround Lia Lqa Bool List String Ascii.
From Stdlib Require Import DecimalString DecimalZ DecimalPos.
From stdpp Require Import base option list gmap.

Local Open Scope Z_scope.

(** ** Python values *)

Abbreviation pystr := (list Z) (only parsing).
Abbreviation bytes := (list Z) (only parsing).

(** A string literal of the source, as code points. *)
Definition lit (s : string) : pystr :=
  map (fun a => Z.of_N (N_of_ascii a)) (list_ascii_of_string s).

Inductive exn : Type :=
| CryptoError          (* nacl.exceptions.CryptoError *)
| NaClValueError       (* nacl.exceptions.ValueError, a CryptoError *)
| UnicodeEncodeError
| UnicodeDecodeError
| BinasciiError        (* binascii.Error, a ValueError *)
| ValueError
| KeyError
| JSONDecodeError
| RateLimitError (retry_after : Z)
| RoomNotFoundError
| InvalidKeyError.

(** [except CryptoError] catches the class and its subclasses. *)
Definition is_CryptoError (e : exn) : bool :=
  match e with
  | CryptoError | NaClValueError => true
  | _ => false
  end.

Inductive result (A : Type) : Type :=
| Ok (a : A)
| Raise (e : exn).
Arguments Ok {A} a.
Arguments Raise {A} e.

Definition rbind {A B} (r : result A) (k : A -> result B) : result B :=
  match r with
  | Ok a => k a
  | Raise e => Raise e
  end.

Notation "'do' x <- r ; k" := (rbind r (fun x => k))
  (at level 10, x name, r at level 100, k at level 200).

(** Truthiness of the values the sources test with [if x:] / [if not x:]. *)
Definition truthy_str (s : pystr) : bool :=
  match s with [] => false | _ => true end.

Definition truthy_opt_str (o : option pystr) : bool :=
  match o with Some s => truthy_str s | None => false end.

(** ** Rational time *)

(** [int(q)]: truncation toward zero. *)
Definition py_int (q : Q) : Z := Z.quot (Qnum q) (Z.pos (Qden q)).

(** [q] is truthy iff it is not zero. *)
Definition truthy_num (q : Q) : bool := negb (Qnum q =? 0).

Definition Qlt_bool (x y : Q) : bool := negb (Qle_bool y x).

(** [str(z)] for an integer: an optional minus sign and decimal digits. *)
Definition py_str_int (z : Z) : pystr :=
  lit (NilZero.string_of_int (Z.to_int z)).

(** ** UTF-8 ([str.encode('utf-8')], [bytes.decode('utf-8')]) *)

Module utf8.

(** Code points a [str] may hold, and those the codec accepts (it refuses
    lone surrogates). *)
Definition is_surrogate (c : Z) : bool := (0xD800 <=? c) && (c <=? 0xDFFF).
Definition encodable (c : Z) : bool :=
  (0 <=? c) && (c <=? 0x10FFFF) && negb (is_surrogate c).

Definition encode_cp (c : Z) : bytes :=
  if c <? 0x80 then [c]
  else if c <? 0x800 then [0xC0 + c / 64; 0x80 + c mod 64]
  else if c <? 0x10000 then
    [0xE0 + c / 4096; 0x80 + (c / 64) mod 64; 0x80 + c mod 64]
  else
    [0xF0 + c / 262144; 0x80 + (c / 4096) mod 64;
     0x80 + (c / 64) mod 64; 0x80 + c mod 64].

Fixpoint encode (s : pystr) : result bytes :=
  match s with
  | [] => Ok []
  | c :: s' =>
      if encodable c
      then do bs <- encode s'; Ok (encode_cp c ++ bs)
      else Raise UnicodeEncodeError
  end.

Definition is_cont (b : Z) : bool := (0x80 <=? b) && (b <? 0xC0).

(** The strict decoder: shortest form only, no surrogates, at most
    U+10FFFF. *)
Fixpoint decode (bs : bytes) : result pystr :=
  match bs with
  | [] => Ok []
  | b0 :: r0 =>
      if (0 <=? b0) && (b0 <? 0x80) then
        do s <- decode r0; Ok (b0 :: s)
      else if (0xC2 <=? b0) && (b0 <? 0xE0) then
        match r0 with
        | b1 :: r1 =>
            if is_cont b1
            then do s <- decode r1; Ok ((b0 - 0xC0) * 64 + (b1 - 0x80) :: s)
            else Raise UnicodeDecodeError
        | _ => Raise UnicodeDecodeError
        end
      else if (0xE0 <=? b0) && (b0 <? 0xF0) then
        match r0 with
        | b1 :: b2 :: r2 =>
            let c := (b0 - 0xE0) * 4096 + (b1 - 0x80) * 64 + (b2 - 0x80) in
            if is_cont b1 && is_cont b2 && (0x800 <=? c) && negb (is_surrogate c)
            then do s <- decode r2; Ok (c :: s)
            else Raise UnicodeDecodeError
        | _ => Raise UnicodeDecodeError
        end
      else if (0xF0 <=? b0) && (b0 <? 0xF5) then
        match r0 with
        | b1 :: b2 :: b3 :: r3 =>
            let c := (b0 - 0xF0) * 262144 + (b1 - 0x80) * 4096
                     + (b2 - 0x80) * 64 + (b3 - 0x80) in
            if is_cont b1 && is_cont b2 && is_cont b3
               && (0x10000 <=? c) && (c <=? 0x10FFFF)
            then do s <- decode r3; Ok (c :: s)
            else Raise UnicodeDecodeError
        | _ => Raise UnicodeDecodeError
        end
      else Raise UnicodeDecodeError
  end.

End utf8.

(** ** hashlib.sha256 (FIPS 180-4) *)

Module hashlib.

Definition w32 (x : Z) : Z := x mod 2 ^ 32.
Definition rotr (n x : Z) : Z :=
  Z.lor (Z.shiftr x n) (w32 (Z.shiftl x (32 - n))).
Definition add32 (x y : Z) : Z := w32 (x + y).
Definition not32 (x : Z) : Z := 2 ^ 32 - 1 - x.

(** The round constants are the first 32 bits of the fractional parts of
    the cube roots of the first 64 primes, the initial hash value those of
    the square roots of the first 8. *)
Definition is_prime (n : Z) : bool :=
  forallb (fun d => negb (n mod d =? 0)) (map Z.of_nat (seq 2 (Z.to_nat n - 2))).
Definition primes : list Z :=
  filter (fun n => is_prime n = true) (map Z.of_nat (seq 2 310)).

(** Integer cube root, one bit at a time from bit [35] down. *)
Definition icbrt (n : Z) : Z :=
  fold_left (fun r i => let r' := r + 2 ^ Z.of_nat i in
                        if r' * r' * r' <=? n then r' else r)
            (rev (seq 0 36)) 0.

Definition K256 : list Z :=
  Eval vm_compute in map (fun p => w32 (icbrt (p * 2 ^ 96))) primes.

Definition H0 : list Z :=
  Eval vm_compute in map (fun p => w32 (Z.sqrt (p * 2 ^ 64))) (take 8 primes).

(** Big-endian bytes of a [n]-byte word, and back. *)
Fixpoint be_bytes (n : nat) (x : Z) : bytes :=
  match n with
  | O => []
  | S n' => (x / 256 ^ Z.of_nat n') mod 256 :: be_bytes n' x
  end.
Definition be_word (bs : bytes) : Z :=
  fold_left (fun acc b => acc * 256 + b) bs 0.

Fixpoint chunks {A} (fuel n : nat) (l : list A) : list (list A) :=
  match fuel, l with
  | O, _ | _, [] => []
  | S fuel', _ => take n l :: chunks fuel' n (drop n l)
  end.

Definition pad (m : bytes) : bytes :=
  let len := Z.of_nat (length m) in
  let zeros := Z.to_nat ((55 - len) mod 64) in
  m ++ [0x80] ++ repeat 0 zeros ++ be_bytes 8 (8 * len).

Definition sigma0 x := Z.lxor (Z.lxor (rotr 7 x) (rotr 18 x)) (Z.shiftr x 3).
Definition sigma1 x := Z.lxor (Z.lxor (rotr 17 x) (rotr 19 x)) (Z.shiftr x 10).
Definition Sigma0 x := Z.lxor (Z.lxor (rotr 2 x) (rotr 13 x)) (rotr 22 x).
Definition Sigma1 x := Z.lxor (Z.lxor (rotr 6 x) (rotr 11 x)) (rotr 25 x).
Definition Ch x y z := Z.lxor (Z.land x y) (Z.land (not32 x) z).
Definition Maj x y z :=
  Z.lxor (Z.lxor (Z.land x y) (Z.land x z)) (Z.land y z).

(** One round: the working variables and the sliding window of the last
    sixteen schedule words. *)
Definition round (st : list Z * list Z) (k : Z) : list Z * list Z :=
  let '(v, w) := st in
  let g i := nth i v 0 in
  let wi := nth 0 w 0 in
  let t1 := add32 (add32 (add32 (add32 (g 7%nat) (Sigma1 (g 4%nat)))
              (Ch (g 4%nat) (g 5%nat) (g 6%nat))) k) wi in
  let t2 := add32 (Sigma0 (g 0%nat)) (Maj (g 0%nat) (g 1%nat) (g 2%nat)) in
  let wnew := add32 (add32 (add32 (sigma1 (nth 14 w 0)) (nth 9 w 0))
                (sigma0 (nth 1 w 0))) wi in
  ([add32 t1 t2; g 0%nat; g 1%nat; g 2%nat; add32 (g 3%nat) t1;
    g 4%nat; g 5%nat; g 6%nat],
   drop 1 w ++ [wnew]).

Definition compress (h : list Z) (block : bytes) : list Z :=
  let w := map be_word (chunks 16 4 block) in
  let '(v, _) := fold_left round K256 (h, w) in
  zip_with add32 h v.

Definition sha256 (m : bytes) : bytes :=
  let p := pad m in
  let h := fold_left compress (chunks (length p) 64 p) H0 in
  concat (map (be_bytes 4) h).

(** [.hexdigest()]: two lowercase hex digits per byte. *)
Definition hex_digit (n : Z) : Z :=
  if n <? 10 then 48 + n else 87 + n.
Definition hexdigest (d : bytes) : pystr :=
  concat (map (fun b => [hex_digit (b / 16); hex_digit (b mod 16)]) d).

End hashlib.

(** ** base64.b64decode (binascii.a2b_base64, not strict) *)

Module base64.

Definition b64_value (c : Z) : option Z :=
  if (65 <=? c) && (c <=? 90) then Some (c - 65)
  else if (97 <=? c) && (c <=? 122) then Some (c - 71)
  else if (48 <=? c) && (c <=? 57) then Some (c + 4)
  else if c =? 43 then Some 62
  else if c =? 47 then Some 63
  else None.

(** The decoder's loop: characters outside the alphabet are skipped, a pad
    sequence that completes a quad ends the parse, and a quad left open at
    the end is an error. [acc] holds the output so far, last byte first. *)
Fixpoint a2b_base64 (s : pystr) (quad_pos leftchar pads : Z) (acc : bytes)
  : result bytes :=
  match s with
  | [] => if quad_pos =? 0 then Ok (rev acc) else Raise BinasciiError
  | c :: s' =>
      if c =? 61 then
        if 2 <=? quad_pos then
          if 4 <=? quad_pos + (pads + 1) then Ok (rev acc)
          else a2b_base64 s' quad_pos leftchar (pads + 1) acc
        else a2b_base64 s' quad_pos leftchar pads acc
      else
        match b64_value c with
        | None => a2b_base64 s' quad_pos leftchar pads acc
        | Some v =>
            if quad_pos =? 0 then a2b_base64 s' 1 v 0 acc
            else if quad_pos =? 1 then
              a2b_base64 s' 2 (v mod 16) 0 (leftchar * 4 + v / 16 :: acc)
            else if quad_pos =? 2 then
              a2b_base64 s' 3 (v mod 4) 0 (leftchar * 16 + v / 4 :: acc)
            else a2b_base64 s' 0 0 0 (leftchar * 64 + v :: acc)
        end
  end.

(** [b64decode(s)] for a [str]: ASCII only, then the loop above. *)
Definition b64decode (s : pystr) : result bytes :=
  if forallb (fun c => (0 <=? c) && (c <? 128)) s
  then a2b_base64 s 0 0 0 []
  else Raise ValueError.

End base64.

(** ** nacl.secret.SecretBox (XSalsa20-Poly1305) *)

Module nacl.

Definition KEY_SIZE : nat := 32.
Definition NONCE_SIZE : nat := 24.
Definition MACBYTES : nat := 16.

Definition add32 (x y : Z) : Z := (x + y) mod 2 ^ 32.
Definition rotl (n x : Z) : Z :=
  Z.lor (Z.shiftl x n mod 2 ^ 32) (Z.shiftr x (32 - n)).

(** Little-endian bytes of an [n]-byte number, and back. *)
Fixpoint le_bytes (n : nat) (x : Z) : bytes :=
  match n with
  | O => []
  | S n' => x mod 256 :: le_bytes n' (x / 256)
  end.
Definition le_num (bs : bytes) : Z :=
  fold_right (fun b acc => b + 256 * acc) 0 bs.
Definition le_words (bs : bytes) : list Z :=
  map le_num (hashlib.chunks (length bs) 4 bs).

Definition quarter (a b c d : nat) (x : list Z) : list Z :=
  let get (y : list Z) i := nth i y 0 in
  let x1 := <[b := Z.lxor (get x b) (rotl 7 (add32 (get x a) (get x d)))]> x in
  let x2 := <[c := Z.lxor (get x1 c) (rotl 9 (add32 (get x1 b) (get x1 a)))]> x1 in
  let x3 := <[d := Z.lxor (get x2 d) (rotl 13 (add32 (get x2 c) (get x2 b)))]> x2 in
  <[a := Z.lxor (get x3 a) (rotl 18 (add32 (get x3 d) (get x3 c)))]> x3.

Definition doubleround (x : list Z) : list Z :=
  let cols := quarter 15 3 7 11 (quarter 10 14 2 6
                (quarter 5 9 13 1 (quarter 0 4 8 12 x))) in
  quarter 15 12 13 14 (quarter 10 11 8 9
    (quarter 5 6 7 4 (quarter 0 1 2 3 cols))).

Definition rounds20 (x : list Z) : list Z :=
  Nat.iter 10 doubleround x.

Definition sigma : list Z := le_words (lit "expand 32-byte k").

(** The 4x4 input matrix: constants on the diagonal, the key in two halves,
    sixteen bytes of nonce (and counter) in the middle. *)
Definition matrix (key n16 : bytes) : list Z :=
  let k := le_words key in
  take 1 sigma ++ take 4 k ++ take 1 (drop 1 sigma) ++ le_words n16
  ++ take 1 (drop 2 sigma) ++ drop 4 k ++ drop 3 sigma.

Definition salsa20_block (key n8 : bytes) (counter : Z) : bytes :=
  let x := matrix key (n8 ++ le_bytes 8 counter) in
  concat (map (le_bytes 4) (zip_with add32 (rounds20 x) x)).

Definition hsalsa20 (key n16 : bytes) : bytes :=
  let z := rounds20 (matrix key n16) in
  concat (map (fun i => le_bytes 4 (nth i z 0))
              [0; 5; 10; 15; 6; 7; 8; 9]%nat).

Definition xsalsa20_stream (key n24 : bytes) (len : nat) : bytes :=
  let subkey := hsalsa20 key (take 16 n24) in
  take len (concat (map (fun c => salsa20_block subkey (drop 16 n24) (Z.of_nat c))
                        (seq 0 (Nat.div (len + 63) 64)))).

Definition poly1305 (key msg : bytes) : bytes :=
  let r := Z.land (le_num (take 16 key)) 0x0ffffffc0ffffffc0ffffffc0fffffff in
  let s := le_num (drop 16 key) in
  let p := 2 ^ 130 - 5 in
  let acc := fold_left
               (fun a blk => ((a + le_num (blk ++ [1])) * r) mod p)
               (hashlib.chunks (length msg) 16 msg) 0 in
  le_bytes 16 ((acc + s) mod 2 ^ 128).

Definition xor_bytes (a b : bytes) : bytes := zip_with Z.lxor a b.

(** [nacl.bindings.crypto_secretbox]: the authenticator, then the
    ciphertext. *)
Definition crypto_secretbox (m nonce key : bytes) : bytes :=
  let stream := xsalsa20_stream key nonce (32 + length m) in
  let c := xor_bytes m (drop 32 stream) in
  poly1305 (take 32 stream) c ++ c.

(** [nacl.bindings.crypto_secretbox_open]: [None] when the authenticator
    does not verify (the binding raises CryptoError). *)
Definition crypto_secretbox_open (boxed nonce key : bytes) : option bytes :=
  if (length boxed <? MACBYTES)%nat then None
  else
    let tag := take MACBYTES boxed in
    let c := drop MACBYTES boxed in
    let stream := xsalsa20_stream key nonce (32 + length c) in
    if bool_decide (poly1305 (take 32 stream) c = tag)
    then Some (xor_bytes c (drop 32 stream))
    else None.

(** [SecretBox(key)]: the key must be exactly 32 bytes. *)
Definition SecretBox (key : bytes) : result bytes :=
  if (length key =? KEY_SIZE)%nat then Ok key else Raise NaClValueError.

(** [box.encrypt(plaintext, nonce)]: the nonce followed by the boxed
    message. *)
Definition SecretBox_encrypt (box plaintext nonce : bytes) : result bytes :=
  if (length nonce =? NONCE_SIZE)%nat
  then Ok (nonce ++ crypto_secretbox plaintext nonce box)
  else Raise NaClValueError.

(** [box.decrypt(ciphertext)]: the nonce is the first 24 bytes. *)
Definition SecretBox_decrypt (box ciphertext : bytes) : result bytes :=
  let nonce := take NONCE_SIZE ciphertext in
  let boxed := drop NONCE_SIZE ciphertext in
  if (length nonce =? NONCE_SIZE)%nat then
    match crypto_secretbox_open boxed nonce box with
    | Some m => Ok m
    | None => Raise CryptoError
    end
  else Raise NaClValueError.

End nacl.

(** ** argon2.low_level.hash_secret_raw *)

(** Argon2id is a parameter of the functions that call it:
    [hash_secret_raw secret salt time_cost memory_cost parallelism hash_len].
    Its contract here is the length of its output. *)
Definition argon2_raw : Type := bytes -> bytes -> Z -> Z -> Z -> nat -> bytes.

Definition argon2_contract (hash_secret_raw : argon2_raw) : Prop :=
  forall secret salt t m p n, length (hash_secret_raw secret salt t m p n) = n.

(** A function with that contract that can be evaluated (Argon2id with
    64 MiB of memory cannot): SHA-256 over the inputs, cut or zero-extended
    to [hash_len]. It instantiates the parameter in the examples. *)
Definition sha256_kdf : argon2_raw :=
  fun secret salt t m p n =>
    take n (hashlib.sha256 (secret ++ salt) ++ repeat 0 n).

(** ** chat/sos/crypto.py *)

Module crypto.

Record RoomCredentials : Type := {
  room_id : pystr;
  emojis : list pystr;
  mode : pystr;
  created_at : Q;
  fixed_pin : option pystr
}.

Definition str_eqb (a b : pystr) : bool := bool_decide (a = b).

(** [int(c, 16)] for a character of a hex digest. *)
Definition hex_value (c : Z) : Z := if c <? 58 then c - 48 else c - 87.

(** [get_current_pin(creds)], at clock reading [now]; [fresh_pin] is what
    [generate_pin()] would return. *)
Definition get_current_pin (creds : RoomCredentials) (now : Q)
    (fresh_pin : pystr) : result pystr :=
  if str_eqb (mode creds) (lit "fixed") then
    Ok (if truthy_opt_str (fixed_pin creds)
        then default [] (fixed_pin creds) else fresh_pin)
  else
    let bucket := Qfloor (now / 15) in
    do seed <- utf8.encode (room_id creds ++ lit ":" ++ py_str_int bucket);
    let hash_val := hashlib.hexdigest (hashlib.sha256 seed) in
    Ok (map (fun c => 48 + hex_value c mod 10) (take 6 hash_val)).

Definition salt_input (emojis : list pystr) (timestamp : option Q) : pystr :=
  let emoji_str := concat emojis in
  let base := lit "sos-chat-v1:" ++ emoji_str in
  match timestamp with
  | Some t => if truthy_num t then base ++ lit ":" ++ py_str_int (py_int t)
              else base
  | None => base
  end.

Definition derive_salt (emojis : list pystr) (timestamp : option Q)
  : result bytes :=
  do s <- utf8.encode (salt_input emojis timestamp);
  Ok (take 16 (hashlib.sha256 s)).

Definition derive_room_key (hash_secret_raw : argon2_raw)
    (emojis : list pystr) (pin : pystr) (timestamp : option Q)
  : result bytes :=
  let emoji_str := concat emojis in
  do password <- utf8.encode (emoji_str ++ lit ":" ++ pin);
  do salt <- derive_salt emojis timestamp;
  Ok (hash_secret_raw password salt 2 65536 1 32%nat).

Definition get_encryption_key (hash_secret_raw : argon2_raw)
    (creds : RoomCredentials) (pin : pystr) (now : Q) : result bytes :=
  if str_eqb (mode creds) (lit "fixed") then
    derive_room_key hash_secret_raw (emojis creds) pin (Some (created_at creds))
  else
    let bucket := Qfloor (now / 15) * 15 in
    derive_room_key hash_secret_raw (emojis creds) pin (Some (inject_Z bucket)).

(** [encrypt_message(message, key)]; [nonce] is what
    [nacl_random(SecretBox.NONCE_SIZE)] returned. *)
Definition encrypt_message (message : pystr) (key nonce : bytes)
  : result bytes :=
  do box <- nacl.SecretBox key;
  do plaintext <- utf8.encode message;
  nacl.SecretBox_encrypt box plaintext nonce.

(** [decrypt_message(encrypted, key)]: [Ok None] is the [None] returned from
    the [except CryptoError] clause; any other exception propagates. *)
Definition decrypt_message (encrypted key : bytes) : result (option pystr) :=
  let body :=
    do box <- nacl.SecretBox key;
    do decrypted <- nacl.SecretBox_decrypt box encrypted;
    do text <- utf8.decode decrypted;
    Ok (Some text) in
  match body with
  | Raise e => if is_CryptoError e then Ok None else Raise e
  | r => r
  end.

(** [try_decrypt_rotating(encrypted, creds)]: only the current bucket. *)
Definition try_decrypt_rotating (hash_secret_raw : argon2_raw)
    (encrypted : bytes) (creds : RoomCredentials) (now : Q)
    (fresh_pin : pystr) : result (option (pystr * pystr)) :=
  do current_pin <- get_current_pin creds now fresh_pin;
  do key <- get_encryption_key hash_secret_raw creds current_pin now;
  do msg <- decrypt_message encrypted key;
  if truthy_opt_str msg then Ok (Some (default [] msg, current_pin))
  else Ok None.

Definition room_id_to_hash (emojis : list pystr) : result pystr :=
  do b <- utf8.encode (concat emojis);
  Ok (take 16 (hashlib.hexdigest (hashlib.sha256 b))).

End crypto.

(** ** A Python dict with string keys, in insertion order *)

Module pydict.

Definition t (V : Type) : Type := list (pystr * V).

Fixpoint get {V} (d : t V) (k : pystr) : option V :=
  match d with
  | [] => None
  | (k', v) :: d' => if bool_decide (k' = k) then Some v else get d' k
  end.

(** [d[k] = v]: an existing key keeps its place, a new one goes last. *)
Fixpoint set {V} (d : t V) (k : pystr) (v : V) : t V :=
  match d with
  | [] => [(k, v)]
  | (k', v') :: d' =>
      if bool_decide (k' = k) then (k', v) :: d' else (k', v') :: set d' k v
  end.

Fixpoint del {V} (d : t V) (k : pystr) : t V :=
  match d with
  | [] => []
  | (k', v') :: d' =>
      if bool_decide (k' = k) then d' else (k', v') :: del d' k
  end.

Definition values {V} (d : t V) : list V := map snd d.

End pydict.

(** ** A parsed JSON document, as [json.loads] returns it *)

Module json.

(** A number: an [int] or a finite [float] (an exact rational here), or one
    of the constants [NaN], [Infinity], [-Infinity] the parser also takes. *)
Inductive number : Type :=
| Finite (q : Q)
| NaN
| Infinity (negative : bool).

(** [None], [bool], a number, [str], [list], [dict]. A dict is the list of
    its items; [pydict.get] finds the value of a key. *)
#[warnings="-register-all"] Inductive value : Type :=
| JNull
| JBool (b : bool)
| JNum (x : number)
| JStr (s : pystr)
| JArr (l : list value)
| JObj (d : list (pystr * value)).

(** [bool(v)] *)
Definition truthy (v : value) : bool :=
  match v with
  | JNull => false
  | JBool b => b
  | JNum (Finite q) => truthy_num q
  | JNum _ => true
  | JStr s => truthy_str s
  | JArr l => match l with [] => false | _ => true end
  | JObj d => match d with [] => false | _ => true end
  end.

(** [len(v)]; [None] where it raises TypeError. *)
Definition len (v : value) : option nat :=
  match v with
  | JStr s => Some (length s)
  | JArr l => Some (length l)
  | JObj d => Some (length (remove_dups d.*1))
  | _ => None
  end.

(** [v[:n]]; [None] where it raises. *)
Definition slice_to (n : nat) (v : value) : option value :=
  match v with
  | JStr s => Some (JStr (take n s))
  | JArr l => Some (JArr (take n l))
  | _ => None
  end.

(** [hash(v)] is defined: a list or a dict as a dict key, or on the left
    of [in] for a dict, raises TypeError. *)
Definition hashable (v : value) : bool :=
  match v with
  | JArr _ | JObj _ => false
  | _ => true
  end.

(** [d.get(key, default)] on a dict. *)
Definition get (d : list (pystr * value)) (key : pystr) (default : value)
  : value :=
  from_option Datatypes.id default (pydict.get d key).

End json.

(** ** src/sos/relay.py *)

Module relay.

Definition ROOM_TTL : Q := 3600.
Definition MAX_MESSAGES : nat := 500.
Definition RATE_LIMIT_COOLDOWN : Q := 1800.
Definition RATE_LIMIT_DELAYS : list Z := [0; 10; 30; 60; 180; 300].

(** [sender] and [content] are stored as the request gave them: any JSON
    value. *)
Record MessageData : Type := {
  id : pystr;
  sender : json.value;
  content : json.value;
  timestamp : Q
}.

Record RoomData : Type := {
  room_hash : pystr;
  mode : pystr;
  created_at : Q;
  expires_at : Q;
  members : pydict.t json.value;
  messages : list MessageData
}.

(** One entry of [RateLimiter._attempts]. *)
Record Attempt : Type := {
  count : nat;
  last_attempt : Q
}.

End relay.

Module RateLimiter.
Import relay.

(** [check(ip)] at clock reading [now]: the answer
    [(allowed, retry_after_seconds)] and the table afterwards. *)
Definition check (attempts : gmap pystr Attempt) (ip : pystr) (now : Q)
  : (bool * Z) * gmap pystr Attempt :=
  match attempts !! ip with
  | None =>
      ((true, 0), <[ip := {| count := 0; last_attempt := now |}]> attempts)
  | Some data =>
      if Qlt_bool RATE_LIMIT_COOLDOWN (now - last_attempt data) then
        ((true, 0), <[ip := {| count := 0; last_attempt := now |}]> attempts)
      else
        let delay_idx := Nat.min (count data) (length RATE_LIMIT_DELAYS - 1) in
        let required_delay := nth delay_idx RATE_LIMIT_DELAYS 0 in
        let elapsed := (now - last_attempt data)%Q in
        if Qle_bool (inject_Z required_delay) elapsed then
          ((true, 0),
           <[ip := {| count := S (count data); last_attempt := now |}]> attempts)
        else
          ((false, py_int (inject_Z required_delay - elapsed)), attempts)
  end.

Definition reset (attempts : gmap pystr Attempt) (ip : pystr)
  : gmap pystr Attempt :=
  delete ip attempts.

End RateLimiter.

Module SOSRelay.
Import relay.

(** The relay with no Redis behind it ([self._redis is None]). A handler
    runs from its first line to its [return] or to the exception that ends
    it, with no other request in between. Two [time.time()] calls with no
    [await request.json()] between them are one reading; two calls with it
    between them are two readings, each an argument of the handler. *)
Record state : Type := {
  rooms : gmap pystr RoomData;
  rate_limiter : gmap pystr Attempt
}.

Definition init : state := {| rooms := ∅; rate_limiter := ∅ |}.

Inductive payload : Type :=
| Error (tag : pystr)
| RateLimited (retry_after : Z)
| RoomCreated (room_hash mode : pystr) (created_at expires_at : Q)
    (member_id : pystr) (members : list json.value)
| RoomJoined (room_hash mode : pystr) (created_at expires_at : Q)
    (member_id : pystr) (members : list json.value)
    (message_count : nat) (last_message_ts : Q)
| Sent (id : pystr) (timestamp : Q)
| Polled (messages : list MessageData) (members : list json.value)
    (expires_at : Q) (message_count : nat)
| Left
| InternalServerError.

Record response : Type := {
  status : Z;
  body : payload
}.

Definition json_response (p : payload) (code : Z) : response :=
  {| status := code; body := p |}.

(** What the server answers when a handler ends in an exception it does
    not catch. *)
Definition server_error : response :=
  {| status := 500; body := InternalServerError |}.

(** A request body is [None] when [request.json()] raises, and otherwise
    the JSON value it parsed to, of any shape. *)

Definition _get_room (s : state) (h : pystr) (now : Q)
  : option RoomData * state :=
  match rooms s !! h with
  | Some room =>
      if Qlt_bool now (expires_at room) then (Some room, s)
      else (None, {| rooms := delete h (rooms s);
                     rate_limiter := rate_limiter s |})
  | None => (None, s)
  end.

Definition _save_room (s : state) (room : RoomData) : state :=
  {| rooms := <[room_hash room := room]> (rooms s);
     rate_limiter := rate_limiter s |}.

(** [handle_create_room]: [ip] is [_get_client_ip(request)], [uuid] is
    [str(uuid.uuid4())], [checked] the clock as [rate_limiter.check] reads
    it, [now] the clock after the body has been read ([_get_room] and the
    creation). *)
Definition handle_create_room (s : state) (ip : pystr)
    (data : option json.value) (checked now : Q) (uuid : pystr)
  : response * state :=
  let '((allowed, retry_after), limiter) :=
    RateLimiter.check (rate_limiter s) ip checked in
  let s := {| rooms := rooms s; rate_limiter := limiter |} in
  if negb allowed then (json_response (RateLimited retry_after) 429, s)
  else
    match data with
    | None => (json_response (Error (lit "invalid_json")) 400, s)
    | Some (json.JObj data) =>
        let room_hash := json.get data (lit "room_hash") json.JNull in
        let mode := lit "fixed" in
        if negb (json.truthy room_hash) then
          (json_response (Error (lit "invalid_room_hash")) 400, s)
        else
          match json.len room_hash with
          | None => (server_error, s)       (* len(room_hash): TypeError *)
          | Some n =>
              if negb (n =? 16)%nat then
                (json_response (Error (lit "invalid_room_hash")) 400, s)
              else if negb (bool_decide (mode ∈ [lit "fixed"])) then
                (json_response (Error (lit "invalid_mode")) 400, s)
              else
                match room_hash with
                | json.JStr room_hash =>
                    let '(existing, s) := _get_room s room_hash now in
                    match existing with
                    | Some _ =>
                        (json_response (Error (lit "room_exists")) 409, s)
                    | None =>
                        let member_id := take 8 uuid in
                        let room :=
                          {| relay.room_hash := room_hash;
                             relay.mode := mode;
                             relay.created_at := now;
                             relay.expires_at := now + ROOM_TTL;
                             relay.members :=
                               [(member_id, json.JStr (lit "creator"))];
                             relay.messages := [] |} in
                        (json_response
                           (RoomCreated room_hash mode (relay.created_at room)
                              (relay.expires_at room) member_id
                              (pydict.values (relay.members room))) 200,
                         _save_room s room)
                    end
                | _ => (server_error, s)    (* room_hash in self.rooms:
                                               unhashable, TypeError *)
                end
          end
    | Some _ => (server_error, s)           (* data.get: AttributeError *)
    end.

(** [handle_join_room]: a body that does not parse is read as [{}]. *)
Definition handle_join_room (s : state) (ip room_hash : pystr)
    (data : option json.value) (now : Q) (uuid : pystr) : response * state :=
  let '(found, s) := _get_room s room_hash now in
  match found with
  | None => (json_response (Error (lit "room_not_found")) 404, s)
  | Some room =>
      match default (json.JObj []) data with
      | json.JObj data =>
          match json.slice_to 20
                  (json.get data (lit "nickname") (json.JStr (lit "anon")))
          with
          | None => (server_error, s)       (* nickname[:20]: TypeError *)
          | Some nickname =>
              let member_id := take 8 uuid in
              let room :=
                {| relay.room_hash := relay.room_hash room;
                   relay.mode := relay.mode room;
                   relay.created_at := relay.created_at room;
                   relay.expires_at := relay.expires_at room;
                   relay.members :=
                     pydict.set (relay.members room) member_id nickname;
                   relay.messages := relay.messages room |} in
              let s := _save_room s room in
              let s := {| rooms := rooms s;
                          rate_limiter :=
                            RateLimiter.reset (rate_limiter s) ip |} in
              (json_response
                 (RoomJoined room_hash (relay.mode room)
                    (relay.created_at room) (relay.expires_at room) member_id
                    (pydict.values (relay.members room))
                    (length (relay.messages room))
                    (match last (relay.messages room) with
                     | Some m => relay.timestamp m
                     | None => 0
                     end)) 200,
               s)
          end
      | _ => (server_error, s)              (* data.get: AttributeError *)
      end
  end.

(** [l[-n:]] *)
Definition last_n {A} (n : nat) (l : list A) : list A :=
  drop (length l - n) l.

(** The sender a message is stored under: the roster's name for
    [member_id] when [member_id and member_id in room.members], else the
    [sender] of the body; [None] where the [in] raises (a non-empty list or
    dict is unhashable). *)
Definition resolve_sender (roster : pydict.t json.value)
    (member_id sender : json.value) : option json.value :=
  if json.truthy member_id then
    match member_id with
    | json.JStr k => Some (from_option Datatypes.id sender (pydict.get roster k))
    | json.JArr _ | json.JObj _ => None
    | _ => Some sender                      (* never a key of the roster *)
    end
  else Some sender.

(** [handle_send_message]: [now] is the clock as [_get_room] reads it,
    [stamp] the clock after the body has been read, which becomes the
    timestamp. *)
Definition handle_send_message (s : state) (room_hash : pystr)
    (data : option json.value) (now stamp : Q) (uuid : pystr)
  : response * state :=
  let '(found, s) := _get_room s room_hash now in
  match found with
  | None => (json_response (Error (lit "room_not_found")) 404, s)
  | Some room =>
      match data with
      | None => (json_response (Error (lit "invalid_json")) 400, s)
      | Some (json.JObj data) =>
          let content := json.get data (lit "content") json.JNull in
          let sender := json.get data (lit "sender") (json.JStr (lit "anon")) in
          let member_id := json.get data (lit "member_id") json.JNull in
          if negb (json.truthy content) then
            (json_response (Error (lit "missing_content")) 400, s)
          else
            match resolve_sender (relay.members room) member_id sender with
            | None => (server_error, s)
            | Some sender =>
                let msg := {| relay.id := take 12 uuid;
                              relay.sender := sender;
                              relay.content := content;
                              relay.timestamp := stamp |} in
                let appended := relay.messages room ++ [msg] in
                let kept :=
                  if (MAX_MESSAGES <? length appended)%nat
                  then last_n MAX_MESSAGES appended else appended in
                let room := {| relay.room_hash := relay.room_hash room;
                               relay.mode := relay.mode room;
                               relay.created_at := relay.created_at room;
                               relay.expires_at := relay.expires_at room;
                               relay.members := relay.members room;
                               relay.messages := kept |} in
                (json_response (Sent (relay.id msg) (relay.timestamp msg)) 200,
                 _save_room s room)
            end
      | Some _ => (server_error, s)         (* data.get: AttributeError *)
      end
  end.

(** [handle_poll]: [since] is the query parameter read as a number, [None]
    when it is absent (the default [0]). *)
Definition handle_poll (s : state) (room_hash : pystr) (since : option Q)
    (now : Q) : response * state :=
  let '(found, s) := _get_room s room_hash now in
  match found with
  | None => (json_response (Error (lit "room_not_found")) 404, s)
  | Some room =>
      let since := default 0%Q since in
      let messages :=
        filter (fun m => Qlt_bool since (relay.timestamp m) = true)
               (relay.messages room) in
      (json_response
         (Polled messages (pydict.values (relay.members room))
            (relay.expires_at room) (length (relay.messages room))) 200,
       s)
  end.

(** [handle_leave]: [member_id] is the body's [member_id] where it is a
    string, [None] where the key is absent or the body does not parse. *)
Definition handle_leave (s : state) (room_hash : pystr)
    (member_id : option pystr) (now : Q) : response * state :=
  let '(found, s) := _get_room s room_hash now in
  match found with
  | None => (json_response (Error (lit "room_not_found")) 404, s)
  | Some room =>
      let s :=
        if truthy_opt_str member_id
           && bool_decide (is_Some (pydict.get (relay.members room)
                                      (default [] member_id)))
        then
          _save_room s
            {| relay.room_hash := relay.room_hash room;
               relay.mode := relay.mode room;
               relay.created_at := relay.created_at room;
               relay.expires_at := relay.expires_at room;
               relay.members :=
                 pydict.del (relay.members room) (default [] member_id);
               relay.messages := relay.messages room |}
        else s in
      (json_response Left 200, s)
  end.

(** One pass of [_cleanup_loop] at clock reading [now]: the rooms with
    [now > expires_at] are deleted. *)
Definition _cleanup_loop (s : state) (now : Q) : state :=
  {| rooms := filter (fun hr => Qlt_bool (expires_at hr.2) now = false) (rooms s);
     rate_limiter := rate_limiter s |}.

End SOSRelay.

(** ** chat/sos/transport.py *)

Module transport.

Inductive ConnectionState : Type :=
| DISCONNECTED
| CONNECTING
| CONNECTED
| RECONNECTING
| ERROR.

Definition state_eqb (a b : ConnectionState) : bool :=
  match a, b with
  | DISCONNECTED, DISCONNECTED | CONNECTING, CONNECTING
  | CONNECTED, CONNECTED | RECONNECTING, RECONNECTING | ERROR, ERROR => true
  | _, _ => false
  end.

Record Message : Type := {
  id : pystr;
  sender : pystr;
  content : pystr;
  timestamp : Q
}.

Record RoomState : Type := {
  rs_room_hash : pystr;
  rs_mode : pystr;
  rs_created_at : Q;
  rs_expires_at : Q;
  rs_members : list pystr;
  rs_message_count : Z
}.

(** The [httpx.AsyncClient] in hand: through the SOCKS5 proxy or direct. *)
Inductive client_kind : Type := ViaSocks | Direct.

(** An entry of the offline queue. *)
Record pending : Type := {
  p_content : pystr;
  p_sender : pystr;
  queued_at : Q
}.

Definition BACKOFF_INITIAL : Q := 1.
Definition BACKOFF_MAX : Q := 30.
Definition BACKOFF_MULTIPLIER : Q := 2.

(** The fields of a [SOSTransport]; a callback is recorded by whether one is
    registered, its calls appear in the trace. *)
Record SOSTransport : Type := {
  state : ConnectionState;
  client : option client_kind;
  room_hash : option pystr;
  member_id : option pystr;
  last_message_ts : Q;
  on_message : bool;
  on_state_change : bool;
  on_members_update : bool;
  on_room_expire : bool;
  _running : bool;
  _pending_messages : list pending;
  _backoff : Q
}.

Definition init : SOSTransport :=
  {| state := DISCONNECTED; client := None; room_hash := None;
     member_id := None; last_message_ts := 0;
     on_message := false; on_state_change := false;
     on_members_update := false; on_room_expire := false;
     _running := false; _pending_messages := []; _backoff := BACKOFF_INITIAL |}.

(** What a method does to the outside, in order: the HTTP request it issues
    and the callbacks it calls. *)
Inductive request : Type :=
| POST_room (room_hash mode : pystr)
| POST_join (room_hash nickname : pystr)
| POST_send (room_hash content sender : pystr) (member_id : option pystr)
| GET_poll (room_hash : pystr) (since : Q) (member_id : option pystr).

Inductive event : Type :=
| Http (r : request)
| StateChange (s : ConnectionState)
| MembersUpdate (members : list pystr)
| RoomExpire.

(** What the awaited request comes back with: a response (status code and
    JSON body) or an [httpx.RequestError]. *)
Inductive reply (B : Type) : Type :=
| Response (status_code : Z) (json : B)
| RequestError.
Arguments Response {B} status_code json.
Arguments RequestError {B}.

(** JSON bodies, a key that is absent being [None]. *)
Record room_json : Type := {
  rj_member_id : option pystr;
  rj_mode : option pystr;
  rj_created_at : option Q;
  rj_expires_at : option Q;
  rj_members : option (list pystr);
  rj_message_count : option Z;
  rj_last_message_ts : option Q;
  rj_retry_after : option Z
}.

Record message_json : Type := {
  mj_id : option pystr;
  mj_sender : option pystr;
  mj_content : option pystr;
  mj_timestamp : option Q
}.

Record poll_json : Type := {
  pj_messages : option (list message_json);
  pj_members : option (list pystr);
  pj_expires_at : option Q
}.

(** [d[key]]: KeyError when the key is absent. *)
Definition item {A} (o : option A) : result A :=
  match o with Some a => Ok a | None => Raise KeyError end.

Definition from_dict (data : message_json) : result Message :=
  do i <- item (mj_id data);
  do s <- item (mj_sender data);
  do c <- item (mj_content data);
  do t <- item (mj_timestamp data);
  Ok {| id := i; sender := s; content := c; timestamp := t |}.

Definition with_state (t : SOSTransport) (s : ConnectionState) : SOSTransport :=
  {| state := s; client := client t; room_hash := room_hash t;
     member_id := member_id t; last_message_ts := last_message_ts t;
     on_message := on_message t; on_state_change := on_state_change t;
     on_members_update := on_members_update t;
     on_room_expire := on_room_expire t; _running := _running t;
     _pending_messages := _pending_messages t; _backoff := _backoff t |}.

Definition with_client (t : SOSTransport) (c : option client_kind) (b : Q)
  : SOSTransport :=
  {| state := state t; client := c; room_hash := room_hash t;
     member_id := member_id t; last_message_ts := last_message_ts t;
     on_message := on_message t; on_state_change := on_state_change t;
     on_members_update := on_members_update t;
     on_room_expire := on_room_expire t; _running := _running t;
     _pending_messages := _pending_messages t; _backoff := b |}.

Definition with_session (t : SOSTransport) (h m : option pystr) (ts : Q)
  : SOSTransport :=
  {| state := state t; client := client t; room_hash := h;
     member_id := m; last_message_ts := ts;
     on_message := on_message t; on_state_change := on_state_change t;
     on_members_update := on_members_update t;
     on_room_expire := on_room_expire t; _running := _running t;
     _pending_messages := _pending_messages t; _backoff := _backoff t |}.

Definition with_pending (t : SOSTransport) (q : list pending) : SOSTransport :=
  {| state := state t; client := client t; room_hash := room_hash t;
     member_id := member_id t; last_message_ts := last_message_ts t;
     on_message := on_message t; on_state_change := on_state_change t;
     on_members_update := on_members_update t;
     on_room_expire := on_room_expire t; _running := _running t;
     _pending_messages := q; _backoff := _backoff t |}.

Definition _set_state (t : SOSTransport) (s : ConnectionState)
  : SOSTransport * list event :=
  if negb (state_eqb (state t) s)
  then (with_state t s, if on_state_change t then [StateChange s] else [])
  else (t, []).

(** [connect()]: [made] is the client [_create_client()] returns, [None]
    when it raises. *)
Definition connect (t : SOSTransport) (made : option client_kind)
  : bool * SOSTransport * list event :=
  let '(t, e1) := _set_state t CONNECTING in
  match made with
  | Some c =>
      let t := with_client t (Some c) (_backoff t) in
      let '(t, e2) := _set_state t CONNECTED in
      (true, with_client t (client t) BACKOFF_INITIAL, e1 ++ e2)
  | None =>
      let '(t, e2) := _set_state t ERROR in
      (false, t, e1 ++ e2)
  end.

Definition room_state (room_hash : pystr) (data : room_json)
    (message_count : Z) : result RoomState :=
  do m <- item (rj_mode data);
  do c <- item (rj_created_at data);
  do e <- item (rj_expires_at data);
  Ok {| rs_room_hash := room_hash; rs_mode := m; rs_created_at := c;
        rs_expires_at := e; rs_members := default [] (rj_members data);
        rs_message_count := message_count |}.

Definition create_room (t : SOSTransport) (room_hash mode : pystr)
    (made : option client_kind) (http : reply room_json)
  : result (option RoomState) * SOSTransport * list event :=
  let '(up, t, e0) :=
    match client t with
    | None => connect t made
    | Some _ => (true, t, [])
    end in
  if negb up then (Ok None, t, e0)
  else
    let e1 := e0 ++ [Http (POST_room room_hash mode)] in
    match http with
    | Response code data =>
        if code =? 200 then
          let t := with_session t (Some room_hash) (rj_member_id data)
                                (last_message_ts t) in
          (do r <- room_state room_hash data 0; Ok (Some r), t, e1)
        else if code =? 429 then
          (Raise (RateLimitError (default 10 (rj_retry_after data))), t, e1)
        else (Ok None, t, e1)
    | RequestError =>
        let '(t, e2) := _set_state t RECONNECTING in
        (Ok None, t, e1 ++ e2)
    end.

Definition join_room (t : SOSTransport) (room_hash nickname : pystr)
    (made : option client_kind) (http : reply room_json)
  : result (option RoomState) * SOSTransport * list event :=
  let '(up, t, e0) :=
    match client t with
    | None => connect t made
    | Some _ => (true, t, [])
    end in
  if negb up then (Ok None, t, e0)
  else
    let e1 := e0 ++ [Http (POST_join room_hash nickname)] in
    match http with
    | Response code data =>
        if code =? 200 then
          let t := with_session t (Some room_hash) (rj_member_id data)
                                (default 0%Q (rj_last_message_ts data)) in
          (do r <- room_state room_hash data
                     (default 0 (rj_message_count data));
           Ok (Some r), t, e1)
        else if code =? 404 then (Raise RoomNotFoundError, t, e1)
        else if code =? 401 then (Raise InvalidKeyError, t, e1)
        else (Ok None, t, e1)
    | RequestError =>
        let '(t, e2) := _set_state t RECONNECTING in
        (Ok None, t, e1 ++ e2)
    end.

Definition enqueue (t : SOSTransport) (content sender : pystr) (now : Q)
  : SOSTransport :=
  with_pending t (_pending_messages t ++
                  [{| p_content := content; p_sender := sender;
                      queued_at := now |}]).

Definition send_message (t : SOSTransport) (content sender : pystr)
    (http : reply unit) (now : Q) : bool * SOSTransport * list event :=
  if negb (truthy_opt_str (room_hash t)) then (false, t, [])
  else if negb (bool_decide (is_Some (client t)))
          || negb (state_eqb (state t) CONNECTED) then
    (false, enqueue t content sender now, [])
  else
    let e1 := [Http (POST_send (default [] (room_hash t)) content sender
                       (member_id t))] in
    match http with
    | Response code _ => (code =? 200, t, e1)
    | RequestError =>
        let t := enqueue t content sender now in
        let '(t, e2) := _set_state t RECONNECTING in
        (false, t, e1 ++ e2)
    end.

Fixpoint from_dicts (l : list message_json) : result (list Message) :=
  match l with
  | [] => Ok []
  | m :: l' => do x <- from_dict m; do xs <- from_dicts l'; Ok (x :: xs)
  end.

(** [max(m.timestamp for m in messages)] of a non-empty list. *)
Definition max_timestamp (first : Message) (rest : list Message) : Q :=
  fold_left (fun acc m => if Qlt_bool acc (timestamp m) then timestamp m else acc)
            rest (timestamp first).

Definition poll_messages (t : SOSTransport) (http : reply poll_json) (now : Q)
  : result (list Message) * SOSTransport * list event :=
  if negb (truthy_opt_str (room_hash t))
     || negb (bool_decide (is_Some (client t))) then (Ok [], t, [])
  else
    let e1 := [Http (GET_poll (default [] (room_hash t)) (last_message_ts t)
                       (member_id t))] in
    match http with
    | Response code data =>
        if code =? 200 then
          match from_dicts (default [] (pj_messages data)) with
          | Raise e => (Raise e, t, e1)
          | Ok messages =>
              let t :=
                match messages with
                | m :: ms => with_session t (room_hash t) (member_id t)
                                          (max_timestamp m ms)
                | [] => t
                end in
              let members := default [] (pj_members data) in
              let e2 :=
                if on_members_update t
                   && match members with [] => false | _ => true end
                then [MembersUpdate members] else [] in
              let expires_at := default 0%Q (pj_expires_at data) in
              let e3 :=
                if truthy_num expires_at && Qlt_bool expires_at now
                   && on_room_expire t
                then [RoomExpire] else [] in
              (Ok messages, t, e1 ++ e2 ++ e3)
          end
        else if code =? 404 then
          (Ok [], t, e1 ++ if on_room_expire t then [RoomExpire] else [])
        else (Ok [], t, e1)
    | RequestError =>
        let '(t, e2) := _set_state t RECONNECTING in
        (Ok [], t, e1 ++ e2)
    end.

End transport.

(** ** src/sos/app.py: ChatRoomScreen._on_message_received *)

Module ChatRoomScreen.






End ChatRoomScreen.

(** ** Definitions the properties are stated with *)

(** The salt as the specification words it: the first 16 bytes of SHA-256
    over ["sos-chat-v1:" + emojis + ":" + anchor], the anchor in decimal.
    It is compared with [crypto.derive_salt], the salt of the code. *)
Definition salt_as_specified (emojis : list pystr) (anchor : Z)
  : result bytes :=
  do s <- utf8.encode (lit "sos-chat-v1:" ++ concat emojis ++ lit ":"
                       ++ py_str_int anchor);
  Ok (take 16 (hashlib.sha256 s)).

(** The current bucket's key, as [_on_message_received] derives it. *)
Definition current_key (hash_secret_raw : argon2_raw)
    (creds : crypto.RoomCredentials) (now : Q) (fresh_pin : pystr)
  : result bytes :=
  do current_pin <- crypto.get_current_pin creds now fresh_pin;
  crypto.get_encryption_key hash_secret_raw creds current_pin now.


(** *** Runs of the rate limiter *)

Module limiter_runs.
Import relay.

(** The answers to create attempts from [ip] at the clock readings [times],
    and the table afterwards. *)
Fixpoint run_checks (attempts : gmap (list Z) Attempt) (ip : list Z)
    (times : list Q) : list (bool * Z) * gmap (list Z) Attempt :=
  match times with
  | [] => ([], attempts)
  | now :: rest =>
      let '(r, a1) := RateLimiter.check attempts ip now in
      let '(rs, a2) := run_checks a1 ip rest in
      (r :: rs, a2)
  end.

(** Consecutive readings no more than the cooldown apart. *)
Fixpoint within_window (t : Q) (times : list Q) : Prop :=
  match times with
  | [] => True
  | t' :: rest => ~ (RATE_LIMIT_COOLDOWN < t' - t)%Q /\ within_window t' rest
  end.

Fixpoint last_time (t : Q) (times : list Q) : Q :=
  match times with
  | [] => t
  | t' :: rest => last_time t' rest
  end.

Definition required_delay (c : nat) : Z :=
  nth (Nat.min c (length RATE_LIMIT_DELAYS - 1)) RATE_LIMIT_DELAYS 0.

End limiter_runs.

(** *** Runs of the registry *)

Module registry.
Import relay SOSRelay.

(** The body of a create request is refused for its [room_hash]: it is an
    object whose [room_hash] is absent or falsy (null, false, zero, an
    empty string, list or dict), or a string, list or dict whose length is
    not 16. *)
Definition bad_room_hash (data : json.value) : Prop :=
  exists d, data = json.JObj d
    /\ let h := json.get d (lit "room_hash") json.JNull in
       json.truthy h = false
       \/ exists n, json.len h = Some n /\ n <> 16%nat.

(** The body of a create request on which the handler ends in an
    exception: it is not an object, or its [room_hash] is [true] or a
    non-zero number (no [len]), or a list or dict of 16 entries
    (unhashable). *)
Definition create_raises (data : json.value) : Prop :=
  (forall d, data <> json.JObj d)
  \/ exists d, data = json.JObj d
       /\ let h := json.get d (lit "room_hash") json.JNull in
          json.truthy h = true
          /\ (json.len h = None
              \/ (json.len h = Some 16%nat /\ json.hashable h = false)).

(** A send request: the body, the clock as [_get_room] reads it, the clock
    at the timestamp, and the uuid drawn. *)
Definition send_request : Type := option json.value * Q * Q * list Z.

Fixpoint send_all (s : state) (room_hash : list Z) (reqs : list send_request)
  : list response * state :=
  match reqs with
  | [] => ([], s)
  | (data, now, stamp, uuid) :: rest =>
      let '(r, s1) := handle_send_message s room_hash data now stamp uuid in
      let '(rs, s2) := send_all s1 room_hash rest in
      (r :: rs, s2)
  end.

(** A send request that arrives while [room] is live, whose body is an
    object with a truthy [content] and whose [member_id] is not a
    non-empty list or dict. *)
Definition acceptable (room : RoomData) (req : send_request) : Prop :=
  (req.1.1.2 < expires_at room)%Q
  /\ exists d, req.1.1.1 = Some (json.JObj d)
       /\ json.truthy (json.get d (lit "content") json.JNull) = true
       /\ let member_id := json.get d (lit "member_id") json.JNull in
          json.truthy member_id = true -> json.hashable member_id = true.

(** The answer to an accepted send. *)
Definition sent_ok (req : send_request) : response :=
  json_response (Sent (take 12 req.2) req.1.2) 200.

(** The message an accepted send stores, given the roster: under the
    roster's name for the body's [member_id] when that is a member, else
    under the body's [sender] (["anon"] when absent), stamped with the
    second clock reading. *)
Definition message_of (roster : pydict.t json.value) (req : send_request)
  : MessageData :=
  let '(data, now, stamp, uuid) := req in
  let d := match data with Some (json.JObj d) => d | _ => [] end in
  let given := json.get d (lit "sender") (json.JStr (lit "anon")) in
  {| id := take 12 uuid;
     sender := match json.get d (lit "member_id") json.JNull with
               | json.JStr k =>
                   if truthy_str k
                   then from_option Datatypes.id given (pydict.get roster k)
                   else given
               | _ => given
               end;
     content := json.get d (lit "content") json.JNull;
     timestamp := stamp |}.

(** The states the relay can be in: from the empty registry, by handler
    calls and sweeps at positive clock readings. *)
Inductive step (s : state) : state -> Prop :=
| step_create ip data checked now uuid :
    (0 < checked)%Q -> (0 < now)%Q ->
    step s (snd (handle_create_room s ip data checked now uuid))
| step_join ip h data now uuid :
    (0 < now)%Q -> step s (snd (handle_join_room s ip h data now uuid))
| step_send h data now stamp uuid :
    (0 < now)%Q -> (0 < stamp)%Q ->
    step s (snd (handle_send_message s h data now stamp uuid))
| step_poll h since now :
    (0 < now)%Q -> step s (snd (handle_poll s h since now))
| step_leave h member_id now :
    (0 < now)%Q -> step s (snd (handle_leave s h member_id now))
| step_cleanup now :
    (0 < now)%Q -> step s (_cleanup_loop s now).

Inductive reachable : state -> Prop :=
| reachable_init : reachable init
| reachable_step s s' : reachable s -> step s s' -> reachable s'.

Definition room_ok (h : list Z) (r : RoomData) : Prop :=
  room_hash r = h
  /\ (length (messages r) <= MAX_MESSAGES)%nat
  /\ Forall (fun m => (0 < timestamp m)%Q) (messages r).

Definition registry_ok (s : state) : Prop := map_Forall room_ok (rooms s).

End registry.

(** *** The session of a transport *)

Module session.
Import transport.

(** The session fields a failed request must leave alone. *)
Definition same_session (t t' : SOSTransport) : Prop :=
  room_hash t' = room_hash t
  /\ member_id t' = member_id t
  /\ last_message_ts t' = last_message_ts t.

(** After a failed request: Reconnecting, session untouched. *)
Definition reconnecting_same (t t' : SOSTransport) : Prop :=
  state t' = RECONNECTING /\ same_session t t'.

(** A trace entry that is a callback, not a request. *)
Definition is_callback (e : event) : Prop :=
  match e with Http _ => False | _ => True end.

End session.

(** *** Data for the examples *)

Module examples.
Import relay SOSRelay registry.

Definition fire : pystr := [0x1F525].
Definition moon : pystr := [0x1F319].

(** A rotating-mode room on two emojis. *)
Definition rotating_creds : crypto.RoomCredentials :=
  {| crypto.room_id := fire ++ moon; crypto.emojis := [fire; moon];
     crypto.mode := lit "rotating"; crypto.created_at := 1700000000 # 1;
     crypto.fixed_pin := None |}.

Definition an_ip : pystr := lit "1.2.3.4".
Definition a_uuid : pystr := lit "3f2b8c1e-7a4d-4e0b-9c55-0123456789ab".
Definition a_room_hash : list Z := lit "a1b2c3d4e5f6a7b8".

(** The registry after one room has been created at [1700000000]. *)
Definition one_room : state :=
  snd (handle_create_room init an_ip
         (Some (json.JObj [(lit "room_hash", json.JStr a_room_hash);
                           (lit "mode", json.JStr (lit "rotating"))]))
         (1700000000 # 1) (1700000000 # 1) a_uuid).

Definition the_room : RoomData :=
  {| room_hash := a_room_hash; mode := lit "fixed";
     created_at := 1700000000 # 1;
     expires_at := (1700000000 # 1) + ROOM_TTL;
     members := [(take 8 a_uuid, json.JStr (lit "creator"))];
     messages := [] |}.

(** [n] sends of the same ciphertext, one second apart. *)
Definition sends (n : nat) : list send_request :=
  map (fun i => (Some (json.JObj [(lit "content", json.JStr (lit "XYZ=="));
                                  (lit "sender", json.JStr (lit "me"));
                                  (lit "member_id", json.JStr (take 8 a_uuid))]),
                 inject_Z (1700000001 + Z.of_nat i),
                 inject_Z (1700000001 + Z.of_nat i), a_uuid))
      (seq 0 n).

End examples.

(** ** chat/sos/crypto.py: the emoji alphabet and the helpers around it *)

Module emoji.

(** 32 emojis, by code points; the mountain carries a variation selector. *)
Definition EMOJI_SET : list pystr :=
  [ [0x1F525]; [0x1F319]; [0x2B50]; [0x1F3AF];
    [0x1F30A]; [0x1F48E]; [0x1F340]; [0x1F3B2];
    [0x1F680]; [0x1F308]; [0x26A1]; [0x1F3B5];
    [0x1F511]; [0x1F338]; [0x1F344]; [0x1F98B];
    [0x1F3AA]; [0x1F335]; [0x1F34E]; [0x1F40B];
    [0x1F98A]; [0x1F33B]; [0x1F3AD]; [0x1F514];
    [0x1F3D4; 0xFE0F]; [0x1F334]; [0x1F355]; [0x1F419];
    [0x1F989]; [0x1F33A]; [0x1F3A8]; [0x1F52E] ].

(** Phonetic names for verbal communication, in the order the dict literal
    lists them. *)
Definition EMOJI_PHONETICS : pydict.t pystr :=
  [ ([0x1F525], lit "fire"); ([0x1F319], lit "moon");
    ([0x2B50], lit "star"); ([0x1F3AF], lit "target");
    ([0x1F30A], lit "wave"); ([0x1F48E], lit "gem");
    ([0x1F340], lit "clover"); ([0x1F3B2], lit "dice");
    ([0x1F680], lit "rocket"); ([0x1F308], lit "rainbow");
    ([0x26A1], lit "bolt"); ([0x1F3B5], lit "music");
    ([0x1F511], lit "key"); ([0x1F338], lit "bloom");
    ([0x1F344], lit "shroom"); ([0x1F98B], lit "butterfly");
    ([0x1F3AA], lit "circus"); ([0x1F335], lit "cactus");
    ([0x1F34E], lit "apple"); ([0x1F40B], lit "whale");
    ([0x1F98A], lit "fox"); ([0x1F33B], lit "sunflower");
    ([0x1F3AD], lit "mask"); ([0x1F514], lit "bell");
    ([0x1F3D4; 0xFE0F], lit "mountain"); ([0x1F334], lit "palm");
    ([0x1F355], lit "pizza"); ([0x1F419], lit "octopus");
    ([0x1F989], lit "owl"); ([0x1F33A], lit "hibiscus");
    ([0x1F3A8], lit "palette"); ([0x1F52E], lit "crystal") ].

(** [{v: k for k, v in EMOJI_PHONETICS.items()}] *)
Definition PHONETICS_TO_EMOJI : pydict.t pystr :=
  fold_left (fun d kv => pydict.set d (snd kv) (fst kv)) EMOJI_PHONETICS [].

(** [secrets.choice(EMOJI_SET)] is [EMOJI_SET[secrets.randbelow(32)]];
    [randbelow k] is the number the [k]-th draw returns. *)
Definition generate_room_id (randbelow : nat -> nat) : list pystr :=
  map (fun k => nth (randbelow k) EMOJI_SET []) (seq 0 6).

(** [secrets.randbelow(10)] six times, each number printed with [str]. *)
Definition generate_pin (randbelow : nat -> Z) : pystr :=
  concat (map (fun k => py_str_int (randbelow k)) (seq 0 6)).

(** [get_time_remaining()] at clock reading [now]. *)
Definition get_time_remaining (now : Q) : Z := 15 - py_int now mod 15.

(** [l.index(x)]: the first position of [x], [None] where Python raises
    ValueError. *)
Fixpoint index (l : list pystr) (x : pystr) : option nat :=
  match l with
  | [] => None
  | y :: l' => if bool_decide (y = x) then Some O else S <$> index l' x
  end.

Definition emojis_to_indices (emojis : list pystr) : list Z :=
  omap (fun e => Z.of_nat <$> index EMOJI_SET e) emojis.

Definition indices_to_emojis (indices : list Z) : list pystr :=
  omap (fun i => if (0 <=? i) && (i <? Z.of_nat (length EMOJI_SET))
                 then EMOJI_SET !! Z.to_nat i else None) indices.

Definition get_phonetic (e : pystr) : pystr :=
  default e (pydict.get EMOJI_PHONETICS e).

(** [sep.join(parts)] *)
Fixpoint join (sep : pystr) (parts : list pystr) : pystr :=
  match parts with
  | [] => []
  | [p] => p
  | p :: rest => p ++ sep ++ join sep rest
  end.

Definition get_phonetic_room_id (emojis : list pystr) : pystr :=
  join (lit " ") (map get_phonetic emojis).

End emoji.

(** ** base64.b64encode and str.strip *)

Module pylib.

Definition b64_char (v : Z) : Z :=
  if v <? 26 then 65 + v
  else if v <? 52 then 71 + v
  else if v <? 62 then v - 4
  else if v =? 62 then 43
  else 47.

(** [base64.b64encode(bs).decode()]: three bytes give four characters, a
    shorter tail is padded with [=]. *)
Fixpoint b64encode (bs : bytes) : pystr :=
  match bs with
  | [] => []
  | [a] => [b64_char (a / 4); b64_char (a mod 4 * 16); 61; 61]
  | [a; b] =>
      [b64_char (a / 4); b64_char (a mod 4 * 16 + b / 16);
       b64_char (b mod 16 * 4); 61]
  | a :: b :: c :: rest =>
      [b64_char (a / 4); b64_char (a mod 4 * 16 + b / 16);
       b64_char (b mod 16 * 4 + c / 64); b64_char (c mod 64)]
      ++ b64encode rest
  end.

(** [str.isspace] of one character: the code points Python counts as
    whitespace. *)
Definition isspace (c : Z) : bool :=
  ((0x09 <=? c) && (c <=? 0x0D)) || ((0x1C <=? c) && (c <=? 0x20))
  || (c =? 0x85) || (c =? 0xA0) || (c =? 0x1680)
  || ((0x2000 <=? c) && (c <=? 0x200A))
  || (c =? 0x2028) || (c =? 0x2029) || (c =? 0x202F) || (c =? 0x205F)
  || (c =? 0x3000).

Fixpoint lstrip (s : pystr) : pystr :=
  match s with
  | c :: s' => if isspace c then lstrip s' else s
  | [] => []
  end.

(** [s.strip()] *)
Definition strip (s : pystr) : pystr := rev (lstrip (rev (lstrip s))).

(** [s.split(",")[0]]: what comes before the first comma. *)
Fixpoint before_comma (s : pystr) : pystr :=
  match s with
  | c :: s' => if c =? 44 then [] else c :: before_comma s'
  | [] => []
  end.

(** [l[i] = v] on a list: a negative index counts from the end, [None]
    where Python raises IndexError. *)
Definition setitem {A} (l : list A) (i : Z) (v : A) : option (list A) :=
  let n := Z.of_nat (length l) in
  if (0 <=? i) && (i <? n) then Some (<[Z.to_nat i := v]> l)
  else if (- n <=? i) && (i <? 0) then Some (<[Z.to_nat (n + i) := v]> l)
  else None.

End pylib.

(** ** chat/sos/room.py *)

Module EmojiOTPInput.

(** The widget once composed: the six boxes show [emojis]. *)
Record widget : Type := {
  emojis : list pystr;
  current_box : Z
}.

(** [__init__] *)
Definition init : widget := {| emojis := repeat [] 6; current_box := 0 |}.

(** [on_emoji_selected(event)]: the widget afterwards and the
    [RoomIDComplete] message posted, if any; [None] when the assignment
    raises IndexError. *)
Definition on_emoji_selected (w : widget) (e : pystr)
  : option (widget * option (list pystr)) :=
  if (0 <=? current_box w) && (current_box w <? 6) then
    emojis' ← pylib.setitem (emojis w) (current_box w) e;
    if current_box w <? 5 then
      Some ({| emojis := emojis'; current_box := current_box w + 1 |}, None)
    else
      Some ({| emojis := emojis'; current_box := current_box w |},
            if forallb truthy_str emojis' then Some emojis' else None)
  else Some (w, None).

Definition action_next_box (w : widget) : widget :=
  if current_box w <? 5
  then {| emojis := emojis w; current_box := current_box w + 1 |}
  else w.

Definition action_prev_box (w : widget) : widget :=
  if 0 <? current_box w
  then {| emojis := emojis w; current_box := current_box w - 1 |}
  else w.

Definition action_clear_current (w : widget) : option widget :=
  emojis' ← pylib.setitem (emojis w) (current_box w) [];
  Some {| emojis := emojis'; current_box := current_box w |}.

Definition clear (w : widget) : widget := init.

End EmojiOTPInput.

Module room.

Record Room : Type := {
  credentials : crypto.RoomCredentials;
  members : list pystr;
  messages : list (pydict.t pystr);
  is_creator : bool;
  nickname : pystr
}.

Definition room_hash (r : Room) : result pystr :=
  crypto.room_id_to_hash (crypto.emojis (credentials r)).

(** [create_room(mode)]: [choices] and [digits] are the draws of
    [generate_room_id] and [generate_pin], [now] the clock. *)
Definition create_room (mode : pystr) (choices : nat -> nat)
    (digits : nat -> Z) (now : Q) : Room :=
  let emojis := emoji.generate_room_id choices in
  {| credentials :=
       {| crypto.room_id := concat emojis;
          crypto.emojis := emojis;
          crypto.mode := mode;
          crypto.created_at := now;
          crypto.fixed_pin :=
            if crypto.str_eqb mode (lit "fixed")
            then Some (emoji.generate_pin digits) else None |};
     members := [lit "You"];
     messages := [];
     is_creator := true;
     nickname := lit "anon" |}.

End room.

(** ** src/sos/app.py: ChatRoomScreen.on_message_submitted *)

Module ChatRoomInput.
Import ChatRoomScreen.




End ChatRoomInput.

(** ** src/sos/relay.py: the other handlers *)

Module relay_more.
Import relay SOSRelay.

(** The headers and the peer address [_get_client_ip] reads; a header that
    is absent is [None]. *)
Record request : Type := {
  x_forwarded_for : option pystr;
  x_real_ip : option pystr;
  peername : option pystr
}.

Definition _get_client_ip (r : request) : pystr :=
  if truthy_opt_str (x_forwarded_for r) then
    pylib.strip (pylib.before_comma (default [] (x_forwarded_for r)))
  else if truthy_opt_str (x_real_ip r) then default [] (x_real_ip r)
  else match peername r with
       | Some host => host
       | None => lit "unknown"
       end.

Inductive info_payload : Type :=
| NoRoom
| Info (room_hash mode : pystr) (created_at expires_at : Q)
    (members : list json.value) (message_count : nat) (time_remaining : Z).

Definition handle_info (s : state) (room_hash : pystr) (now : Q)
  : (Z * info_payload) * state :=
  let '(found, s) := _get_room s room_hash now in
  match found with
  | None => ((404, NoRoom), s)
  | Some room =>
      ((200, Info room_hash (relay.mode room) (relay.created_at room)
               (relay.expires_at room) (pydict.values (relay.members room))
               (length (relay.messages room))
               (Z.max 0 (py_int (relay.expires_at room - now)))), s)
  end.

End relay_more.

(** ** chat/sos/transport.py: the polling loop and leaving *)

Module transport_loop.
Import transport.

Definition POLL_INTERVAL : Q := 3 # 2.

(** What the loop and [leave_room] do to the outside, next to the events
    of the methods they call. *)
Inductive loop_event : Type :=
| Inner (e : event)
| OnMessage (m : Message)
| Sleep (seconds : Q)
| HttpLeave (room_hash : pystr) (member_id : option pystr)
| Close.

Definition with_running (t : SOSTransport) (b : bool) : SOSTransport :=
  {| state := state t; client := client t; room_hash := room_hash t;
     member_id := member_id t; last_message_ts := last_message_ts t;
     on_message := on_message t; on_state_change := on_state_change t;
     on_members_update := on_members_update t;
     on_room_expire := on_room_expire t; _running := b;
     _pending_messages := _pending_messages t; _backoff := _backoff t |}.

(** [_flush_pending()]. Each pass of its loop reads the clock once and, if
    it sends, awaits one answer: [inputs] lists them pass by pass. The
    first component tells whether the loop has ended when they run out. *)
Fixpoint _flush_pending (t : SOSTransport) (inputs : list (Q * reply unit))
  : bool * SOSTransport * list event :=
  match _pending_messages t with
  | [] => (true, t, [])
  | msg :: rest =>
      match inputs with
      | [] => (false, t, [])
      | (now, http) :: inputs' =>
          let t := with_pending t rest in
          if Qlt_bool (now - queued_at msg) 300 then
            let '(_, t, e) :=
              send_message t (p_content msg) (p_sender msg) http now in
            let '(ended, t, e') := _flush_pending t inputs' in
            (ended, t, e ++ e')
          else _flush_pending t inputs'
      end
  end.

(** What one pass of [_poll_loop] meets: the answer to the poll, the
    passes of the flush, the client [_create_client] makes, the clock. *)
Record pass_input : Type := {
  poll_reply : reply poll_json;
  flush_inputs : list (Q * reply unit);
  made : option client_kind;
  now : Q
}.

(** One pass of the [while self._running] loop of [_poll_loop]; [None]
    when the flush inside it has not ended. *)
Definition _poll_pass (t : SOSTransport) (i : pass_input)
  : option (SOSTransport * list loop_event) :=
  match state t with
  | CONNECTED =>
      let '(r, t, e) := poll_messages t (poll_reply i) (now i) in
      match r with
      | Raise _ => Some (t, map Inner e ++ [Sleep POLL_INTERVAL])
      | Ok messages =>
          let e1 := if on_message t then map OnMessage messages else [] in
          let '(ended, t, e2) := _flush_pending t (flush_inputs i) in
          if ended then
            Some (with_client t (client t) BACKOFF_INITIAL,
                  map Inner e ++ e1 ++ map Inner e2 ++ [Sleep POLL_INTERVAL])
          else None
      end
  | RECONNECTING =>
      let '(up, t, e) := connect t (made i) in
      if up then
        let '(t, e') := _set_state t CONNECTED in
        Some (t, map Inner (e ++ e') ++ [Sleep POLL_INTERVAL])
      else
        let doubled := (_backoff t * BACKOFF_MULTIPLIER)%Q in
        Some (with_client t (client t)
                (if Qlt_bool BACKOFF_MAX doubled then BACKOFF_MAX else doubled),
              map Inner e ++ [Sleep (_backoff t); Sleep POLL_INTERVAL])
  | _ => Some (t, [Sleep POLL_INTERVAL])
  end.

(** [_poll_loop()] over the passes [inputs] describes, while [_running]
    holds. *)
Fixpoint _poll_loop (t : SOSTransport) (inputs : list pass_input)
  : option (SOSTransport * list loop_event) :=
  match inputs with
  | [] => Some (t, [])
  | i :: inputs' =>
      if _running t then
        '(t, e) ← _poll_pass t i;
        '(t, e') ← _poll_loop t inputs';
        Some (t, e ++ e')
      else Some (t, [])
  end.

(** [leave_room()]; the answer to the leave request is not looked at. *)
Definition leave_room (t : SOSTransport) : SOSTransport * list loop_event :=
  let t := with_running t false in
  let e1 :=
    if bool_decide (is_Some (client t)) && truthy_opt_str (room_hash t)
    then [HttpLeave (default [] (room_hash t)) (member_id t)] else [] in
  let t := with_session t None None (last_message_ts t) in
  let '(t, e2) :=
    if bool_decide (is_Some (client t))
    then (with_client t None (_backoff t), [Close]) else (t, []) in
  let '(t, e3) := _set_state t DISCONNECTED in
  (t, e1 ++ e2 ++ map Inner e3).

End transport_loop.

(** ** Definitions the further properties are stated with *)

Module shapes.

Definition is_byte (b : Z) : Prop := 0 <= b < 256.

(** Lowercase hexadecimal digits and decimal digits, as code points. *)
Definition is_lower_hex (c : Z) : Prop := 48 <= c <= 57 \/ 97 <= c <= 102.
Definition is_ascii_digit (c : Z) : Prop := 48 <= c <= 57.

(** The clock readings of the 15-second window number [b]. *)
Definition in_bucket (b : Z) (now : Q) : Prop :=
  (inject_Z (15 * b) <= now /\ now < inject_Z (15 * b + 15))%Q.

(** Words a sentence can be cut into: not empty, no space inside. *)
Definition is_word (w : pystr) : Prop := w <> [] /\ 32 ∉ w.

(** A transport that sends at once: in a room, with a client, connected. *)
Definition online (t : transport.SOSTransport) (h : pystr) : Prop :=
  transport.room_hash t = Some h /\ h <> []
  /\ is_Some (transport.client t)
  /\ transport.state t = transport.CONNECTED.

(** The offline queue can be sent from: in a room, and not connected. *)
Definition offline (t : transport.SOSTransport) : Prop :=
  truthy_opt_str (transport.room_hash t) = true
  /\ (transport.client t = None
      \/ transport.state t <> transport.CONNECTED).

(** A request among the things the loop does. *)
Definition is_request (e : transport_loop.loop_event) : Prop :=
  match e with
  | transport_loop.Inner (transport.Http _) => True
  | transport_loop.HttpLeave _ _ => True
  | _ => False
  end.

(** The send request the flush makes for a queued message. *)
Definition flushed (t : transport.SOSTransport) (h : pystr)
    (p : transport.pending) : transport.event :=
  transport.Http
    (transport.POST_send h (transport.p_content p) (transport.p_sender p)
       (transport.member_id t)).

(** A queued message is sent if it is younger than 300 s at its pass. *)
Definition young (pi : transport.pending * (Q * transport.reply unit))
  : bool :=
  Qlt_bool (pi.2.1 - transport.queued_at pi.1) 300.

Definition answered (i : Q * transport.reply unit) : Prop :=
  match i.2 with transport.Response _ _ => True | _ => False end.

End shapes.

(** *** Data for the further examples *)

Module more_examples.
Import examples.

(** The key [sha256_kdf] derives for the room fire-moon, PIN 123456,
    anchor 1700000000. *)
Definition a_key : bytes :=
  Eval vm_compute in
    match crypto.derive_room_key sha256_kdf [fire; moon] (lit "123456")
            (Some (1700000000 # 1)%Q) with
    | Ok k => k
    | Raise _ => []
    end.

Definition a_nonce : bytes := map Z.of_nat (seq 0 24).

(** "hi" under that key and nonce. *)
Definition a_ciphertext : bytes :=
  Eval vm_compute in
    match crypto.encrypt_message (lit "hi") a_key a_nonce with
    | Ok c => c
    | Raise _ => []
    end.

(** The key of [rotating_creds] in the window of 1700000000, and "hi"
    under it. *)
Definition rotating_key : bytes :=
  Eval vm_compute in
    match current_key sha256_kdf rotating_creds (1700000000 # 1) [] with
    | Ok k => k
    | Raise _ => []
    end.

Definition rotating_ciphertext : bytes :=
  Eval vm_compute in
    match crypto.encrypt_message (lit "hi") rotating_key a_nonce with
    | Ok c => c
    | Raise _ => []
    end.



Definition a_transport : transport.SOSTransport :=
  transport.with_state
    (transport.with_client
       (transport.with_session transport.init (Some a_room_hash)
          (Some (take 8 a_uuid)) 0)
       (Some transport.Direct) 1)
    transport.CONNECTED.

(** The same transport with two messages queued, the second long ago. *)
Definition a_queue : list transport.pending :=
  [ {| transport.p_content := lit "QUJD"; transport.p_sender := lit "me";
       transport.queued_at := 1700000000 # 1 |};
    {| transport.p_content := lit "QUJE"; transport.p_sender := lit "me";
       transport.queued_at := 1699999000 # 1 |} ].

Definition a_queued_transport : transport.SOSTransport :=
  transport.with_pending a_transport a_queue.

End more_examples.

(** *** The shape of a stored room *)

Module registry_shape.
Import relay SOSRelay.

(** A roster entry: an id of at most 8 characters, and a name that is a
    string or a list of at most 20 entries. *)
Definition member_ok (kv : pystr * json.value) : Prop :=
  (length kv.1 <= 8)%nat
  /\ match kv.2 with
     | json.JStr n => (length n <= 20)%nat
     | json.JArr l => (length l <= 20)%nat
     | _ => False
     end.

Definition message_ok (m : MessageData) : Prop :=
  (length (relay.id m) <= 12)%nat /\ json.truthy (content m) = true
  /\ (0 < timestamp m)%Q.

Definition room_shape (h : pystr) (r : RoomData) : Prop :=
  room_hash r = h /\ length h = 16%nat
  /\ mode r = lit "fixed"
  /\ expires_at r = (created_at r + ROOM_TTL)%Q
  /\ NoDup (map fst (members r))
  /\ Forall member_ok (members r)
  /\ Forall message_ok (messages r).

Definition shape_ok (s : state) : Prop := map_Forall room_shape (rooms s).

(** The registry without the room [h]. *)
Definition without (s : state) (h : pystr) : state :=
  {| rooms := delete h (rooms s); rate_limiter := rate_limiter s |}.

End registry_shape.

(** *** Runs of the room-id input *)

Module otp_runs.
Import EmojiOTPInput.

(** Six boxes, the selection on one of them. *)
Definition well_formed (w : widget) : Prop :=
  length (emojis w) = 6%nat /\ 0 <= current_box w <= 5.

(** The picks [es] made one after another: the widget afterwards and the
    RoomIDComplete messages posted on the way. *)
Fixpoint select_all (w : widget) (es : list pystr)
  : option (widget * list (list pystr)) :=
  match es with
  | [] => Some (w, [])
  | e :: es' =>
      '(w1, post) ← on_emoji_selected w e;
      '(w2, posts) ← select_all w1 es';
      Some (w2, match post with Some p => p :: posts | None => posts end)
  end.

End otp_runs.

(** * Properties *)

(** ** Numbers *)

Module num_facts.

Lemma Qlt_bool_iff (x y : Q) : Qlt_bool x y = true <-> (x < y)%Q.
Proof.
  unfold Qlt_bool. rewrite negb_true_iff, <- not_true_iff_false, Qle_bool_iff.
  split; [apply Qnot_le_lt | apply Qlt_not_le].
Qed.

Lemma Qlt_bool_false (x y : Q) : Qlt_bool x y = false <-> ~ (x < y)%Q.
Proof. rewrite <- Qlt_bool_iff. destruct (Qlt_bool x y); intuition congruence. Qed.

Lemma py_int_floor (q : Q) : (0 <= q)%Q -> py_int q = Qfloor q.
Proof.
  destruct q as [n d]. unfold Qle, py_int, Qfloor. cbn. intros H.
  apply Z.quot_div_nonneg; lia.
Qed.

Lemma truthy_num_spec (q : Q) : truthy_num q = true <-> ~ (q == 0)%Q.
Proof.
  unfold truthy_num, Qeq. cbn. rewrite Z.mul_1_r, negb_true_iff, Z.eqb_neq.
  reflexivity.
Qed.

End num_facts.

(** ** UTF-8: decoding undoes encoding *)

Module utf8_facts.
Import utf8.

Ltac arith := Z.div_mod_to_equations; lia.

(** Decide the next comparison in the goal from the arithmetic context. *)
Ltac settle_test :=
  match goal with
  | |- context [?a <? ?b] =>
      first [ replace (a <? b) with true by (symmetry; apply Z.ltb_lt; arith)
            | replace (a <? b) with false by (symmetry; apply Z.ltb_ge; arith) ]
  | |- context [?a <=? ?b] =>
      first [ replace (a <=? b) with true by (symmetry; apply Z.leb_le; arith)
            | replace (a <=? b) with false by (symmetry; apply Z.leb_gt; arith) ]
  end.

Lemma decode_encode_cp (c : Z) (rest : list Z) :
  encodable c = true ->
  decode (encode_cp c ++ rest) = rbind (decode rest) (fun s => Ok (c :: s)).
Proof.
  unfold encodable, is_surrogate. intros H.
  apply andb_prop in H as [H Hs]. apply andb_prop in H as [H0 H1].
  apply Z.leb_le in H0, H1. apply negb_true_iff, andb_false_iff in Hs.
  assert (Hsur : c < 0xD800 \/ 0xDFFF < c).
  { destruct Hs as [Hs | Hs]; [left; apply Z.leb_gt in Hs | right; apply Z.leb_gt in Hs]; lia. }
  clear Hs. unfold encode_cp.
  destruct (Z.ltb_spec c 0x80).
  { cbn [app decode]. repeat settle_test. reflexivity. }
  destruct (Z.ltb_spec c 0x800).
  { cbn [app decode]. unfold is_cont. repeat settle_test. cbn [andb].
    replace ((192 + c / 64 - 192) * 64 + (128 + c mod 64 - 128)) with c by arith.
    reflexivity. }
  destruct (Z.ltb_spec c 0x10000).
  { cbn [app decode]. unfold is_cont, is_surrogate. cbv zeta.
    replace ((224 + c / 4096 - 224) * 4096 + (128 + (c / 64) mod 64 - 128) * 64
             + (128 + c mod 64 - 128)) with c by arith.
    repeat settle_test. cbn [andb].
    destruct Hsur; repeat settle_test; reflexivity. }
  cbn [app decode]. unfold is_cont. cbv zeta.
  replace ((240 + c / 262144 - 240) * 262144 + (128 + (c / 4096) mod 64 - 128) * 4096
           + (128 + (c / 64) mod 64 - 128) * 64 + (128 + c mod 64 - 128)) with c by arith.
  repeat settle_test. reflexivity.
Qed.

Lemma decode_encode (s : list Z) (bs : list Z) :
  encode s = Ok bs -> decode bs = Ok s.
Proof.
  revert bs. induction s as [|c s IH]; intros bs H; cbn in H.
  - injection H as <-. reflexivity.
  - destruct (encodable c) eqn:Hc; [|discriminate].
    destruct (encode s) as [bs'|] eqn:Hs; [|discriminate]. cbn in H.
    injection H as <-. rewrite decode_encode_cp by assumption.
    rewrite (IH bs' eq_refl). reflexivity.
Qed.

Lemma encode_total (s : list Z) :
  forallb encodable s = true -> exists bs, encode s = Ok bs.
Proof.
  induction s as [|c s IH]; cbn; intros H.
  - eauto.
  - apply andb_prop in H as [Hc Hs]. rewrite Hc.
    destruct (IH Hs) as [bs ->]. cbn. eauto.
Qed.

Lemma encode_inj (s1 s2 : list Z) (bs : list Z) :
  encode s1 = Ok bs -> encode s2 = Ok bs -> s1 = s2.
Proof.
  intros H1 H2. apply decode_encode in H1, H2. congruence.
Qed.

End utf8_facts.

(** ** SecretBox: opening undoes boxing *)

Module nacl_facts.
Import nacl.

Lemma le_bytes_length (n : nat) (x : Z) : length (le_bytes n x) = n.
Proof. revert x. induction n as [|n IH]; intros x; cbn; [|rewrite IH]; reflexivity. Qed.

Lemma concat_le_bytes_length (k : nat) (ws : list Z) :
  length (concat (map (le_bytes k) ws)) = (k * length ws)%nat.
Proof.
  induction ws as [|w ws IH]; cbn; [lia|].
  rewrite length_app, le_bytes_length, IH. lia.
Qed.

Lemma quarter_length (a b c d : nat) (x : list Z) :
  length (quarter a b c d x) = length x.
Proof. unfold quarter. now rewrite !length_insert. Qed.

Lemma doubleround_length (x : list Z) : length (doubleround x) = length x.
Proof. unfold doubleround. now rewrite !quarter_length. Qed.

Lemma rounds20_length (x : list Z) : length (rounds20 x) = length x.
Proof.
  unfold rounds20. generalize 10%nat as n.
  induction n as [|n IH]; cbn; [reflexivity|].
  now rewrite doubleround_length.
Qed.

Lemma hsalsa20_shape (key n16 : list Z) :
  exists k0 k1 k2 k3 k4 k5 k6 k7,
    le_words (hsalsa20 key n16) = [k0; k1; k2; k3; k4; k5; k6; k7].
Proof.
  unfold hsalsa20. set (z := rounds20 _). clearbody z.
  cbn. repeat eexists.
Qed.

Lemma salsa20_block_length (key n16 n8 : list Z) (ctr : Z) :
  length n8 = 8%nat ->
  length (salsa20_block (hsalsa20 key n16) n8 ctr) = 64%nat.
Proof.
  intros Hn. unfold salsa20_block.
  rewrite concat_le_bytes_length, length_zip_with, rounds20_length.
  rewrite Nat.min_id. unfold matrix.
  destruct (hsalsa20_shape key n16) as (k0&k1&k2&k3&k4&k5&k6&k7&->).
  do 9 (destruct n8 as [|? n8]; try discriminate Hn).
  cbn. reflexivity.
Qed.

Lemma concat_blocks_length {A} (f : nat -> list A) (ns : list nat) (k : nat) :
  (forall n, length (f n) = k) -> length (concat (map f ns)) = (k * length ns)%nat.
Proof.
  intros Hf. induction ns as [|n ns IH]; cbn; [lia|].
  rewrite length_app, Hf, IH. lia.
Qed.

Lemma xsalsa20_stream_length (key nonce : list Z) (len : nat) :
  length nonce = NONCE_SIZE ->
  length (xsalsa20_stream key nonce len) = len.
Proof.
  intros Hn. unfold xsalsa20_stream.
  rewrite length_take, (concat_blocks_length _ _ 64).
  - rewrite length_seq.
    pose proof (Nat.div_mod_eq (len + 63) 64).
    pose proof (Nat.mod_upper_bound (len + 63) 64). lia.
  - intros c. apply salsa20_block_length.
    rewrite length_drop, Hn. reflexivity.
Qed.

Lemma poly1305_length (key msg : list Z) : length (poly1305 key msg) = MACBYTES.
Proof. unfold poly1305. apply le_bytes_length. Qed.

Lemma xor_bytes_length (a b : list Z) :
  (length a <= length b)%nat -> length (xor_bytes a b) = length a.
Proof. intros H. unfold xor_bytes. rewrite length_zip_with. lia. Qed.

Lemma xor_bytes_cancel (m s : list Z) :
  (length m <= length s)%nat -> xor_bytes (xor_bytes m s) s = m.
Proof.
  unfold xor_bytes. revert s. induction m as [|a m IH]; intros [|b s] H; cbn in *;
    try reflexivity; try lia.
  rewrite Z.lxor_assoc, Z.lxor_nilpotent, Z.lxor_0_r.
  f_equal. apply IH. lia.
Qed.

(** Opening a box made with the same nonce and key gives the message back. *)
Lemma secretbox_open_box (m nonce key : list Z) :
  length nonce = NONCE_SIZE ->
  crypto_secretbox_open (crypto_secretbox m nonce key) nonce key = Some m.
Proof.
  intros Hn. unfold crypto_secretbox, crypto_secretbox_open.
  set (stream := xsalsa20_stream key nonce (32 + length m)).
  assert (Hs : length (drop 32 stream) = length m).
  { unfold stream. rewrite length_drop, xsalsa20_stream_length by assumption. lia. }
  set (c := xor_bytes m (drop 32 stream)).
  assert (Hc : length c = length m) by (apply xor_bytes_length; lia).
  set (tag := poly1305 (take 32 stream) c).
  assert (Ht : length tag = MACBYTES) by apply poly1305_length.
  replace (length (tag ++ c) <? MACBYTES)%nat with false
    by (symmetry; apply Nat.ltb_ge; rewrite length_app; lia).
  rewrite <- Ht, take_app_length, drop_app_length, Hc.
  fold stream. fold tag. rewrite bool_decide_eq_true_2 by reflexivity.
  f_equal. apply xor_bytes_cancel. lia.
Qed.

Lemma SecretBox_decrypt_encrypt (box m nonce c : list Z) :
  SecretBox_encrypt box m nonce = Ok c -> SecretBox_decrypt box c = Ok m.
Proof.
  unfold SecretBox_encrypt, SecretBox_decrypt.
  destruct (length nonce =? NONCE_SIZE)%nat eqn:Hn; [|discriminate].
  apply Nat.eqb_eq in Hn. intros [= <-].
  rewrite <- Hn, take_app_length, drop_app_length, Nat.eqb_refl.
  rewrite secretbox_open_box by assumption. reflexivity.
Qed.

End nacl_facts.

(** ** Crypto core *)

Module crypto_facts.
Import num_facts utf8_facts nacl_facts examples.

(** Literals and decimal numerals are told apart by their code points. *)
Lemma lit_inj (s1 s2 : string) : lit s1 = lit s2 -> s1 = s2.
Proof.
  unfold lit. intros H.
  rewrite <- (string_of_list_ascii_of_string s1), <- (string_of_list_ascii_of_string s2).
  f_equal. revert H. generalize (list_ascii_of_string s1) (list_ascii_of_string s2).
  intros l1. induction l1 as [|a l1 IH]; intros [|b l2] H; cbn in H;
    try discriminate; [reflexivity|].
  injection H as Hab Hl. f_equal; [|now apply IH].
  apply N2Z.inj in Hab.
  rewrite <- (ascii_N_embedding a), <- (ascii_N_embedding b). now f_equal.
Qed.

Lemma py_str_int_inj (z1 z2 : Z) : py_str_int z1 = py_str_int z2 -> z1 = z2.
Proof.
  unfold py_str_int. intros H%lit_inj.
  assert (Hn : forall z, Z.to_int z <> Decimal.Pos Decimal.Nil
                         /\ Z.to_int z <> Decimal.Neg Decimal.Nil).
  { intros [|p|p]; cbn; split; try discriminate;
      intros [= E]; now apply Unsigned.to_uint_nonnil in E. }
  apply to_int_inj.
  pose proof (NilZero.isi _ (proj1 (Hn z1)) (proj2 (Hn z1))) as E1.
  pose proof (NilZero.isi _ (proj1 (Hn z2)) (proj2 (Hn z2))) as E2.
  rewrite H in E1. congruence.
Qed.

(** The decoder raises nothing but UnicodeDecodeError. *)
Lemma decode_raises (bs : list Z) (e : exn) :
  utf8.decode bs = Raise e -> e = UnicodeDecodeError.
Proof.
  remember (length bs) as n eqn:Hn. revert bs Hn.
  induction n as [n IH] using lt_wf_ind. intros bs Hn.
  assert (Hrec : forall r c, (length r < n)%nat ->
             rbind (utf8.decode r) (fun s => Ok (c :: s)) = Raise e ->
             e = UnicodeDecodeError).
  { intros r c Hr H. destruct (utf8.decode r) eqn:Hd; [discriminate|].
    cbn in H. injection H as <-. eapply IH; [exact Hr|reflexivity|exact Hd]. }
  destruct bs as [|b0 r0]; [discriminate|]. cbn in Hn. cbn [utf8.decode].
  repeat match goal with
  | |- context [if ?c then _ else _] => destruct c
  | |- context [match ?l with [] => _ | _ :: _ => _ end] =>
      is_var l; destruct l; cbn in Hn
  end;
  try (intros [= <-]; reflexivity);
  try (intros H; eapply Hrec; [|exact H]; cbn; lia).
Qed.

(** The evaluable key-derivation function meets the contract. *)
Lemma sha256_kdf_contract : argon2_contract sha256_kdf.
Proof.
  intros secret salt t m p n. unfold sha256_kdf.
  rewrite length_take, length_app, repeat_length. lia.
Qed.

Section Crypto.
Variable hash_secret_raw : argon2_raw.
Hypothesis hash_len : argon2_contract hash_secret_raw.

(** A derived key has the size [SecretBox] asks for. *)
Lemma derive_room_key_length emojis pin anchor K :
  crypto.derive_room_key hash_secret_raw emojis pin anchor = Ok K ->
  length K = nacl.KEY_SIZE.
Proof.
  unfold crypto.derive_room_key. intros H.
  destruct (utf8.encode _) as [pw|]; [|discriminate]. cbn in H.
  destruct (crypto.derive_salt _ _) as [salt|]; [|discriminate]. cbn in H.
  injection H as <-. apply hash_len.
Qed.

(** Whatever [encrypt_message] returns decrypts to the message. *)
Lemma encrypt_decrypt (m : list Z) (key nonce c : list Z) :
  crypto.encrypt_message m key nonce = Ok c ->
  crypto.decrypt_message c key = Ok (Some m).
Proof.
  unfold crypto.encrypt_message, crypto.decrypt_message. intros H.
  destruct (nacl.SecretBox key) as [box|]; [|discriminate]. cbn in H |- *.
  destruct (utf8.encode m) as [bs|] eqn:Hm; [|discriminate]. cbn in H.
  rewrite (SecretBox_decrypt_encrypt _ _ _ _ H). cbn.
  rewrite (decode_encode _ _ Hm). reflexivity.
Qed.

(** C1. For every key [K] that [derive_room_key] derives from
    (emojis, pin, anchor), every plaintext [m] (a string the UTF-8 codec
    accepts) and every 24-byte nonce drawn by [encrypt_message], the
    encryption succeeds and decrypting it under [K] returns [m]:
    [decrypt_message(encrypt_message(m, K), K) = m]. *)
Theorem C1_decrypt_encrypt_roundtrip
    (emojis : list (list Z)) (pin : list Z) (anchor : option Q)
    (K m nonce : list Z) :
  crypto.derive_room_key hash_secret_raw emojis pin anchor = Ok K ->
  forallb utf8.encodable m = true ->
  length nonce = nacl.NONCE_SIZE ->
  exists c, crypto.encrypt_message m K nonce = Ok c
            /\ crypto.decrypt_message c K = Ok (Some m).
Proof.
  intros HK Hm Hn.
  assert (Hc : exists c, crypto.encrypt_message m K nonce = Ok c).
  { unfold crypto.encrypt_message, nacl.SecretBox.
    rewrite (derive_room_key_length _ _ _ _ HK), Nat.eqb_refl. cbn.
    destruct (encode_total m Hm) as [bs ->]. cbn.
    unfold nacl.SecretBox_encrypt. rewrite Hn, Nat.eqb_refl. eauto. }
  destruct Hc as [c Hc]. exists c. split; [exact Hc|].
  exact (encrypt_decrypt _ _ _ _ Hc).
Qed.

End Crypto.

(** C1 at the room fire-moon, PIN 123456, anchor 1700000000, message "hi":
    the key is the one [sha256_kdf] derives there. *)
Lemma C1_witness :
  exists c,
    crypto.encrypt_message (lit "hi")
      [104; 85; 10; 33; 141; 195; 8; 14; 206; 190; 36; 157; 6; 165; 50; 76;
       125; 34; 77; 18; 18; 140; 179; 115; 81; 222; 162; 183; 196; 125; 251; 174]
      (map Z.of_nat (seq 0 24)) = Ok c
    /\ crypto.decrypt_message c
      [104; 85; 10; 33; 141; 195; 8; 14; 206; 190; 36; 157; 6; 165; 50; 76;
       125; 34; 77; 18; 18; 140; 179; 115; 81; 222; 162; 183; 196; 125; 251; 174] = Ok (Some (lit "hi")).
Proof.
  apply (C1_decrypt_encrypt_roundtrip sha256_kdf sha256_kdf_contract
           [fire; moon] (lit "123456") (Some (1700000000 # 1)%Q)).
  - vm_compute. reflexivity.
  - vm_compute. reflexivity.
  - vm_compute. reflexivity.
Defined.

(** C10 fails as stated: under the all-zero 32-byte key, the box of the
    single byte [0xff] with the all-zero nonce authenticates, and
    [decrypt_message] raises UnicodeDecodeError on it instead of returning
    a string or [None]. *)
Lemma C10_counterexample :
  length (repeat 0 32) = 32%nat
  /\ crypto.decrypt_message
       (repeat 0 24 ++ [0xcb; 0xe7; 0x33; 0x5f; 0xb4; 0x23; 0x64; 0x6a; 0xb7;
                        0x96; 0xbf; 0x68; 0x85; 0x44; 0x8e; 0xd3; 0x39])
       (repeat 0 32)
     = Raise UnicodeDecodeError.
Proof. split; vm_compute; reflexivity. Qed.

(** C10, amended. For every 32-byte key and every byte string,
    [decrypt_message] returns [None] when the string is shorter than a nonce
    or its authenticator does not verify, returns the decoded string when
    the authenticated plaintext is valid UTF-8, and raises
    UnicodeDecodeError, and nothing else, when it is not. *)
Theorem C10_decrypt_message_outcomes (encrypted key : list Z) :
  length key = nacl.KEY_SIZE ->
  let opened :=
    if (nacl.NONCE_SIZE <=? length encrypted)%nat
    then nacl.crypto_secretbox_open (drop nacl.NONCE_SIZE encrypted)
           (take nacl.NONCE_SIZE encrypted) key
    else None in
  crypto.decrypt_message encrypted key =
    match opened with
    | None => Ok None
    | Some plaintext =>
        match utf8.decode plaintext with
        | Ok text => Ok (Some text)
        | Raise _ => Raise UnicodeDecodeError
        end
    end.
Proof.
  intros Hk opened. subst opened.
  unfold crypto.decrypt_message, nacl.SecretBox, nacl.SecretBox_decrypt.
  rewrite Hk, Nat.eqb_refl. cbn [rbind].
  rewrite length_take.
  destruct (Nat.leb_spec nacl.NONCE_SIZE (length encrypted)) as [Hl|Hl].
  - rewrite Nat.min_l, Nat.eqb_refl by assumption.
    destruct (nacl.crypto_secretbox_open _ _ _) as [p|]; cbn; [|reflexivity].
    destruct (utf8.decode p) as [text|e] eqn:Hd; cbn; [reflexivity|].
    rewrite (decode_raises _ _ Hd). reflexivity.
  - rewrite Nat.min_r by lia.
    replace (length encrypted =? nacl.NONCE_SIZE)%nat with false
      by (symmetry; apply Nat.eqb_neq; lia).
    reflexivity.
Qed.

(** C10 at a 24-byte string with nothing after the nonce: [None]. *)
Lemma C10_witness :
  crypto.decrypt_message (map Z.of_nat (seq 0 24)) (repeat 7 32) = Ok None.
Proof.
  apply (C10_decrypt_message_outcomes (map Z.of_nat (seq 0 24)) (repeat 7 32)).
  vm_compute. reflexivity.
Defined.

(** C5 fails as stated: the anchor [0] adds nothing to the salt input, so
    the salt is not the one specified and equals the salt of no anchor at
    all; and the distinct anchors 1700000000.25 and 1700000000.75 give the
    same salt. *)
Lemma C5_counterexample :
  crypto.derive_salt [fire] (Some (0 # 1)%Q) <> salt_as_specified [fire] 0
  /\ crypto.derive_salt [fire] (Some (0 # 1)%Q) = crypto.derive_salt [fire] None
  /\ ~ ((6800000001 # 4) == (6800000003 # 4))%Q
  /\ crypto.derive_salt [fire] (Some (6800000001 # 4)%Q)
     = crypto.derive_salt [fire] (Some (6800000003 # 4)%Q).
Proof.
  split; [|split; [|split]].
  - vm_compute. discriminate.
  - vm_compute. reflexivity.
  - intros H. vm_compute in H. discriminate.
  - vm_compute. reflexivity.
Qed.

(** C5, amended. For a nonzero anchor [a], [derive_room_key] is Argon2id of
    the password under the first 16 bytes of SHA-256 over the UTF-8 of
    ["sos-chat-v1:" + emojis + ":" + int(a)] in decimal; two nonzero anchors
    with different integer parts give different SHA-256 inputs; the anchor
    [0], like no anchor, adds nothing to the input. *)
Theorem C5_salt_of_room_key (hash_secret_raw : argon2_raw)
    (emojis : list (list Z)) (pin : list Z) (a a' : Q) :
  ~ (a == 0)%Q -> ~ (a' == 0)%Q ->
  crypto.derive_room_key hash_secret_raw emojis pin (Some a) =
    (do password <- utf8.encode (concat emojis ++ lit ":" ++ pin);
     do salt <- salt_as_specified emojis (py_int a);
     Ok (hash_secret_raw password salt 2 65536 1 32%nat))
  /\ (py_int a <> py_int a' ->
      forall b b',
        utf8.encode (crypto.salt_input emojis (Some a)) = Ok b ->
        utf8.encode (crypto.salt_input emojis (Some a')) = Ok b' ->
        b <> b')
  /\ crypto.derive_salt emojis (Some (0 # 1)%Q) = crypto.derive_salt emojis None.
Proof.
  intros Ha Ha'. apply truthy_num_spec in Ha, Ha'.
  split; [|split].
  - unfold crypto.derive_room_key, crypto.derive_salt, salt_as_specified,
      crypto.salt_input. rewrite Ha. reflexivity.
  - intros Hne b b' Hb Hb' ->.
    pose proof (encode_inj _ _ _ Hb Hb') as E.
    unfold crypto.salt_input in E. rewrite Ha, Ha' in E.
    repeat apply app_inv_head in E.
    apply py_str_int_inj in E. contradiction.
  - reflexivity.
Qed.

(** C5 at the room fire-moon with the anchors of two adjacent buckets. *)
Lemma C5_witness :
  crypto.derive_room_key sha256_kdf [fire; moon] (lit "123456")
      (Some (1700000000 # 1)%Q) =
    (do password <- utf8.encode (concat [fire; moon] ++ lit ":" ++ lit "123456");
     do salt <- salt_as_specified [fire; moon] (py_int (1700000000 # 1));
     Ok (sha256_kdf password salt 2 65536 1 32%nat))
  /\ (py_int (1700000000 # 1) <> py_int (1700000015 # 1) ->
      forall b b',
        utf8.encode (crypto.salt_input [fire; moon] (Some (1700000000 # 1)%Q)) = Ok b ->
        utf8.encode (crypto.salt_input [fire; moon] (Some (1700000015 # 1)%Q)) = Ok b' ->
        b <> b')
  /\ crypto.derive_salt [fire; moon] (Some (0 # 1)%Q)
     = crypto.derive_salt [fire; moon] None.
Proof.
  apply (C5_salt_of_room_key sha256_kdf [fire; moon] (lit "123456")
           (1700000000 # 1)%Q (1700000015 # 1)%Q).
  - intros H. vm_compute in H. discriminate.
  - intros H. vm_compute in H. discriminate.
Defined.

End crypto_facts.

(** ** Session controller *)

Module controller_facts.
Import ChatRoomScreen examples.


Section Controller.
Variable hash_secret_raw : argon2_raw.


End Controller.


End controller_facts.

(** ** Rate limiter *)

Module limiter_facts.
Import relay limiter_runs num_facts examples.

Section RateLimiterFacts.
Implicit Types (attempts : gmap (list Z) Attempt) (ip : list Z) (now : Q).

(** What [check] does, case by case. *)
Lemma check_first attempts ip now :
  attempts !! ip = None ->
  RateLimiter.check attempts ip now =
    ((true, 0), <[ip := {| count := 0; last_attempt := now |}]> attempts).
Proof. intros H. unfold RateLimiter.check. now rewrite H. Qed.

Lemma check_cooled attempts ip now data :
  attempts !! ip = Some data ->
  (RATE_LIMIT_COOLDOWN < now - last_attempt data)%Q ->
  RateLimiter.check attempts ip now =
    ((true, 0), <[ip := {| count := 0; last_attempt := now |}]> attempts).
Proof.
  intros H Hc. unfold RateLimiter.check. rewrite H.
  apply Qlt_bool_iff in Hc. now rewrite Hc.
Qed.

Lemma check_waited attempts ip now data :
  attempts !! ip = Some data ->
  ~ (RATE_LIMIT_COOLDOWN < now - last_attempt data)%Q ->
  (inject_Z (required_delay (count data)) <= now - last_attempt data)%Q ->
  RateLimiter.check attempts ip now =
    ((true, 0),
     <[ip := {| count := S (count data); last_attempt := now |}]> attempts).
Proof.
  intros H Hc Hd. unfold RateLimiter.check. rewrite H.
  apply Qlt_bool_false in Hc. rewrite Hc.
  apply Qle_bool_iff in Hd. unfold required_delay in Hd. now rewrite Hd.
Qed.

Lemma check_denied attempts ip now data :
  attempts !! ip = Some data ->
  ~ (RATE_LIMIT_COOLDOWN < now - last_attempt data)%Q ->
  ~ (inject_Z (required_delay (count data)) <= now - last_attempt data)%Q ->
  RateLimiter.check attempts ip now =
    ((false, py_int (inject_Z (required_delay (count data))
                     - (now - last_attempt data))), attempts).
Proof.
  intros H Hc Hd. unfold RateLimiter.check. rewrite H.
  apply Qlt_bool_false in Hc. rewrite Hc.
  rewrite <- Qle_bool_iff in Hd. apply not_true_is_false in Hd.
  unfold required_delay in Hd. now rewrite Hd.
Qed.

Lemma check_allowed_iff attempts ip now data :
  attempts !! ip = Some data ->
  fst (fst (RateLimiter.check attempts ip now)) = true <->
  (RATE_LIMIT_COOLDOWN < now - last_attempt data)%Q
  \/ (inject_Z (required_delay (count data)) <= now - last_attempt data)%Q.
Proof.
  intros H.
  destruct (Qlt_le_dec RATE_LIMIT_COOLDOWN (now - last_attempt data)) as [Hc|Hc].
  { rewrite (check_cooled _ _ _ _ H Hc). cbn. tauto. }
  apply Qle_not_lt in Hc.
  destruct (Qlt_le_dec (now - last_attempt data)
              (inject_Z (required_delay (count data)))) as [Hd|Hd].
  - apply Qlt_not_le in Hd. rewrite (check_denied _ _ _ _ H Hc Hd). cbn.
    split; [discriminate|tauto].
  - rewrite (check_waited _ _ _ _ H Hc Hd). cbn. tauto.
Qed.

(** A run of permitted attempts inside the window counts them. *)
Lemma run_checks_counts attempts ip (times : list Q) c t :
  attempts !! ip = Some {| count := c; last_attempt := t |} ->
  Forall (fun r => fst r = true) (fst (run_checks attempts ip times)) ->
  within_window t times ->
  snd (run_checks attempts ip times) !! ip =
    Some {| count := c + length times; last_attempt := last_time t times |}.
Proof.
  revert attempts c t.
  induction times as [|now rest IH]; intros attempts c t Hl Hok Hw.
  - cbn. rewrite Hl. do 2 f_equal. lia.
  - cbn in Hw. destruct Hw as [Hc Hw]. cbn [run_checks] in *.
    destruct (RateLimiter.check attempts ip now) as [r a1] eqn:Hchk.
    destruct (run_checks a1 ip rest) as [rs a2] eqn:Hrun.
    cbn [fst snd] in *. apply Forall_cons in Hok as [Hr Hrs].
    assert (Ha1 : a1 !! ip = Some {| count := S c; last_attempt := now |}).
    { pose proof (check_allowed_iff attempts ip now _ Hl) as Hiff.
      rewrite Hchk in Hiff. cbn [fst count last_attempt] in Hiff.
      apply Hiff in Hr as [Hr|Hr]; [contradiction|].
      rewrite (check_waited _ _ _ _ Hl Hc Hr) in Hchk.
      injection Hchk as _ <-. apply lookup_insert_eq. }
    specialize (IH a1 (S c) now Ha1). rewrite Hrun in IH. cbn [fst snd] in IH.
    rewrite (IH Hrs Hw). cbn [length last_time]. do 2 f_equal. lia.
Qed.

End RateLimiterFacts.

(** C3 fails as stated: two create attempts five seconds apart are both
    permitted, although a gap of 5 does not exceed [table[min(1, 5)] = 10]. *)
Lemma C3_counterexample :
  fst (run_checks ∅ an_ip [100 # 1; 105 # 1]%Q) = [(true, 0); (true, 0)]
  /\ (105 - 100 <= inject_Z (nth (Nat.min (2 - 1) 5) RATE_LIMIT_DELAYS 0%Z))%Q.
Proof. split; vm_compute; [reflexivity|discriminate]. Qed.

(** C3, amended. Let an IP with no entry make the attempts [t1 :: ts], all
    permitted and each within 1800 s of the one before. The first attempt
    is permitted and sets the counter to 0; after the run the counter is
    [length ts], the number of attempts after the first. The next attempt,
    the k-th with [k = length ts + 2], at [now], with [gap] the time since
    the (k-1)-th and [delay = table[min(k - 2, 5)]]:
    - is permitted if and only if [delay <= gap] or [1800 < gap];
    - when [1800 < gap], sets the counter to 0 and the stamp to [now];
    - when [delay <= gap <= 1800], sets the counter to [k - 1] and the
      stamp to [now];
    - otherwise is denied with [int(delay - gap)] and leaves the entry as
      it was.
    After a join has reset the entry, an attempt is permitted as a first
    one. *)
Theorem C3_kth_create_attempt (attempts : gmap (list Z) Attempt)
    (ip : list Z) (t1 : Q) (ts : list Q) (now : Q) :
  attempts !! ip = None ->
  Forall (fun r => fst r = true) (fst (run_checks attempts ip (t1 :: ts))) ->
  within_window t1 ts ->
  let after := snd (run_checks attempts ip (t1 :: ts)) in
  let k := S (S (length ts)) in
  let gap := (now - last_time t1 ts)%Q in
  let delay := nth (Nat.min (k - 2) 5) RATE_LIMIT_DELAYS 0%Z in
  RateLimiter.check attempts ip t1 =
    ((true, 0), <[ip := {| count := 0; last_attempt := t1 |}]> attempts)
  /\ after !! ip =
       Some {| count := k - 2; last_attempt := last_time t1 ts |}
  /\ (fst (fst (RateLimiter.check after ip now)) = true <->
      (inject_Z delay <= gap)%Q \/ (RATE_LIMIT_COOLDOWN < gap)%Q)
  /\ ((RATE_LIMIT_COOLDOWN < gap)%Q ->
      RateLimiter.check after ip now =
        ((true, 0), <[ip := {| count := 0; last_attempt := now |}]> after))
  /\ (~ (RATE_LIMIT_COOLDOWN < gap)%Q -> (inject_Z delay <= gap)%Q ->
      RateLimiter.check after ip now =
        ((true, 0),
         <[ip := {| count := k - 1; last_attempt := now |}]> after))
  /\ (~ (RATE_LIMIT_COOLDOWN < gap)%Q -> ~ (inject_Z delay <= gap)%Q ->
      RateLimiter.check after ip now =
        ((false, py_int (inject_Z delay - gap)), after))
  /\ (fst (fst (RateLimiter.check after ip now)) = false ->
      snd (RateLimiter.check after ip now) = after)
  /\ RateLimiter.check (RateLimiter.reset after ip) ip now =
       ((true, 0),
        <[ip := {| count := 0; last_attempt := now |}]> after).
Proof.
  intros Hnone Hok Hw. cbv zeta.
  cbn [run_checks] in Hok |- *.
  rewrite (check_first _ _ _ Hnone) in Hok |- *.
  set (a1 := <[ip := {| count := 0; last_attempt := t1 |}]> attempts) in *.
  pose proof (run_checks_counts a1 ip ts 0 t1) as Hcnt.
  destruct (run_checks a1 ip ts) as [rs after] eqn:Hrun.
  cbn [fst snd] in Hok, Hcnt |- *. apply Forall_cons in Hok as [_ Hrs].
  specialize (Hcnt (lookup_insert_eq _ _ _) Hrs Hw). cbn [Nat.add] in Hcnt.
  replace (S (S (length ts)) - 2)%nat with (length ts) by lia.
  replace (S (S (length ts)) - 1)%nat with (S (length ts)) by lia.
  change (nth (Nat.min (length ts) 5) RATE_LIMIT_DELAYS 0)
    with (required_delay (length ts)).
  split; [reflexivity|]. split; [exact Hcnt|]. split; [|split; [|split; [|split; [|split]]]].
  - rewrite (check_allowed_iff _ _ _ _ Hcnt). cbn [count last_attempt]. tauto.
  - intros Hc. exact (check_cooled _ _ _ _ Hcnt Hc).
  - intros Hc Hd. exact (check_waited _ _ _ _ Hcnt Hc Hd).
  - intros Hc Hd. exact (check_denied _ _ _ _ Hcnt Hc Hd).
  - intros Hden. pose proof (check_allowed_iff _ _ now _ Hcnt) as Hiff.
    rewrite Hden in Hiff.
    assert (Hc : ~ (RATE_LIMIT_COOLDOWN < now - last_time t1 ts)%Q)
      by (intros Hc; cbn [last_attempt] in Hiff; destruct Hiff as [_ Hiff];
          discriminate Hiff; auto).
    assert (Hd : ~ (inject_Z (required_delay (length ts))
                    <= now - last_time t1 ts)%Q)
      by (intros Hd; cbn [count last_attempt] in Hiff; destruct Hiff as [_ Hiff];
          discriminate Hiff; auto).
    now rewrite (check_denied _ _ _ _ Hcnt Hc Hd).
  - unfold RateLimiter.reset. rewrite check_first by apply lookup_delete_eq.
    now rewrite insert_delete_eq.
Qed.

(** C3 at the attempts 100, 105, 120 and then 2000, more than 1800 s after
    the third: the fourth attempt is permitted and the counter, 2 after the
    third, is back at 0. *)
Lemma C3_witness :
  let attempts : gmap (list Z) Attempt := ∅ in
  let ip := an_ip in
  let t1 := (100 # 1)%Q in
  let ts := [105 # 1; 120 # 1]%Q in
  let now := (2000 # 1)%Q in
  let after := snd (run_checks attempts ip (t1 :: ts)) in
  let k := S (S (length ts)) in
  let gap := (now - last_time t1 ts)%Q in
  let delay := nth (Nat.min (k - 2) 5) RATE_LIMIT_DELAYS 0%Z in
  ((RATE_LIMIT_COOLDOWN < gap)%Q
   /\ after !! ip = Some {| count := 2; last_attempt := 120 # 1 |}
   /\ snd (RateLimiter.check after ip now) !! ip
      = Some {| count := 0; last_attempt := 2000 # 1 |})
  /\ RateLimiter.check attempts ip t1 =
       ((true, 0), <[ip := {| count := 0; last_attempt := t1 |}]> attempts)
  /\ after !! ip =
       Some {| count := k - 2; last_attempt := last_time t1 ts |}
  /\ (fst (fst (RateLimiter.check after ip now)) = true <->
      (inject_Z delay <= gap)%Q \/ (RATE_LIMIT_COOLDOWN < gap)%Q)
  /\ ((RATE_LIMIT_COOLDOWN < gap)%Q ->
      RateLimiter.check after ip now =
        ((true, 0), <[ip := {| count := 0; last_attempt := now |}]> after))
  /\ (~ (RATE_LIMIT_COOLDOWN < gap)%Q -> (inject_Z delay <= gap)%Q ->
      RateLimiter.check after ip now =
        ((true, 0),
         <[ip := {| count := k - 1; last_attempt := now |}]> after))
  /\ (~ (RATE_LIMIT_COOLDOWN < gap)%Q -> ~ (inject_Z delay <= gap)%Q ->
      RateLimiter.check after ip now =
        ((false, py_int (inject_Z delay - gap)), after))
  /\ (fst (fst (RateLimiter.check after ip now)) = false ->
      snd (RateLimiter.check after ip now) = after)
  /\ RateLimiter.check (RateLimiter.reset after ip) ip now =
       ((true, 0),
        <[ip := {| count := 0; last_attempt := now |}]> after).
Proof.
  cbv zeta. split.
  - split; [reflexivity|]. split; vm_compute; reflexivity.
  - apply (C3_kth_create_attempt ∅ an_ip (100 # 1) [105 # 1; 120 # 1]%Q (2000 # 1)).
    + reflexivity.
    + vm_compute. repeat constructor.
    + vm_compute. split; [|split; [|exact I]]; intros H; discriminate H.
Defined.

(** C9 fails as stated: the third attempt, 5.5 s after the second, is
    denied with [retry_after = 4], while [10 - 5.5] rounded up is 5. *)
Lemma C9_counterexample :
  fst (run_checks ∅ an_ip [1000 # 1; 1001 # 1; 2013 # 2]%Q)
    = [(true, 0); (true, 0); (false, 4)]
  /\ Qceiling (inject_Z (nth 1 RATE_LIMIT_DELAYS 0%Z) - ((2013 # 2) - (1001 # 1))) = 5.
Proof. split; vm_compute; reflexivity. Qed.

(** C9, amended. For every denied attempt, [retry_after] is the required
    delay minus the time elapsed since the last permitted attempt, rounded
    down: it is the floor of that positive remainder. *)
Theorem C9_retry_after_truncates (attempts : gmap (list Z) Attempt)
    (ip : list Z) (now : Q) (retry_after : Z)
    (attempts' : gmap (list Z) Attempt) :
  RateLimiter.check attempts ip now = ((false, retry_after), attempts') ->
  exists data,
    attempts !! ip = Some data /\ attempts' = attempts
    /\ let remaining :=
         (inject_Z (nth (Nat.min (count data) 5) RATE_LIMIT_DELAYS 0%Z)
          - (now - last_attempt data))%Q in
       retry_after = Qfloor remaining
       /\ (0 < remaining)%Q
       /\ (inject_Z retry_after <= remaining)%Q
       /\ (remaining < inject_Z retry_after + 1)%Q.
Proof.
  intros H. destruct (attempts !! ip) as [data|] eqn:Hl.
  2:{ rewrite (check_first _ _ _ Hl) in H. discriminate. }
  exists data.
  destruct (Qlt_le_dec RATE_LIMIT_COOLDOWN (now - last_attempt data)) as [Hc|Hc].
  { rewrite (check_cooled _ _ _ _ Hl Hc) in H. discriminate. }
  apply Qle_not_lt in Hc.
  destruct (Qlt_le_dec (now - last_attempt data)
              (inject_Z (required_delay (count data)))) as [Hd|Hd].
  2:{ rewrite (check_waited _ _ _ _ Hl Hc Hd) in H. discriminate. }
  pose proof Hd as Hd'. apply Qlt_not_le in Hd'.
  rewrite (check_denied _ _ _ _ Hl Hc Hd') in H.
  injection H as <- <-. unfold required_delay in *.
  cbn [length RATE_LIMIT_DELAYS Nat.sub] in *. cbv zeta.
  set (remaining := (inject_Z _ - _)%Q) in *.
  assert (Hpos : (0 < remaining)%Q) by (subst remaining; lra).
  rewrite py_int_floor by lra.
  repeat split; try assumption.
  - apply Qfloor_le.
  - eapply Qlt_le_trans; [apply Qlt_floor|].
    rewrite inject_Z_plus. apply Qle_refl.
Qed.

(** C9 at the denied attempt of the counterexample. *)
Lemma C9_witness :
  exists data,
    snd (run_checks ∅ an_ip [1000 # 1; 1001 # 1]%Q) !! an_ip = Some data
    /\ snd (run_checks ∅ an_ip [1000 # 1; 1001 # 1]%Q)
       = snd (run_checks ∅ an_ip [1000 # 1; 1001 # 1]%Q)
    /\ let remaining :=
         (inject_Z (nth (Nat.min (count data) 5) RATE_LIMIT_DELAYS 0%Z)
          - ((2013 # 2) - last_attempt data))%Q in
       4 = Qfloor remaining
       /\ (0 < remaining)%Q
       /\ (inject_Z 4 <= remaining)%Q
       /\ (remaining < inject_Z 4 + 1)%Q.
Proof.
  apply (C9_retry_after_truncates
           (snd (run_checks ∅ an_ip [1000 # 1; 1001 # 1]%Q)) an_ip (2013 # 2) 4
           (snd (run_checks ∅ an_ip [1000 # 1; 1001 # 1]%Q))).
  vm_compute. reflexivity.
Defined.

End limiter_facts.

(** ** Room registry *)

Module relay_facts.
Import relay SOSRelay registry num_facts examples.

(** C4 fails as stated: a request whose [room_hash] is sixteen letters Z,
    no hexadecimal digits, and whose [mode] is "bogus" is accepted. *)
Lemma C4_counterexample :
  status (fst (handle_create_room init an_ip
                 (Some (json.JObj
                          [(lit "room_hash", json.JStr (lit "ZZZZZZZZZZZZZZZZ"));
                           (lit "mode", json.JStr (lit "bogus"))]))
                 (1700000000 # 1) (1700000000 # 1) a_uuid)) = 200.
Proof. vm_compute. reflexivity. Qed.

(** The two ways a parsed body is turned away, for an object and for any
    other value. *)
Lemma bad_room_hash_obj (d : list (list Z * json.value)) :
  bad_room_hash (json.JObj d) <->
  json.truthy (json.get d (lit "room_hash") json.JNull) = false
  \/ exists n, json.len (json.get d (lit "room_hash") json.JNull) = Some n
               /\ n <> 16%nat.
Proof.
  unfold bad_room_hash. split.
  - intros (d'&[= <-]&H). exact H.
  - intros H. exists d. split; [reflexivity|exact H].
Qed.

Lemma create_raises_obj (d : list (list Z * json.value)) :
  create_raises (json.JObj d) <->
  json.truthy (json.get d (lit "room_hash") json.JNull) = true
  /\ (json.len (json.get d (lit "room_hash") json.JNull) = None
      \/ (json.len (json.get d (lit "room_hash") json.JNull) = Some 16%nat
          /\ json.hashable (json.get d (lit "room_hash") json.JNull) = false)).
Proof.
  unfold create_raises. split.
  - intros [H|(d'&[= <-]&H)]; [destruct (H d eq_refl)|exact H].
  - intros H. right. exists d. split; [reflexivity|exact H].
Qed.

(** What [handle_create_room] answers once the limiter has let the request
    through, by the shape of the body. *)
Lemma create_room_allowed (s : state) (ip : list Z) (data : option json.value)
    (checked now : Q) (uuid : list Z) :
  fst (fst (RateLimiter.check (rate_limiter s) ip checked)) = true ->
  let resp := fst (handle_create_room s ip data checked now uuid) in
  (data = None -> status resp = 400)
  /\ (forall v, data = Some v -> bad_room_hash v -> status resp = 400)
  /\ (forall v, data = Some v -> create_raises v -> status resp = 500)
  /\ (forall d h, data = Some (json.JObj d) ->
        json.get d (lit "room_hash") json.JNull = json.JStr h ->
        length h = 16%nat -> status resp = 200 \/ status resp = 409).
Proof.
  intros Hallowed. cbv zeta. unfold handle_create_room.
  destruct (RateLimiter.check (rate_limiter s) ip checked)
    as [[allowed retry] limiter].
  cbn [fst] in Hallowed. subst allowed. cbn [negb].
  split; [intros ->; reflexivity|].
  split; [|split].
  - intros v -> (d&->&H).
    destruct H as [H|(n&Hn&Hne)].
    + rewrite H. reflexivity.
    + destruct (json.truthy _); [|reflexivity]. cbn [negb]. rewrite Hn.
      destruct (Nat.eqb_spec n 16); [contradiction|reflexivity].
  - intros v -> [H|(d&->&Ht&H)].
    + destruct v; try reflexivity. destruct (H d eq_refl).
    + rewrite Ht. cbn [negb]. destruct H as [H|[H Hh]]; rewrite H; [reflexivity|].
      cbn [Nat.eqb negb].
      rewrite bool_decide_eq_true_2 by (apply list_elem_of_singleton; reflexivity).
      cbn [negb]. destruct (json.get d _ _); try reflexivity. discriminate.
  - intros d h [= ->] Hh Hlen. rewrite Hh. cbn [json.truthy json.len].
    destruct h as [|c h]; [discriminate|]. cbn [truthy_str negb].
    rewrite Hlen. cbn [Nat.eqb negb].
    rewrite bool_decide_eq_true_2 by (apply list_elem_of_singleton; reflexivity).
    cbn [negb]. destruct (_get_room _ _ _) as [[r|] s1]; cbn; auto.
Qed.

(** Every parsed body falls in exactly one of the three classes. *)
Lemma create_body_classes (v : json.value) :
  bad_room_hash v \/ create_raises v
  \/ exists d h, v = json.JObj d
       /\ json.get d (lit "room_hash") json.JNull = json.JStr h
       /\ length h = 16%nat.
Proof.
  destruct v as [|b|x|str|l|d];
    try (right; left; left; intros d'; discriminate).
  rewrite bad_room_hash_obj, create_raises_obj.
  destruct (json.get d (lit "room_hash") json.JNull) as [|b|x|h|l|d'] eqn:Hh;
    cbn [json.truthy json.len json.hashable].
  - auto.
  - destruct b; auto.
  - destruct (json.truthy (json.JNum x)) eqn:Ht; cbn [json.truthy] in Ht;
      rewrite ?Ht; auto.
  - destruct (Nat.eq_dec (length h) 16%nat) as [Hl|Hl].
    + right. right. eauto.
    + left. right. eauto.
  - destruct (Nat.eq_dec (length l) 16%nat) as [Hl|Hl].
    + right. left. split; [destruct l; [discriminate|reflexivity]|].
      right. rewrite Hl. auto.
    + left. right. eauto.
  - destruct (Nat.eq_dec (length (remove_dups d'.*1)) 16%nat) as [Hl|Hl].
    + right. left. split; [destruct d'; [discriminate|reflexivity]|].
      right. rewrite Hl. auto.
    + left. right. eauto.
Qed.

(** C4, amended. A POST /room request is answered 429 exactly when the rate
    limiter denies it. Otherwise it is answered 400 exactly when the body
    is not JSON, or is an object whose [room_hash] is absent or falsy or is
    a string, list or dict whose length is not 16; it ends in an exception
    (500) exactly when the body is JSON but not an object, or its
    [room_hash] is [true], a non-zero number, or a list or dict of 16
    entries; and it is answered 200 or 409 exactly when [room_hash] is a
    string of 16 characters, whatever they are. The supplied [mode] is
    never read: the outcome depends on the body's [room_hash] only, and a
    request answered 200 has created a room of mode "fixed" under that
    string. *)
Theorem C4_create_room_validation (s : state) (ip : list Z)
    (data : option json.value) (checked now : Q) (uuid : list Z) :
  let resp := fst (handle_create_room s ip data checked now uuid) in
  let allowed := fst (fst (RateLimiter.check (rate_limiter s) ip checked)) in
  (status resp = 429 <-> allowed = false)
  /\ (status resp = 400 <->
      allowed = true
      /\ (data = None \/ exists v, data = Some v /\ bad_room_hash v))
  /\ (status resp = 500 <->
      allowed = true /\ exists v, data = Some v /\ create_raises v)
  /\ (status resp = 200 \/ status resp = 409 <->
      allowed = true
      /\ exists d h, data = Some (json.JObj d)
           /\ json.get d (lit "room_hash") json.JNull = json.JStr h
           /\ length h = 16%nat)
  /\ (forall d d',
        data = Some (json.JObj d) ->
        json.get d' (lit "room_hash") json.JNull
        = json.get d (lit "room_hash") json.JNull ->
        handle_create_room s ip (Some (json.JObj d')) checked now uuid
        = handle_create_room s ip data checked now uuid)
  /\ (status resp = 200 ->
      exists d h room,
        data = Some (json.JObj d)
        /\ json.get d (lit "room_hash") json.JNull = json.JStr h
        /\ length h = 16%nat
        /\ rooms (snd (handle_create_room s ip data checked now uuid)) !! h
           = Some room
        /\ relay.room_hash room = h /\ relay.mode room = lit "fixed"
        /\ relay.created_at room = now /\ relay.messages room = []).
Proof.
  cbv zeta.
  destruct (fst (fst (RateLimiter.check (rate_limiter s) ip checked)))
    eqn:Hallowed.
  2:{ assert (H429 : status (fst (handle_create_room s ip data checked now uuid))
                     = 429).
      { unfold handle_create_room.
        destruct (RateLimiter.check (rate_limiter s) ip checked)
          as [[allowed retry] limiter].
        cbn [fst] in Hallowed. subst allowed. reflexivity. }
      rewrite H429.
      split; [tauto|]. split; [split; [discriminate|intros [? _]; discriminate]|].
      split; [split; [discriminate|intros [? _]; discriminate]|].
      split; [split; [intros [?|?]; discriminate|intros [? _]; discriminate]|].
      split; [|discriminate].
      intros d d' -> _. unfold handle_create_room.
      destruct (RateLimiter.check (rate_limiter s) ip checked)
        as [[allowed retry] limiter].
      cbn [fst] in Hallowed. subst allowed. reflexivity. }
  destruct (create_room_allowed s ip data checked now uuid Hallowed)
    as (Hnone&Hbad&Hraise&Hvalid).
  assert (Hcases : data = None
                   \/ (exists v, data = Some v /\ bad_room_hash v)
                   \/ (exists v, data = Some v /\ create_raises v)
                   \/ (exists d h, data = Some (json.JObj d)
                         /\ json.get d (lit "room_hash") json.JNull = json.JStr h
                         /\ length h = 16%nat)).
  { destruct data as [v|]; [|auto].
    destruct (create_body_classes v) as [H|[H|(d&h&->&H)]]; eauto 8. }
  assert (H400 : data = None \/ (exists v, data = Some v /\ bad_room_hash v) ->
                 status (fst (handle_create_room s ip data checked now uuid)) = 400).
  { intros [H|(v&H1&H2)]; eauto. }
  assert (H500 : (exists v, data = Some v /\ create_raises v) ->
                 status (fst (handle_create_room s ip data checked now uuid)) = 500).
  { intros (v&H1&H2); eauto. }
  assert (H200 : (exists d h, data = Some (json.JObj d)
                    /\ json.get d (lit "room_hash") json.JNull = json.JStr h
                    /\ length h = 16%nat) ->
                 status (fst (handle_create_room s ip data checked now uuid)) = 200
                 \/ status (fst (handle_create_room s ip data checked now uuid)) = 409).
  { intros (d&h&H1&H2&H3); eauto. }
  split; [|split; [|split; [|split; [|split]]]].
  - split; [|discriminate]. intros H.
    destruct Hcases as [Hc|[Hc|[Hc|Hc]]];
      [rewrite H400 in H by auto|rewrite H400 in H by auto
      |rewrite H500 in H by auto|destruct (H200 Hc) as [E|E]; rewrite E in H];
      discriminate.
  - split; [|intros [_ H]; auto]. intros H. split; [reflexivity|].
    destruct Hcases as [Hc|[Hc|[Hc|Hc]]]; [auto|auto| |].
    + rewrite H500 in H by auto. discriminate.
    + destruct (H200 Hc) as [E|E]; rewrite E in H; discriminate.
  - split; [|intros [_ H]; auto]. intros H. split; [reflexivity|].
    destruct Hcases as [Hc|[Hc|[Hc|Hc]]]; [| |auto|].
    + rewrite H400 in H by auto. discriminate.
    + rewrite H400 in H by auto. discriminate.
    + destruct (H200 Hc) as [E|E]; rewrite E in H; discriminate.
  - split; [|intros [_ H]; auto]. intros H. split; [reflexivity|].
    destruct Hcases as [Hc|[Hc|[Hc|Hc]]]; [| | |auto].
    + rewrite H400 in H by auto. destruct H; discriminate.
    + rewrite H400 in H by auto. destruct H; discriminate.
    + rewrite H500 in H by auto. destruct H; discriminate.
  - intros d d' -> Hsame. unfold handle_create_room. rewrite Hsame. reflexivity.
  - intros H.
    destruct Hcases as [Hc|[Hc|[Hc|(d&h&->&Hh&Hlen)]]];
      [rewrite H400 in H by auto; discriminate
      |rewrite H400 in H by auto; discriminate
      |rewrite H500 in H by auto; discriminate|].
    exists d, h. revert H. unfold handle_create_room.
    destruct (RateLimiter.check (rate_limiter s) ip checked)
      as [[allowed retry] limiter].
    cbn [fst] in Hallowed. subst allowed. cbn [negb]. rewrite Hh.
    cbn [json.truthy json.len].
    destruct h as [|c h]; [discriminate|]. cbn [truthy_str negb].
    rewrite Hlen. cbn [Nat.eqb negb].
    rewrite bool_decide_eq_true_2 by (apply list_elem_of_singleton; reflexivity).
    cbn [negb]. destruct (_get_room _ _ _) as [[r|] s1];
      cbn [fst snd status json_response]; [discriminate|].
    intros _. eexists. split; [reflexivity|]. split; [reflexivity|].
    split; [reflexivity|]. unfold _save_room. cbn [rooms relay.room_hash].
    split; [apply lookup_insert_eq|]. repeat split.
Qed.

(** [l[-n:]] and the trimming of the log. *)
Lemma last_n_length {A} (n : nat) (l : list A) :
  length (last_n n l) = Nat.min n (length l).
Proof. unfold last_n. rewrite length_drop. lia. Qed.

Lemma last_n_all {A} (n : nat) (l : list A) :
  (length l <= n)%nat -> last_n n l = l.
Proof. intros H. unfold last_n. now replace (length l - n)%nat with 0%nat by lia. Qed.

Lemma last_n_app {A} (n : nat) (l k : list A) :
  last_n n (last_n n l ++ k) = last_n n (l ++ k).
Proof.
  destruct (Nat.le_gt_cases (length l) n) as [H|H].
  { now rewrite (last_n_all n l). }
  assert (Hlen : length (last_n n l) = n) by (rewrite last_n_length; lia).
  unfold last_n at 1 3. rewrite !length_app, Hlen.
  replace (n + length k - n)%nat with (length k) by lia.
  replace (length l + length k - n)%nat with ((length l - n) + length k)%nat by lia.
  rewrite <- drop_drop, (drop_app_le l) by lia. reflexivity.
Qed.

Lemma last_n_app_long {A} (n : nat) (l k : list A) :
  (n <= length k)%nat -> last_n n (l ++ k) = last_n n k.
Proof.
  intros H. unfold last_n. rewrite length_app.
  replace (length l + length k - n)%nat with (length l + (length k - n))%nat by lia.
  now rewrite drop_app_add.
Qed.

Lemma trim_is_last_n {A} (l : list A) :
  (if (MAX_MESSAGES <? length l)%nat then last_n MAX_MESSAGES l else l)
  = last_n MAX_MESSAGES l.
Proof.
  destruct (Nat.ltb_spec MAX_MESSAGES (length l)); [reflexivity|].
  now rewrite last_n_all.
Qed.

Lemma get_room_live (s : state) (h : list Z) (now : Q) (room : RoomData) :
  rooms s !! h = Some room -> (now < expires_at room)%Q ->
  _get_room s h now = (Some room, s).
Proof.
  intros Hl Hlive. unfold _get_room. rewrite Hl.
  apply Qlt_bool_iff in Hlive. now rewrite Hlive.
Qed.

Lemma get_room_cases (s : state) (h : list Z) (now : Q) :
  (exists room, rooms s !! h = Some room /\ (now < expires_at room)%Q
                /\ _get_room s h now = (Some room, s))
  \/ (exists s', _get_room s h now = (None, s')
                 /\ rate_limiter s' = rate_limiter s
                 /\ (rooms s' = rooms s \/ rooms s' = delete h (rooms s))).
Proof.
  unfold _get_room. destruct (rooms s !! h) as [room|] eqn:Hl.
  - destruct (Qlt_bool now (expires_at room)) eqn:Hlive.
    + left. exists room. apply Qlt_bool_iff in Hlive. auto.
    + right. eexists. split; [reflexivity|]. cbn. auto.
  - right. eexists. split; [reflexivity|]. auto.
Qed.

(** The sender [handle_send_message] resolves is the one [message_of]
    names, unless the [in] raises. *)
Lemma resolve_sender_spec (roster : pydict.t json.value)
    (d : list (list Z * json.value)) (now stamp : Q) (uuid : list Z) :
  let member_id := json.get d (lit "member_id") json.JNull in
  let given := json.get d (lit "sender") (json.JStr (lit "anon")) in
  (resolve_sender roster member_id given = None <->
   json.truthy member_id = true /\ json.hashable member_id = false)
  /\ (forall x, resolve_sender roster member_id given = Some x ->
        x = sender (message_of roster (Some (json.JObj d), now, stamp, uuid))).
Proof.
  cbv zeta. unfold resolve_sender, message_of. cbn [sender].
  destruct (json.get d (lit "member_id") json.JNull) as [|b|x|k|l|d'];
    cbn [json.truthy json.hashable].
  - split; [split; [discriminate|intros [? _]; discriminate]|].
    now intros x [= <-].
  - split; [split; [destruct b; discriminate|intros [_ ?]; discriminate]|].
    destruct b; now intros x [= <-].
  - split.
    + split; [|intros [_ ?]; discriminate].
      destruct x as [q| |neg]; [destruct (truthy_num q)| |]; discriminate.
    + destruct x as [q| |neg]; [destruct (truthy_num q)| |]; now intros y [= <-].
  - split; [split; [destruct (truthy_str k); discriminate
                   |intros [_ ?]; discriminate]|].
    destruct (truthy_str k); now intros x [= <-].
  - destruct l; [|split; [tauto|discriminate]].
    split; [split; [discriminate|intros [? _]; discriminate]|].
    now intros x [= <-].
  - destruct d'; [|split; [tauto|discriminate]].
    split; [split; [discriminate|intros [? _]; discriminate]|].
    now intros x [= <-].
Qed.

(** What a send does to a registry that holds the room: it is answered 200
    exactly when the request is acceptable, and then the message is
    appended and the log trimmed. *)
Lemma send_acceptable (s : state) (h : list Z) (room : RoomData)
    (req : send_request) :
  rooms s !! h = Some room ->
  acceptable room req ->
  handle_send_message s h req.1.1.1 req.1.1.2 req.1.2 req.2 =
    (sent_ok req,
     _save_room s
       {| room_hash := room_hash room; mode := mode room;
          created_at := created_at room; expires_at := expires_at room;
          members := members room;
          messages := last_n MAX_MESSAGES
                        (messages room ++ [message_of (members room) req]) |}).
Proof.
  destruct req as [[[data now] stamp] uuid]. unfold acceptable.
  cbn [fst snd]. intros Hl (Hlive&d&->&Hc&Hm).
  unfold handle_send_message. rewrite (get_room_live _ _ _ _ Hl Hlive).
  rewrite Hc. cbn [negb].
  destruct (resolve_sender_spec (members room) d now stamp uuid) as [Hnone Hsome].
  destruct (resolve_sender _ _ _) as [x|] eqn:Hr.
  2:{ destruct (proj1 Hnone eq_refl) as [Ht Hh]. rewrite (Hm Ht) in Hh.
      discriminate. }
  rewrite trim_is_last_n. rewrite (Hsome x eq_refl). reflexivity.
Qed.

Lemma send_accepted (s : state) (h : list Z) (room : RoomData)
    (req : send_request) :
  rooms s !! h = Some room ->
  status (fst (handle_send_message s h req.1.1.1 req.1.1.2 req.1.2 req.2)) = 200
  <-> acceptable room req.
Proof.
  intros Hl. split; [|intros H; now rewrite (send_acceptable _ _ _ _ Hl H)].
  destruct req as [[[data now] stamp] uuid]. unfold acceptable.
  cbn [fst snd]. unfold handle_send_message.
  destruct (get_room_cases s h now) as [(room'&Hl'&Hlive&->)|(s'&->&_)].
  2:{ cbn. discriminate. }
  assert (room' = room) as -> by congruence.
  destruct data as [[|b|x|str|l|d]|]; try (cbn; discriminate).
  destruct (json.truthy (json.get d (lit "content") json.JNull)) eqn:Hc;
    cbn [negb]; [|cbn; discriminate].
  destruct (resolve_sender_spec (members room) d now stamp uuid) as [Hnone _].
  destruct (resolve_sender _ _ _) as [x|] eqn:Hr; [|cbn; discriminate].
  intros _. split; [assumption|]. exists d. split; [reflexivity|].
  split; [exact Hc|]. intros Ht.
  destruct (json.hashable _) eqn:Hh; [reflexivity|].
  destruct Hnone as [_ Hnone]. discriminate Hnone. auto.
Qed.

Lemma send_all_log (s : state) (h : list Z) (room : RoomData)
    (reqs : list send_request) :
  rooms s !! h = Some room -> room_hash room = h ->
  Forall (acceptable room) reqs ->
  fst (send_all s h reqs) = map sent_ok reqs
  /\ exists room',
       rooms (snd (send_all s h reqs)) !! h = Some room'
       /\ members room' = members room
       /\ expires_at room' = expires_at room
       /\ last_n MAX_MESSAGES (messages room') =
          last_n MAX_MESSAGES (messages room ++ map (message_of (members room)) reqs)
       /\ (reqs <> [] -> (length (messages room') <= MAX_MESSAGES)%nat).
Proof.
  revert s room. induction reqs as [|req rest IH]; intros s room Hl Hh Hok.
  - split; [reflexivity|]. exists room. cbn [send_all snd map]. rewrite app_nil_r.
    split; [assumption|]. split; [reflexivity|]. split; [reflexivity|].
    split; [reflexivity|]. intros H. destruct (H eq_refl).
  - apply Forall_cons in Hok as [Hr Hrs].
    pose proof (send_acceptable s h room req Hl Hr) as Hstep.
    destruct req as [[[data now] stamp] uuid]. cbn [fst snd] in Hstep.
    cbn [send_all]. rewrite Hstep.
    set (room1 := {| room_hash := _ |}) in *.
    specialize (IH (_save_room s room1) room1).
    assert (Hl1 : rooms (_save_room s room1) !! h = Some room1).
    { unfold _save_room. cbn [rooms room_hash room1]. rewrite Hh. apply lookup_insert_eq. }
    destruct (IH Hl1 Hh Hrs) as (Hresp&room'&Hl'&Hm&He&Hlog&Hlen).
    destruct (send_all (_save_room s room1) h rest) as [rs s2] eqn:Hrest.
    cbn [fst snd] in *. split; [now rewrite Hresp|].
    exists room'. split; [assumption|]. split; [assumption|].
    split; [assumption|]. split.
    + rewrite Hlog. subst room1. cbn [messages members map].
      rewrite last_n_app, <- app_assoc. reflexivity.
    + intros _. destruct rest as [|req rest'].
      * cbn in Hrest. injection Hrest as _ <-.
        rewrite Hl1 in Hl'. injection Hl' as <-.
        subst room1. cbn [messages]. rewrite last_n_length. lia.
      * apply Hlen. discriminate.
Qed.

(** Every reachable registry keeps its rooms under their own hash, with at
    most [MAX_MESSAGES] messages, all stamped after the epoch. *)
Lemma registry_ok_init : registry_ok init.
Proof. apply map_Forall_empty. Qed.

Lemma registry_ok_rooms (s s' : state) :
  rooms s' = rooms s \/ (exists h, rooms s' = delete h (rooms s)) ->
  registry_ok s -> registry_ok s'.
Proof.
  unfold registry_ok. intros [->|[h ->]] H; [assumption|].
  now apply map_Forall_delete.
Qed.

Lemma registry_ok_get_room (s : state) (h : list Z) (now : Q) :
  registry_ok s -> registry_ok (snd (_get_room s h now)).
Proof.
  intros H. destruct (get_room_cases s h now) as [(room&_&_&->)|(s'&->&_&[E|E])];
    cbn [snd]; [assumption| |]; eapply registry_ok_rooms; eauto.
Qed.

Lemma registry_ok_save (s : state) (room : RoomData) :
  registry_ok s -> room_ok (room_hash room) room -> registry_ok (_save_room s room).
Proof. intros H Hr. unfold registry_ok, _save_room. cbn [rooms]. now apply map_Forall_insert_2. Qed.

Lemma registry_ok_limiter (s : state) (l : gmap (list Z) Attempt) :
  registry_ok s -> registry_ok {| rooms := rooms s; rate_limiter := l |}.
Proof. exact (fun H => H). Qed.

Lemma get_room_ok (s s' : state) (h : list Z) (now : Q) (room : RoomData) :
  registry_ok s -> _get_room s h now = (Some room, s') -> s' = s /\ room_ok h room.
Proof.
  intros H. destruct (get_room_cases s h now) as [(room'&Hl&_&->)|(s1&->&_)];
    [|discriminate].
  intros [= <- <-]. split; [reflexivity|]. exact (H _ _ Hl).
Qed.

Lemma step_ok (s s' : state) : registry_ok s -> step s s' -> registry_ok s'.
Proof.
  intros H [ip data checked now uuid Hchecked Hnow | ip h data now uuid Hnow
           | h data now stamp uuid Hnow Hstamp
           | h since now Hnow | h member_id now Hnow | now Hnow].
  - unfold handle_create_room.
    destruct (RateLimiter.check _ _ _) as [[allowed retry] limiter].
    destruct allowed; cbn [negb snd]; [|assumption].
    destruct data as [[|b|x|str|l|d]|]; try assumption.
    destruct (negb (json.truthy _)); [assumption|].
    destruct (json.len _) as [n|]; [|assumption].
    destruct (negb (n =? 16)%nat); [assumption|].
    destruct (negb (bool_decide _)); [assumption|].
    destruct (json.get d _ _) as [|b|x|rh|l|d']; try assumption.
    pose proof (registry_ok_get_room {| rooms := rooms s; rate_limiter := limiter |}
                  rh now H) as H1.
    destruct (_get_room _ _ _) as [[r|] s1]; cbn [snd] in *; [assumption|].
    apply registry_ok_save; [assumption|].
    split; [reflexivity|]. split; [cbn; lia|constructor].
  - unfold handle_join_room.
    pose proof (registry_ok_get_room s h now H) as H1.
    destruct (_get_room s h now) as [[room|] s1] eqn:Hg; cbn [snd] in *; [|assumption].
    apply (get_room_ok _ _ _ _ _ H) in Hg as [-> (Hh&Hlen&Hpos)].
    destruct (default _ data) as [|b|x|str|l|d]; try assumption.
    destruct (json.slice_to _ _) as [nickname|]; [|assumption].
    apply registry_ok_limiter, registry_ok_save; [assumption|].
    split; [reflexivity|]. split; assumption.
  - unfold handle_send_message.
    pose proof (registry_ok_get_room s h now H) as H1.
    destruct (_get_room s h now) as [[room|] s1] eqn:Hg; cbn [snd] in *; [|assumption].
    apply (get_room_ok _ _ _ _ _ H) in Hg as [-> (Hh&Hlen&Hpos)].
    destruct data as [[|b|x|str|l|d]|]; try assumption.
    destruct (negb _); [assumption|].
    destruct (resolve_sender _ _ _) as [sender|]; [|assumption]. cbn [snd].
    apply registry_ok_save; [assumption|].
    split; [reflexivity|]. cbn [messages]. rewrite trim_is_last_n. split.
    + rewrite last_n_length. lia.
    + unfold last_n. apply Forall_drop, Forall_app. split; [assumption|].
      constructor; [exact Hstamp|constructor].
  - unfold handle_poll.
    pose proof (registry_ok_get_room s h now H) as H1.
    destruct (_get_room s h now) as [[room|] s1]; cbn [snd] in *; assumption.
  - unfold handle_leave.
    pose proof (registry_ok_get_room s h now H) as H1.
    destruct (_get_room s h now) as [[room|] s1] eqn:Hg; cbn [snd] in *; [|assumption].
    apply (get_room_ok _ _ _ _ _ H) in Hg as [-> (Hh&Hlen&Hpos)].
    destruct (_ && _); [|assumption].
    apply registry_ok_save; [assumption|].
    split; [reflexivity|]. split; assumption.
  - unfold registry_ok, _cleanup_loop. cbn [rooms].
    intros h r [Hl _]%map_lookup_filter_Some. exact (H _ _ Hl).
Qed.

Lemma reachable_ok (s : state) : reachable s -> registry_ok s.
Proof.
  induction 1 as [|s s' _ IH Hstep]; [apply registry_ok_init|].
  exact (step_ok _ _ IH Hstep).
Qed.

(** The log after a run of acceptable sends to a room of a well-formed
    registry. *)
Lemma send_all_bounded (s : state) (h : list Z) (room : RoomData)
    (reqs : list send_request) :
  registry_ok s ->
  rooms s !! h = Some room ->
  Forall (acceptable room) reqs ->
  fst (send_all s h reqs) = map sent_ok reqs
  /\ exists room',
       rooms (snd (send_all s h reqs)) !! h = Some room'
       /\ (length (messages room') <= 500)%nat
       /\ messages room' =
          last_n 500 (messages room ++ map (message_of (members room)) reqs).
Proof.
  intros Hreg Hl Hok. destruct (Hreg _ _ Hl) as (Hh&Hlen&_).
  destruct (send_all_log s h room reqs Hl Hh Hok)
    as (Hresp&room'&Hl'&_&_&Hlog&Hlen').
  change MAX_MESSAGES with 500%nat in *.
  assert (Hle : (length (messages room') <= 500)%nat).
  { destruct reqs as [|req reqs']; [|apply Hlen'; discriminate].
    cbn in Hl'. rewrite Hl in Hl'. now injection Hl' as <-. }
  rewrite (last_n_all 500 (messages room')) in Hlog by assumption.
  split; [assumption|]. exists room'. auto.
Qed.

(** C6. For every room of a reachable registry and every sequence of sends
    to it that the relay accepts (each arrives while the room is live, with
    an object for a body whose [content] is truthy and whose [member_id]
    is not a non-empty list or dict): every send is answered 200 with the
    id and timestamp of its message; after each send the log has at most
    500 messages and is the last 500 of the old log followed by the
    messages sent so far, in send order; after more than 500 sends it is
    exactly the 500 most recent of them. *)
Theorem C6_bounded_message_log (s : state) (h : list Z) (room : RoomData)
    (reqs : list send_request) :
  reachable s ->
  rooms s !! h = Some room ->
  Forall (acceptable room) reqs ->
  let sent := map (message_of (members room)) reqs in
  fst (send_all s h reqs) = map sent_ok reqs
  /\ (forall n, exists room_n,
        rooms (snd (send_all s h (take n reqs))) !! h = Some room_n
        /\ (length (messages room_n) <= 500)%nat
        /\ messages room_n = last_n 500 (messages room ++ take n sent))
  /\ exists room',
       rooms (snd (send_all s h reqs)) !! h = Some room'
       /\ (length (messages room') <= 500)%nat
       /\ messages room' = last_n 500 (messages room ++ sent)
       /\ ((500 < length reqs)%nat ->
           length (messages room') = 500%nat
           /\ messages room' = drop (length reqs - 500) sent).
Proof.
  intros Hreach Hl Hok sent. pose proof (reachable_ok _ Hreach) as Hreg.
  destruct (send_all_bounded s h room reqs Hreg Hl Hok)
    as (Hresp&room'&Hl'&Hle&Hlog).
  split; [assumption|]. split.
  - intros n.
    destruct (send_all_bounded s h room (take n reqs) Hreg Hl)
      as (_&room_n&Hn&Hlen&Hlogn); [now apply Forall_take|].
    exists room_n. split; [assumption|]. split; [assumption|].
    subst sent. rewrite firstn_map. exact Hlogn.
  - exists room'. split; [assumption|]. split; [assumption|].
    split; [assumption|].
    intros HN. assert (Hs : length sent = length reqs) by apply length_map.
    fold sent in Hlog. rewrite Hlog, last_n_app_long by lia. split.
    + rewrite last_n_length. lia.
    + unfold last_n. now rewrite Hs.
Qed.

Lemma one_room_reachable : reachable one_room.
Proof.
  eapply reachable_step; [apply reachable_init|].
  apply step_create; reflexivity.
Qed.

Lemma sends_acceptable (n : nat) :
  (n <= 3500)%nat -> Forall (acceptable the_room) (sends n).
Proof.
  intros Hn. unfold sends. apply Forall_map, List.Forall_forall.
  intros i Hi%in_seq. unfold acceptable. cbn [fst snd].
  split.
  - unfold the_room, expires_at, ROOM_TTL, Qlt, Qplus, inject_Z.
    cbn [Qnum Qden]. lia.
  - eexists. split; [reflexivity|]. split; [reflexivity|].
    intros _. reflexivity.
Qed.

Lemma send_all_reachable (h : list Z) (reqs : list send_request) (s : state) :
  reachable s ->
  Forall (fun q => (0 < q.1.1.2)%Q /\ (0 < q.1.2)%Q) reqs ->
  reachable (snd (send_all s h reqs)).
Proof.
  revert s. induction reqs as [|[[[d t] t'] u] reqs IH]; intros s Hs Hq;
    [exact Hs|].
  apply Forall_cons in Hq as [[Ht Ht'] Hq]. cbn [send_all].
  pose proof (step_send s h d t t' u Ht Ht') as Hst.
  destruct (handle_send_message s h d t t' u) as [r s1].
  specialize (IH s1). destruct (send_all s1 h reqs) as [rs s2].
  apply IH; [|exact Hq]. eapply reachable_step; [exact Hs|exact Hst].
Qed.

(** C6 at 501 sends into a room just created: the first message has been
    discarded. *)
Lemma C6_witness :
  let sent := map (message_of (members the_room)) (sends 501) in
  fst (send_all one_room a_room_hash (sends 501)) = map sent_ok (sends 501)
  /\ (forall n, exists room_n,
        rooms (snd (send_all one_room a_room_hash (take n (sends 501))))
          !! a_room_hash = Some room_n
        /\ (length (messages room_n) <= 500)%nat
        /\ messages room_n = last_n 500 (messages the_room ++ take n sent))
  /\ exists room',
       rooms (snd (send_all one_room a_room_hash (sends 501))) !! a_room_hash
       = Some room'
       /\ (length (messages room') <= 500)%nat
       /\ messages room' = last_n 500 (messages the_room ++ sent)
       /\ ((500 < length (sends 501))%nat ->
           length (messages room') = 500%nat
           /\ messages room' = drop (length (sends 501) - 500) sent).
Proof.
  apply (C6_bounded_message_log one_room a_room_hash the_room (sends 501)).
  - exact one_room_reachable.
  - vm_compute. reflexivity.
  - apply sends_acceptable. lia.
Defined.

Example overflow_501 :
  (fun r => (length (messages r), timestamp <$> head (messages r),
             timestamp <$> last (messages r)))
    <$> rooms (snd (send_all one_room a_room_hash (sends 501))) !! a_room_hash
  = Some (500%nat, Some (inject_Z 1700000002), Some (inject_Z 1700000501)).
Proof. vm_compute. reflexivity. Qed.

(** C7. For every room of a reachable registry that has not expired and
    every threshold [T], a poll with [since = T] answers 200 with exactly
    the stored messages whose timestamp is greater than [T], in append
    order, the current member list, [expires_at] and the message count, and
    leaves the registry as it was; with [since = 0] the messages are the
    whole log, and an absent [since] is read as 0. *)
Theorem C7_poll_since (s : state) (h : list Z) (room : RoomData) (now T : Q) :
  reachable s ->
  rooms s !! h = Some room ->
  (now < expires_at room)%Q ->
  exists polled,
    handle_poll s h (Some T) now =
      (json_response
         (Polled polled (pydict.values (members room)) (expires_at room)
            (length (messages room))) 200, s)
    /\ (forall m, In m polled <-> In m (messages room) /\ (T < timestamp m)%Q)
    /\ sublist polled (messages room)
    /\ handle_poll s h (Some (0 # 1)%Q) now =
         (json_response
            (Polled (messages room) (pydict.values (members room))
               (expires_at room) (length (messages room))) 200, s)
    /\ handle_poll s h None now = handle_poll s h (Some (0 # 1)%Q) now.
Proof.
  intros Hreach Hl Hlive.
  destruct (reachable_ok _ Hreach _ _ Hl) as (_&_&Hpos).
  unfold handle_poll. rewrite (get_room_live _ _ _ _ Hl Hlive).
  cbn [default from_option Datatypes.id].
  eexists. split; [reflexivity|]. split; [|split; [|split; [|reflexivity]]].
  - intros m. rewrite <- !list_elem_of_In, list_elem_of_filter, Qlt_bool_iff. tauto.
  - apply sublist_filter.
  - do 3 f_equal. clear Hl. induction (messages room) as [|m l IH]; [reflexivity|].
    apply Forall_cons in Hpos as [Hm Hpos].
    rewrite filter_cons_True by (now apply Qlt_bool_iff). f_equal. now apply IH.
Qed.

(** C7 at a poll, nine seconds after the third send, of a room that holds
    three messages. *)
Lemma C7_witness :
  exists polled,
    handle_poll (snd (send_all one_room a_room_hash (sends 3))) a_room_hash
        (Some (1700000001 # 1)%Q) (1700000010 # 1) =
      (json_response
         (Polled polled
            (pydict.values (members the_room))
            (expires_at the_room)
            (length (map (message_of (members the_room)) (sends 3)))) 200,
       snd (send_all one_room a_room_hash (sends 3)))
    /\ (forall m, In m polled <->
          In m (map (message_of (members the_room)) (sends 3))
          /\ (1700000001 # 1 < timestamp m)%Q)
    /\ sublist polled (map (message_of (members the_room)) (sends 3))
    /\ handle_poll (snd (send_all one_room a_room_hash (sends 3))) a_room_hash
         (Some (0 # 1)%Q) (1700000010 # 1) =
         (json_response
            (Polled (map (message_of (members the_room)) (sends 3))
               (pydict.values (members the_room))
               (expires_at the_room)
               (length (map (message_of (members the_room)) (sends 3)))) 200,
          snd (send_all one_room a_room_hash (sends 3)))
    /\ handle_poll (snd (send_all one_room a_room_hash (sends 3))) a_room_hash
         None (1700000010 # 1)
       = handle_poll (snd (send_all one_room a_room_hash (sends 3))) a_room_hash
           (Some (0 # 1)%Q) (1700000010 # 1).
Proof.
  apply (C7_poll_since (snd (send_all one_room a_room_hash (sends 3))) a_room_hash
           {| room_hash := a_room_hash; mode := lit "fixed";
              created_at := 1700000000 # 1;
              expires_at := (1700000000 # 1) + ROOM_TTL;
              members := [(take 8 a_uuid, json.JStr (lit "creator"))];
              messages := map (message_of (members the_room)) (sends 3) |}
           (1700000010 # 1) (1700000001 # 1)).
  - assert (Hsteps : forall reqs s, reachable s ->
              Forall (fun q => (0 < q.1.1.2)%Q /\ (0 < q.1.2)%Q) reqs ->
              reachable (snd (send_all s a_room_hash reqs))).
    { induction reqs as [|[[[d t] t'] u] reqs IH]; intros s Hs Hq; [exact Hs|].
      apply Forall_cons in Hq as [[Ht Ht'] Hq]. cbn [send_all].
      pose proof (step_send s a_room_hash d t t' u Ht Ht') as Hst.
      destruct (handle_send_message s a_room_hash d t t' u) as [r s1].
      specialize (IH s1). destruct (send_all s1 a_room_hash reqs) as [rs s2].
      apply IH; [|exact Hq]. eapply reachable_step; [exact Hs|exact Hst]. }
    apply Hsteps; [exact one_room_reachable|].
    repeat constructor.
  - vm_compute. reflexivity.
  - reflexivity.
Defined.

End relay_facts.

(** ** Client transport *)

Module transport_facts.
Import transport session.

(** [_set_state] sets the state and nothing of the session. *)
Lemma set_state_spec (t : SOSTransport) (s : ConnectionState) :
  state (fst (_set_state t s)) = s /\ same_session t (fst (_set_state t s))
  /\ client (fst (_set_state t s)) = client t.
Proof.
  unfold _set_state, same_session.
  destruct (state t) eqn:E, s; cbn; rewrite ?E; auto.
Qed.

Lemma connect_session (t : SOSTransport) (made : option client_kind) :
  same_session t (snd (fst (connect t made))).
Proof.
  unfold connect.
  pose proof (set_state_spec t CONNECTING) as (_&H1&_).
  destruct (_set_state t CONNECTING) as [t1 e1]. cbn [fst] in H1.
  destruct made as [c|].
  - pose proof (set_state_spec (with_client t1 (Some c) (_backoff t1)) CONNECTED)
      as (_&H2&_).
    destruct (_set_state _ CONNECTED) as [t2 e2]. cbn [fst snd] in *.
    unfold same_session in *. cbn in *. intuition congruence.
  - pose proof (set_state_spec t1 ERROR) as (_&H2&_).
    destruct (_set_state t1 ERROR) as [t2 e2]. cbn [fst snd] in *.
    unfold same_session in *. intuition congruence.
Qed.

Lemma fail_request (t0 t : SOSTransport) :
  same_session t0 t ->
  reconnecting_same t0 (fst (_set_state t RECONNECTING)).
Proof.
  intros H. destruct (set_state_spec t RECONNECTING) as (Hs&Hk&_).
  split; [assumption|]. unfold same_session in *. intuition congruence.
Qed.

Lemma set_state_trace (t : SOSTransport) (s : ConnectionState) :
  Forall is_callback (snd (_set_state t s)).
Proof.
  unfold _set_state. destruct (negb _); [|constructor].
  destruct (on_state_change t); repeat constructor.
Qed.

Lemma connect_trace (t : SOSTransport) (made : option client_kind) :
  Forall is_callback (snd (connect t made)).
Proof.
  unfold connect.
  pose proof (set_state_trace t CONNECTING) as H1.
  destruct (_set_state t CONNECTING) as [t1 e1]. cbn [snd] in H1.
  destruct made as [c|].
  - pose proof (set_state_trace (with_client t1 (Some c) (_backoff t1)) CONNECTED) as H2.
    destruct (_set_state _ CONNECTED) as [t2 e2]. cbn [snd] in *.
    apply Forall_app; auto.
  - pose proof (set_state_trace t1 ERROR) as H2.
    destruct (_set_state t1 ERROR) as [t2 e2]. cbn [snd] in *.
    apply Forall_app; auto.
Qed.

Lemma no_request_in_callbacks (trace : list event) (r : request) :
  Forall is_callback trace -> ~ In (Http r) trace.
Proof.
  intros H Hin. rewrite Forall_forall in H.
  apply list_elem_of_In, H in Hin. exact Hin.
Qed.

(** Bringing the client up, as [create_room] and [join_room] do first. *)
Lemma bring_up (t : SOSTransport) (made : option client_kind) :
  let r := match client t with
           | None => connect t made
           | Some _ => (true, t, [])
           end in
  same_session t (snd (fst r)) /\ Forall is_callback (snd r).
Proof.
  destruct (client t); cbn zeta.
  - split; [repeat split|constructor].
  - split; [apply connect_session|apply connect_trace].
Qed.

(** Whether the request goes out. [create_room] and [join_room] send it
    once a client is in hand, the one the transport has or the one
    [connect] makes. *)
Lemma bring_up_ok (t : SOSTransport) (made : option client_kind) :
  client t <> None \/ made <> None ->
  exists t1 e0,
    match client t with
    | None => connect t made
    | Some _ => (true, t, [])
    end = (true, t1, e0)
    /\ same_session t t1 /\ Forall is_callback e0.
Proof.
  intros Hc. pose proof (bring_up t made) as [Hs Htr]. cbv zeta in Hs, Htr.
  destruct (client t) as [c|].
  - exists t, []. auto.
  - destruct made as [c|]; [|destruct Hc as [Hc|Hc]; destruct (Hc eq_refl)].
    revert Hs Htr. unfold connect.
    destruct (_set_state t CONNECTING) as [t1 e1].
    destruct (_set_state _ CONNECTED) as [t2 e2]. cbn [fst snd].
    intros Hs Htr. eexists _, _. eauto.
Qed.

Lemma bring_up_fails (t : SOSTransport) :
  client t = None ->
  exists t1 e0, connect t None = (false, t1, e0) /\ Forall is_callback e0.
Proof.
  intros _. pose proof (connect_trace t None) as Htr. revert Htr.
  unfold connect. destruct (_set_state t CONNECTING) as [t1 e1].
  destruct (_set_state t1 ERROR) as [t2 e2]. cbn [snd]. eauto.
Qed.

(** C8. For each of create, join, send and poll, when the request fails
    with an [httpx.RequestError]: the request has been issued, the call
    returns its failure value, the transport ends in state Reconnecting and
    its [room_hash], [member_id] and [last_message_ts] are what they were
    before the call. The request is issued by [create_room] and
    [join_room] when a client is in hand or [connect] makes one, by
    [send_message] from a connected transport in a room, by
    [poll_messages] from a transport in a room with a client; in every
    other case no request is issued at all. *)
Theorem C8_transport_error_keeps_session (t : SOSTransport) :
  (forall h mode made,
     client t <> None \/ made <> None ->
     exists t' trace,
       create_room t h mode made RequestError = (Ok None, t', trace)
       /\ In (Http (POST_room h mode)) trace
       /\ reconnecting_same t t')
  /\ (forall h nickname made,
        client t <> None \/ made <> None ->
        exists t' trace,
          join_room t h nickname made RequestError = (Ok None, t', trace)
          /\ In (Http (POST_join h nickname)) trace
          /\ reconnecting_same t t')
  /\ (forall content sender now h,
        room_hash t = Some h -> h <> [] ->
        client t <> None -> state t = CONNECTED ->
        exists t' trace,
          send_message t content sender RequestError now = (false, t', trace)
          /\ In (Http (POST_send h content sender (member_id t))) trace
          /\ reconnecting_same t t'
          /\ _pending_messages t' =
             _pending_messages t
             ++ [{| p_content := content; p_sender := sender;
                    queued_at := now |}])
  /\ (forall now h,
        room_hash t = Some h -> h <> [] -> client t <> None ->
        exists t' trace,
          poll_messages t RequestError now = (Ok [], t', trace)
          /\ In (Http (GET_poll h (last_message_ts t) (member_id t))) trace
          /\ reconnecting_same t t'
          /\ _pending_messages t' = _pending_messages t)
  /\ (forall h mode nickname,
        client t = None ->
        Forall is_callback (snd (create_room t h mode None RequestError))
        /\ Forall is_callback (snd (join_room t h nickname None RequestError)))
  /\ (forall content sender now,
        truthy_opt_str (room_hash t) = false \/ client t = None
        \/ state t <> CONNECTED ->
        snd (send_message t content sender RequestError now) = [])
  /\ (forall now,
        truthy_opt_str (room_hash t) = false \/ client t = None ->
        poll_messages t RequestError now = (Ok [], t, [])).
Proof.
  split; [|split; [|split; [|split; [|split; [|split]]]]].
  - intros h mode made Hc. unfold create_room.
    destruct (bring_up_ok t made Hc) as (t1&e0&->&Hs&_). cbn [negb].
    pose proof (fail_request t t1 Hs) as Hf.
    destruct (_set_state t1 RECONNECTING) as [t2 e2]. cbn [fst] in Hf.
    eexists _, _. split; [reflexivity|]. split; [|exact Hf].
    apply in_or_app. left. apply in_or_app. right. left. reflexivity.
  - intros h nickname made Hc. unfold join_room.
    destruct (bring_up_ok t made Hc) as (t1&e0&->&Hs&_). cbn [negb].
    pose proof (fail_request t t1 Hs) as Hf.
    destruct (_set_state t1 RECONNECTING) as [t2 e2]. cbn [fst] in Hf.
    eexists _, _. split; [reflexivity|]. split; [|exact Hf].
    apply in_or_app. left. apply in_or_app. right. left. reflexivity.
  - intros content sender now h Hh Hne Hc Hst. unfold send_message.
    rewrite Hh, Hst. destruct h as [|c0 h]; [congruence|].
    destruct (client t) as [c|] eqn:Ec; [|congruence].
    rewrite bool_decide_eq_true_2 by eauto.
    cbn [truthy_opt_str truthy_str negb orb state_eqb default from_option
         Datatypes.id].
    pose proof (fail_request t (enqueue t content sender now)) as Hf.
    assert (Hq : _pending_messages (fst (_set_state (enqueue t content sender now)
                                           RECONNECTING))
                 = _pending_messages (enqueue t content sender now)).
    { unfold _set_state. destruct (negb _); reflexivity. }
    destruct (_set_state _ RECONNECTING) as [t2 e2]. cbn [fst] in Hf, Hq.
    eexists _, _. split; [reflexivity|]. split; [left; reflexivity|].
    split; [apply Hf; repeat split|]. rewrite Hq. reflexivity.
  - intros now h Hh Hne Hc. unfold poll_messages.
    rewrite Hh. destruct h as [|c0 h]; [congruence|].
    destruct (client t) as [c|] eqn:Ec; [|congruence].
    rewrite bool_decide_eq_true_2 by eauto.
    cbn [truthy_opt_str truthy_str negb orb default from_option Datatypes.id].
    pose proof (fail_request t t) as Hf.
    assert (Hq : _pending_messages (fst (_set_state t RECONNECTING))
                 = _pending_messages t).
    { unfold _set_state. destruct (negb _); reflexivity. }
    destruct (_set_state t RECONNECTING) as [t2 e2]. cbn [fst] in Hf, Hq.
    eexists _, _. split; [reflexivity|]. split; [left; reflexivity|].
    split; [apply Hf; repeat split|exact Hq].
  - intros h mode nickname Hc. unfold create_room, join_room. rewrite Hc.
    destruct (bring_up_fails t Hc) as (t1&e0&->&Htr). cbn [negb snd]. auto.
  - intros content sender now Hc. unfold send_message.
    destruct (truthy_opt_str (room_hash t)); cbn [negb]; [|reflexivity].
    destruct Hc as [Hc|[Hc|Hc]]; [discriminate| |].
    + rewrite Hc. rewrite bool_decide_eq_false_2 by (intros [? ?]; discriminate).
      reflexivity.
    + destruct (state t); try (destruct (Hc eq_refl));
        cbn [state_eqb negb]; rewrite orb_true_r; reflexivity.
  - intros now Hc. unfold poll_messages.
    destruct (truthy_opt_str (room_hash t)); cbn [negb orb]; [|reflexivity].
    destruct Hc as [Hc|Hc]; [discriminate|].
    rewrite Hc. rewrite bool_decide_eq_false_2 by (intros [? ?]; discriminate).
    reflexivity.
Qed.

(** C8 at a connected transport in a room: each of the four requests is
    issued, fails, and leaves the transport Reconnecting in the same
    session; the failed send is queued. *)
Lemma C8_witness :
  let t := more_examples.a_transport in
  let h := examples.a_room_hash in
  (exists t' trace,
     create_room t h (lit "fixed") None RequestError = (Ok None, t', trace)
     /\ In (Http (POST_room h (lit "fixed"))) trace
     /\ reconnecting_same t t')
  /\ (exists t' trace,
        join_room t h (lit "anon") None RequestError = (Ok None, t', trace)
        /\ In (Http (POST_join h (lit "anon"))) trace
        /\ reconnecting_same t t')
  /\ (exists t' trace,
        send_message t (lit "QUJD") (lit "me") RequestError (1700000004 # 1)
        = (false, t', trace)
        /\ In (Http (POST_send h (lit "QUJD") (lit "me") (member_id t))) trace
        /\ reconnecting_same t t'
        /\ _pending_messages t' =
           _pending_messages t
           ++ [{| p_content := lit "QUJD"; p_sender := lit "me";
                  queued_at := 1700000004 # 1 |}])
  /\ (exists t' trace,
        poll_messages t RequestError (1700000004 # 1) = (Ok [], t', trace)
        /\ In (Http (GET_poll h (last_message_ts t) (member_id t))) trace
        /\ reconnecting_same t t'
        /\ _pending_messages t' = _pending_messages t).
Proof.
  cbv zeta.
  destruct (C8_transport_error_keeps_session more_examples.a_transport)
    as (Hcreate&Hjoin&Hsend&Hpoll&_).
  split; [|split; [|split]].
  - apply Hcreate. left. discriminate.
  - apply Hjoin. left. discriminate.
  - apply Hsend; [reflexivity|discriminate|discriminate|reflexivity].
  - apply Hpoll; [reflexivity|discriminate|discriminate].
Defined.

(** A send from a connected transport whose request fails: the message is
    queued, the state is Reconnecting, the session is kept. *)
Example failed_send_is_queued :
  let t := {| state := CONNECTED; client := Some Direct;
              room_hash := Some (lit "a1b2c3d4e5f6a7b8");
              member_id := Some (lit "3f2b8c1e"); last_message_ts := 1700000003 # 1;
              on_message := true; on_state_change := true;
              on_members_update := true; on_room_expire := true;
              _running := true; _pending_messages := [];
              _backoff := BACKOFF_INITIAL |} in
  let '(sent, t', trace) :=
    send_message t (lit "XYZ==") (lit "me") RequestError (1700000004 # 1) in
  sent = false
  /\ state t' = RECONNECTING
  /\ room_hash t' = room_hash t /\ member_id t' = member_id t
  /\ last_message_ts t' = last_message_ts t
  /\ _pending_messages t' =
       [{| p_content := lit "XYZ=="; p_sender := lit "me";
           queued_at := 1700000004 # 1 |}]
  /\ trace = [Http (POST_send (lit "a1b2c3d4e5f6a7b8") (lit "XYZ==") (lit "me")
                      (Some (lit "3f2b8c1e")));
              StateChange RECONNECTING].
Proof. repeat apply conj; reflexivity. Qed.

End transport_facts.

(** ** SHA-256 digests *)

Module hashlib_facts.
Import hashlib shapes.

Lemma round_length (st : list Z * list Z) (k : Z) :
  length (fst (round st k)) = 8%nat.
Proof. destruct st as [v w]. reflexivity. Qed.

Lemma rounds_length (ks : list Z) (st : list Z * list Z) :
  length (fst st) = 8%nat -> length (fst (fold_left round ks st)) = 8%nat.
Proof.
  revert st. induction ks as [|k ks IH]; intros st H; [exact H|].
  cbn [fold_left]. apply IH, round_length.
Qed.

Lemma compress_length (h : list Z) (block : list Z) :
  length h = 8%nat -> length (compress h block) = 8%nat.
Proof.
  intros H. unfold compress.
  pose proof (rounds_length K256 (h, map be_word (chunks 16 4 block)) H) as Hv.
  destruct (fold_left round K256 _) as [v w]. cbn [fst] in Hv.
  rewrite length_zip_with, H, Hv. reflexivity.
Qed.

Lemma be_bytes_length (n : nat) (x : Z) : length (be_bytes n x) = n.
Proof. induction n as [|n IH]; cbn; [|rewrite IH]; reflexivity. Qed.

Lemma be_bytes_range (n : nat) (x : Z) : Forall is_byte (be_bytes n x).
Proof.
  induction n as [|n IH]; cbn; constructor; [|exact IH].
  apply Z.mod_pos_bound. lia.
Qed.

(** A fold keeps what every step keeps. *)
Lemma fold_left_keeps {A B} (P : A -> Prop) (f : A -> B -> A) :
  (forall a b, P a -> P (f a b)) ->
  forall l a, P a -> P (fold_left f l a).
Proof.
  intros Hf l. induction l as [|b l IH]; intros a Ha; [exact Ha|].
  cbn [fold_left]. apply IH, Hf, Ha.
Qed.

Lemma blocks_length (blocks : list (list Z)) (h : list Z) :
  length h = 8%nat -> length (fold_left compress blocks h) = 8%nat.
Proof.
  exact (fold_left_keeps (fun h => length h = 8%nat) compress compress_length
           blocks h).
Qed.

Lemma concat_be_bytes_length (k : nat) (ws : list Z) :
  length (concat (map (be_bytes k) ws)) = (k * length ws)%nat.
Proof.
  induction ws as [|w ws IH]; cbn [map concat length]; [lia|].
  rewrite length_app, be_bytes_length, IH. lia.
Qed.

(** A digest is 32 bytes, each in range. *)
Lemma sha256_length (m : list Z) : length (sha256 m) = 32%nat.
Proof.
  unfold sha256. cbv zeta.
  rewrite concat_be_bytes_length, blocks_length; reflexivity.
Qed.

Lemma sha256_range (m : list Z) : Forall is_byte (sha256 m).
Proof.
  unfold sha256. cbv zeta.
  induction (fold_left compress _ H0) as [|x h IH]; cbn [map concat]; [constructor|].
  apply Forall_app. split; [apply be_bytes_range|exact IH].
Qed.

Lemma hexdigest_length (d : list Z) : length (hexdigest d) = (2 * length d)%nat.
Proof.
  unfold hexdigest. induction d as [|b d IH]; cbn; [reflexivity|].
  rewrite IH. lia.
Qed.

Lemma hexdigest_lower_hex (d : list Z) :
  Forall is_byte d -> Forall is_lower_hex (hexdigest d).
Proof.
  unfold hexdigest, is_lower_hex, hex_digit, is_byte.
  induction 1 as [|b d Hb _ IH]; cbn; [constructor|].
  constructor; [|constructor; [|exact IH]].
  - destruct (Z.ltb_spec (b / 16) 10); Z.div_mod_to_equations; lia.
  - destruct (Z.ltb_spec (b mod 16) 10); Z.div_mod_to_equations; lia.
Qed.

End hashlib_facts.

(** ** Room ids, PINs and time windows *)

Module pin_facts.
Import num_facts utf8_facts nacl_facts crypto_facts hashlib_facts.
Import shapes examples.

(** X1. The fingerprint of a room id is sixteen lowercase hexadecimal
    digits, and the relay's POST /room never answers it with 400. *)
Theorem room_hash_is_16_lower_hex (emojis : list (list Z)) (h : list Z) :
  crypto.room_id_to_hash emojis = Ok h ->
  length h = 16%nat
  /\ Forall is_lower_hex h
  /\ forall s ip d checked now uuid,
       json.get d (lit "room_hash") json.JNull = json.JStr h ->
       SOSRelay.status
         (fst (SOSRelay.handle_create_room s ip (Some (json.JObj d))
                 checked now uuid)) <> 400.
Proof.
  unfold crypto.room_id_to_hash. intros H.
  destruct (utf8.encode (concat emojis)) as [b|]; [|discriminate].
  cbn [rbind] in H. injection H as <-.
  assert (Hlen : length (take 16 (hashlib.hexdigest (hashlib.sha256 b))) = 16%nat).
  { rewrite length_take, hexdigest_length, sha256_length. reflexivity. }
  split; [exact Hlen|]. split.
  - apply Forall_take, hexdigest_lower_hex, sha256_range.
  - intros s ip d checked now uuid Hd. unfold SOSRelay.handle_create_room.
    destruct (RateLimiter.check _ _ _) as [[allowed retry] limiter].
    destruct allowed; cbn [negb]; [|cbn; discriminate].
    rewrite Hd. remember (take 16 _) as fp eqn:Hfp. clear Hfp Hd.
    destruct fp as [|c fp]; [discriminate Hlen|].
    cbn [json.truthy json.len truthy_str negb]. rewrite Hlen. cbn [Nat.eqb negb].
    rewrite bool_decide_eq_true_2 by (apply list_elem_of_singleton; reflexivity).
    cbn [negb]. destruct (SOSRelay._get_room _ _ _) as [[r|] s1]; cbn; discriminate.
Qed.

Lemma room_hash_is_16_lower_hex_witness :
  length (lit "40ccdfc21ef631f0") = 16%nat
  /\ Forall is_lower_hex (lit "40ccdfc21ef631f0")
  /\ forall s ip d checked now uuid,
       json.get d (lit "room_hash") json.JNull
       = json.JStr (lit "40ccdfc21ef631f0") ->
       SOSRelay.status
         (fst (SOSRelay.handle_create_room s ip (Some (json.JObj d))
                 checked now uuid)) <> 400.
Proof.
  apply (room_hash_is_16_lower_hex [fire; moon]).
  vm_compute. reflexivity.
Defined.

(** The window of a clock reading. *)
Lemma bucket_floor (b : Z) (now : Q) : in_bucket b now -> Qfloor (now / 15) = b.
Proof.
  intros [Hlo Hhi].
  rewrite inject_Z_plus, inject_Z_mult in Hhi. rewrite inject_Z_mult in Hlo.
  change (inject_Z 15) with 15%Q in *.
  assert (E : (now == now / 15 * 15)%Q) by field.
  pose proof (Qfloor_le (now / 15)) as H3.
  pose proof (Qlt_floor (now / 15)) as H4.
  rewrite inject_Z_plus in H4. change (inject_Z 1) with 1%Q in *.
  set (x := (now / 15)%Q) in *.
  assert (H5 : (inject_Z (Qfloor x) < inject_Z (b + 1))%Q).
  { rewrite inject_Z_plus. change (inject_Z 1) with 1%Q. lra. }
  assert (H6 : (inject_Z b < inject_Z (Qfloor x + 1))%Q).
  { rewrite inject_Z_plus. change (inject_Z 1) with 1%Q. lra. }
  rewrite <- Zlt_Qlt in H5, H6. lia.
Qed.

Lemma in_own_bucket (now : Q) : in_bucket (Qfloor (now / 15)) now.
Proof.
  pose proof (Qfloor_le (now / 15)) as H3.
  pose proof (Qlt_floor (now / 15)) as H4.
  unfold in_bucket. rewrite inject_Z_plus in H4.
  rewrite inject_Z_plus, !inject_Z_mult. change (inject_Z 15) with 15%Q in *. change (inject_Z 1) with 1%Q in *.
  assert (E : (now == now / 15 * 15)%Q) by (field).
  set (x := (now / 15)%Q) in *.
  split; lra.
Qed.

(** X2. In rotating mode the PIN is six decimal digits, whatever the room
    id and the clock. *)
Theorem rotating_pin_six_digits (creds : crypto.RoomCredentials) (now : Q)
    (fresh_pin pin : list Z) :
  crypto.mode creds <> lit "fixed" ->
  crypto.get_current_pin creds now fresh_pin = Ok pin ->
  length pin = 6%nat /\ Forall is_ascii_digit pin.
Proof.
  intros Hmode. unfold crypto.get_current_pin, crypto.str_eqb.
  rewrite bool_decide_eq_false_2 by exact Hmode. cbv zeta.
  destruct (utf8.encode _) as [seed|]; [|discriminate].
  cbn [rbind]. intros [= <-]. split.
  - rewrite length_map, length_take, hexdigest_length, sha256_length.
    reflexivity.
  - apply Forall_forall. intros d Hd.
    apply list_elem_of_fmap in Hd as (c & -> & _).
    unfold is_ascii_digit.
    pose proof (Z.mod_pos_bound (crypto.hex_value c) 10). lia.
Qed.

Lemma rotating_pin_six_digits_witness :
  length (lit "202665") = 6%nat /\ Forall is_ascii_digit (lit "202665").
Proof.
  apply (rotating_pin_six_digits rotating_creds (1700000000 # 1) []).
  - vm_compute. discriminate.
  - vm_compute. reflexivity.
Defined.

(** X3. Two clock readings of the same 15-second window give the same PIN
    and, for any PIN, the same key. *)
Theorem same_window_same_pin_and_key (hash_secret_raw : argon2_raw)
    (creds : crypto.RoomCredentials) (pin fresh_pin : list Z)
    (b : Z) (now1 now2 : Q) :
  in_bucket b now1 -> in_bucket b now2 ->
  crypto.get_current_pin creds now1 fresh_pin
  = crypto.get_current_pin creds now2 fresh_pin
  /\ crypto.get_encryption_key hash_secret_raw creds pin now1
     = crypto.get_encryption_key hash_secret_raw creds pin now2.
Proof.
  intros H1%bucket_floor H2%bucket_floor.
  unfold crypto.get_current_pin, crypto.get_encryption_key. cbv zeta.
  rewrite H1, H2. split; reflexivity.
Qed.

Lemma same_window_same_pin_and_key_witness :
  crypto.get_current_pin rotating_creds (1700000010 # 1) []
  = crypto.get_current_pin rotating_creds (3400000029 # 2) []
  /\ crypto.get_encryption_key sha256_kdf rotating_creds (lit "123456")
       (1700000010 # 1)
     = crypto.get_encryption_key sha256_kdf rotating_creds (lit "123456")
         (3400000029 # 2).
Proof.
  apply (same_window_same_pin_and_key sha256_kdf rotating_creds
           (lit "123456") [] 113333334);
    split; vm_compute; congruence.
Defined.

(** X4. The countdown [get_time_remaining] shows, for a clock reading that
    is not negative: between 1 and 15, and the whole second that many
    seconds ahead is the first reading of the next window, no reading
    before it has left the current one. *)
Theorem time_remaining_is_next_rotation (now : Q) :
  (0 <= now)%Q ->
  let r := emoji.get_time_remaining now in
  let b := Qfloor (now / 15) in
  1 <= r <= 15
  /\ py_int now + r = 15 * (b + 1)
  /\ forall t : Q, (now <= t)%Q -> (t < inject_Z (py_int now + r))%Q ->
       Qfloor (t / 15) = b.
Proof.
  intros Hnow r b. subst r. unfold emoji.get_time_remaining.
  rewrite (py_int_floor _ Hnow).
  pose proof (Z.mod_pos_bound (Qfloor now) 15 ltac:(lia)) as Hm.
  pose proof (Z.div_mod (Qfloor now) 15 ltac:(lia)) as Hd.
  assert (Hb : b = Qfloor now / 15).
  { subst b. apply bucket_floor. unfold in_bucket.
    pose proof (Qfloor_le now) as H3. pose proof (Qlt_floor now) as H4.
    assert (L1 : (inject_Z (15 * (Qfloor now / 15)) <= inject_Z (Qfloor now))%Q)
      by (rewrite <- Zle_Qle; lia).
    assert (L2 : (inject_Z (Qfloor now + 1)
                  <= inject_Z (15 * (Qfloor now / 15) + 15))%Q)
      by (rewrite <- Zle_Qle; lia).
    split; lra. }
  split; [lia|]. split; [lia|].
  intros t Ht1 Ht2. rewrite Hb. apply bucket_floor. unfold in_bucket.
  pose proof (in_own_bucket now) as [L1 _]. fold b in L1. rewrite Hb in L1.
  replace (15 * (Qfloor now / 15) + 15)
    with (Qfloor now + (15 - Qfloor now mod 15)) by lia.
  split; lra.
Qed.

Lemma time_remaining_is_next_rotation_witness :
  let r := emoji.get_time_remaining (3400000029 # 2) in
  let b := Qfloor ((3400000029 # 2) / 15) in
  1 <= r <= 15
  /\ py_int (3400000029 # 2) + r = 15 * (b + 1)
  /\ forall t : Q, ((3400000029 # 2) <= t)%Q ->
       (t < inject_Z (py_int (3400000029 # 2) + r))%Q ->
       Qfloor (t / 15) = b.
Proof.
  apply (time_remaining_is_next_rotation (3400000029 # 2)).
  vm_compute. discriminate.
Defined.

End pin_facts.

(** ** The emoji alphabet *)

Module emoji_facts.
Import num_facts utf8_facts crypto_facts hashlib_facts pin_facts.
Import shapes emoji.

Lemma index_Some (l : list (list Z)) (x : list Z) (i : nat) :
  index l x = Some i -> l !! i = Some x.
Proof.
  revert i. induction l as [|y l IH]; intros i; cbn; [discriminate|].
  case_bool_decide as E; [intros [= <-]; cbn; congruence|].
  destruct (index l x) as [j|]; [|discriminate]. cbn. intros [= <-].
  cbn. apply IH. reflexivity.
Qed.

Lemma index_None (l : list (list Z)) (x : list Z) :
  index l x = None <-> x ∉ l.
Proof.
  induction l as [|y l IH]; cbn.
  - split; [intros _; apply not_elem_of_nil|reflexivity].
  - case_bool_decide as E.
    + split; [discriminate|]. intros H. exfalso. apply H. subst. left.
    + destruct (index l x) as [j|]; cbn.
      * split; [discriminate|]. intros H. exfalso.
        apply not_elem_of_cons in H as [_ H]. apply IH in H. discriminate.
      * split; [|reflexivity]. intros _. apply not_elem_of_cons.
        split; [congruence|]. apply IH. reflexivity.
Qed.

Lemma index_lookup (l : list (list Z)) (x : list Z) (i : nat) :
  NoDup l -> l !! i = Some x -> index l x = Some i.
Proof.
  intros Hnd. revert i. induction Hnd as [|y l Hy _ IH]; intros i; [discriminate|].
  destruct i as [|i]; cbn.
  - intros [= ->]. rewrite bool_decide_eq_true_2; reflexivity.
  - intros Hl. rewrite bool_decide_eq_false_2.
    + rewrite (IH _ Hl). reflexivity.
    + intros ->. apply Hy. eapply list_elem_of_lookup_2. exact Hl.
Qed.

Lemma EMOJI_SET_NoDup : NoDup EMOJI_SET.
Proof. apply (bool_decide_unpack _). vm_compute. exact I. Qed.

Lemma omap_cons {A B} (f : A -> option B) (x : A) (l : list A) :
  omap f (x :: l)
  = match f x with Some y => y :: omap f l | None => omap f l end.
Proof. reflexivity. Qed.

(** X5. The two conversions undo each other on what they keep:
    [indices_to_emojis] after [emojis_to_indices] drops the strings that
    are not in the alphabet and returns the others unchanged, and
    [emojis_to_indices] after [indices_to_emojis] drops the numbers out of
    range and returns the others unchanged. *)
Theorem indices_round_trip (emojis : list (list Z)) (indices : list Z) :
  indices_to_emojis (emojis_to_indices emojis)
  = filter (fun e => e ∈ EMOJI_SET) emojis
  /\ emojis_to_indices (indices_to_emojis indices)
     = filter (fun i => 0 <= i < 32) indices.
Proof.
  unfold indices_to_emojis, emojis_to_indices. split.
  - induction emojis as [|e es IH]; [reflexivity|].
    rewrite omap_cons, filter_cons.
    destruct (index EMOJI_SET e) as [i|] eqn:Hi; cbn [fmap option_fmap option_map].
    + pose proof (index_Some _ _ _ Hi) as Hl.
      pose proof (lookup_lt_Some _ _ _ Hl) as Hlt.
      rewrite decide_True by (eapply list_elem_of_lookup_2; exact Hl).
      rewrite omap_cons.
      replace ((0 <=? Z.of_nat i) && (Z.of_nat i <? Z.of_nat (length EMOJI_SET)))
        with true by (symmetry; apply andb_true_iff; split; lia).
      rewrite Nat2Z.id, Hl, IH. reflexivity.
    + rewrite decide_False by (apply index_None; exact Hi). exact IH.
  - induction indices as [|i rest IH]; [reflexivity|].
    rewrite omap_cons, filter_cons.
    change (Z.of_nat (length EMOJI_SET)) with 32 in *.
    destruct (decide (0 <= i < 32)) as [Hr|Hr].
    + replace ((0 <=? i) && (i <? 32)) with true
        by (symmetry; apply andb_true_iff; split; lia).
      destruct (EMOJI_SET !! Z.to_nat i) as [e|] eqn:Hl.
      * rewrite omap_cons, (index_lookup _ _ _ EMOJI_SET_NoDup Hl).
        cbn [fmap option_fmap option_map]. rewrite Z2Nat.id by lia.
        rewrite IH. reflexivity.
      * exfalso. apply lookup_ge_None in Hl.
        change (length EMOJI_SET) with 32%nat in Hl. lia.
    + replace ((0 <=? i) && (i <? 32)) with false; [exact IH|].
      symmetry. apply andb_false_iff.
      destruct (Z.leb_spec 0 i); [right; lia|left; reflexivity].
Qed.

Lemma word_prefix (w w' r r' : list Z) :
  32 ∉ w -> 32 ∉ w' ->
  (r = [] \/ exists t, r = 32 :: t) -> (r' = [] \/ exists t, r' = 32 :: t) ->
  w ++ r = w' ++ r' -> w = w' /\ r = r'.
Proof.
  revert w'. induction w as [|c w IH]; intros [|c' w'] Hw Hw' Hr Hr' E; cbn in E.
  - split; [reflexivity|exact E].
  - exfalso. destruct Hr as [->|[t ->]]; [discriminate|].
    injection E as <- _. apply Hw'. left.
  - exfalso. destruct Hr' as [->|[t ->]]; [discriminate|].
    injection E as -> _. apply Hw. left.
  - injection E as <- E.
    apply not_elem_of_cons in Hw as [_ Hw].
    apply not_elem_of_cons in Hw' as [_ Hw'].
    destruct (IH w' Hw Hw' Hr Hr' E) as [-> ->]. split; reflexivity.
Qed.

Lemma join_cons (w : list Z) (ws : list (list Z)) :
  w <> [] ->
  exists r, join (lit " ") (w :: ws) = w ++ r
            /\ (r = [] \/ exists t, r = 32 :: t)
            /\ (ws = [] -> r = [])
            /\ (ws <> [] -> r = 32 :: join (lit " ") ws).
Proof.
  intros Hw. destruct ws as [|w2 ws].
  - exists []. cbn. rewrite app_nil_r. repeat split; auto. congruence.
  - exists (32 :: join (lit " ") (w2 :: ws)). repeat split; eauto. congruence.
Qed.

(** Sentences of words are read back in one way only. *)
Lemma join_words_inj (ws ws' : list (list Z)) :
  Forall is_word ws -> Forall is_word ws' ->
  join (lit " ") ws = join (lit " ") ws' -> ws = ws'.
Proof.
  intros H. revert ws'. induction H as [|w ws [Hne Hsp] Hws IH];
    intros ws' H'; destruct H' as [|w' ws' [Hne' Hsp'] Hws']; intros E.
  - reflexivity.
  - exfalso. destruct (join_cons w' ws' Hne') as (r & Er & _).
    rewrite Er in E. cbn in E. destruct w'; [congruence|discriminate].
  - exfalso. destruct (join_cons w ws Hne) as (r & Er & _).
    rewrite Er in E. cbn in E. destruct w; [congruence|discriminate].
  - destruct (join_cons w ws Hne) as (r & Er & Hr & Hnil & Hcons).
    destruct (join_cons w' ws' Hne') as (r' & Er' & Hr' & Hnil' & Hcons').
    rewrite Er, Er' in E.
    destruct (word_prefix _ _ _ _ Hsp Hsp' Hr Hr' E) as [-> Err]. f_equal.
    destruct ws as [|v ws], ws' as [|v' ws']; [reflexivity| | |].
    + exfalso. rewrite (Hnil eq_refl), Hcons' in Err by discriminate.
      discriminate.
    + exfalso. rewrite (Hnil' eq_refl), Hcons in Err by discriminate.
      discriminate.
    + rewrite Hcons, Hcons' in Err by discriminate. injection Err as Err.
      apply IH; [exact Hws'|exact Err].
Qed.

Lemma phonetic_words : Forall (fun e => is_word (get_phonetic e)) EMOJI_SET.
Proof.
  apply Forall_forall. intros e He.
  assert (H : bool_decide (get_phonetic e <> [] /\ 32 ∉ get_phonetic e) = true).
  { revert e He. apply Forall_forall. apply (bool_decide_unpack _).
    vm_compute. exact I. }
  apply bool_decide_eq_true in H. exact H.
Qed.

Lemma phonetic_inj (e e' : list Z) :
  e ∈ EMOJI_SET -> e' ∈ EMOJI_SET -> get_phonetic e = get_phonetic e' -> e = e'.
Proof.
  intros He He'.
  assert (H : Forall (fun a => Forall (fun b =>
                 bool_decide (get_phonetic a = get_phonetic b -> a = b) = true)
                 EMOJI_SET) EMOJI_SET).
  { apply (bool_decide_unpack _). vm_compute. exact I. }
  rewrite Forall_forall in H. specialize (H e He).
  rewrite Forall_forall in H. specialize (H e' He').
  apply bool_decide_eq_true in H. exact H.
Qed.

(** X6. The spoken form identifies the room: two room ids over the alphabet
    with the same phonetic rendering are the same list of emojis, and the
    reverse table leads from each name back to its emoji. *)
Theorem phonetic_room_id_identifies (emojis emojis' : list (list Z)) :
  Forall (fun e => e ∈ EMOJI_SET) emojis ->
  Forall (fun e => e ∈ EMOJI_SET) emojis' ->
  (get_phonetic_room_id emojis = get_phonetic_room_id emojis' ->
   emojis = emojis')
  /\ Forall (fun e => pydict.get PHONETICS_TO_EMOJI (get_phonetic e) = Some e)
       emojis.
Proof.
  intros H H'. split.
  - unfold get_phonetic_room_id. intros E.
    apply join_words_inj in E.
    + revert emojis' H' E. induction H as [|e es He Hes IH];
        intros es' H' E; destruct H' as [|e' es' He' Hes']; try discriminate;
        [reflexivity|].
      cbn in E. injection E as E1 E2.
      rewrite (phonetic_inj _ _ He He' E1), (IH _ Hes' E2). reflexivity.
    + apply Forall_fmap. eapply Forall_impl; [exact H|].
      intros e He. cbn. revert e He. apply Forall_forall, phonetic_words.
    + apply Forall_fmap. eapply Forall_impl; [exact H'|].
      intros e He. cbn. revert e He. apply Forall_forall, phonetic_words.
  - eapply Forall_impl; [exact H|]. intros e He.
    assert (T : Forall (fun e => bool_decide
                  (pydict.get PHONETICS_TO_EMOJI (get_phonetic e) = Some e) = true)
                  EMOJI_SET).
    { apply (bool_decide_unpack _). vm_compute. exact I. }
    rewrite Forall_forall in T. specialize (T e He).
    apply bool_decide_eq_true in T. exact T.
Qed.

Lemma phonetic_room_id_identifies_witness :
  (get_phonetic_room_id [examples.fire; examples.moon]
   = get_phonetic_room_id [examples.moon; examples.fire] ->
   [examples.fire; examples.moon] = [examples.moon; examples.fire])
  /\ Forall (fun e => pydict.get PHONETICS_TO_EMOJI (get_phonetic e) = Some e)
       [examples.fire; examples.moon].
Proof.
  apply (phonetic_room_id_identifies [examples.fire; examples.moon]
           [examples.moon; examples.fire]);
    repeat apply Forall_cons_2; try apply Forall_nil_2;
    apply (bool_decide_unpack _); vm_compute; exact I.
Defined.

End emoji_facts.

(** ** Ciphertexts and their base64 form *)

Module wire_facts.
Import num_facts utf8_facts nacl_facts crypto_facts hashlib_facts pin_facts.
Import shapes pylib.

Ltac split_tests :=
  repeat match goal with
  | |- context [?a <? ?b] => destruct (Z.ltb_spec a b)
  | |- context [?a <=? ?b] => destruct (Z.leb_spec a b)
  | |- context [?a =? ?b] => destruct (Z.eqb_spec a b)
  end.

Lemma encode_cp_range (c : Z) :
  utf8.encodable c = true -> Forall is_byte (utf8.encode_cp c).
Proof.
  unfold utf8.encodable, utf8.is_surrogate, utf8.encode_cp, is_byte.
  intros H. apply andb_true_iff in H as [H _].
  apply andb_true_iff in H as [H1 H2]. apply Z.leb_le in H1, H2.
  split_tests; repeat constructor; Z.div_mod_to_equations; lia.
Qed.

Lemma encode_range (s bs : list Z) :
  utf8.encode s = Ok bs -> Forall is_byte bs.
Proof.
  revert bs. induction s as [|c s IH]; intros bs; cbn.
  - intros [= <-]. constructor.
  - destruct (utf8.encodable c) eqn:Hc; [|discriminate].
    destruct (utf8.encode s) as [bs'|]; [|discriminate]. cbn.
    intros [= <-]. apply Forall_app. split; [apply encode_cp_range, Hc|].
    apply IH. reflexivity.
Qed.

Lemma lxor_byte (a b : Z) : is_byte a -> is_byte b -> is_byte (Z.lxor a b).
Proof.
  unfold is_byte. intros Ha Hb.
  assert (H1 : Z.shiftr a 8 = 0)
    by (rewrite Z.shiftr_div_pow2 by lia; apply Z.div_small; lia).
  assert (H2 : Z.shiftr b 8 = 0)
    by (rewrite Z.shiftr_div_pow2 by lia; apply Z.div_small; lia).
  assert (H3 : Z.shiftr (Z.lxor a b) 8 = 0)
    by (rewrite Z.shiftr_lxor, H1, H2; reflexivity).
  assert (H4 : 0 <= Z.lxor a b) by (apply Z.lxor_nonneg; lia).
  rewrite Z.shiftr_div_pow2 in H3 by lia.
  change (2 ^ 8) with 256 in H3. Z.div_mod_to_equations. lia.
Qed.

Lemma xor_bytes_range (a b : list Z) :
  Forall is_byte a -> Forall is_byte b -> Forall is_byte (nacl.xor_bytes a b).
Proof.
  unfold nacl.xor_bytes. intros Ha. revert b.
  induction Ha as [|x a Hx _ IH]; intros b Hb; [constructor|].
  destruct Hb as [|y b Hy Hb]; cbn; constructor;
    [apply lxor_byte; assumption|apply IH, Hb].
Qed.

Lemma le_bytes_range (n : nat) (x : Z) : Forall is_byte (nacl.le_bytes n x).
Proof.
  revert x. induction n as [|n IH]; intros x; cbn; constructor; [|apply IH].
  apply Z.mod_pos_bound. lia.
Qed.

Lemma concat_range (ls : list (list Z)) :
  Forall (Forall is_byte) ls -> Forall is_byte (concat ls).
Proof.
  induction 1 as [|l ls Hl _ IH]; cbn; [constructor|].
  apply Forall_app. split; assumption.
Qed.

Lemma concat_map_range {A} (f : A -> list Z) (l : list A) :
  (forall x, Forall is_byte (f x)) -> Forall is_byte (concat (map f l)).
Proof.
  intros Hf. induction l as [|x l IH]; cbn [map concat]; [constructor|].
  apply Forall_app. split; [apply Hf|exact IH].
Qed.

Lemma salsa20_block_range (key n8 : list Z) (counter : Z) :
  Forall is_byte (nacl.salsa20_block key n8 counter).
Proof.
  unfold nacl.salsa20_block.
  exact (concat_map_range (nacl.le_bytes 4) _ (le_bytes_range 4)).
Qed.

Lemma stream_range (key nonce : list Z) (len : nat) :
  Forall is_byte (nacl.xsalsa20_stream key nonce len).
Proof.
  unfold nacl.xsalsa20_stream. apply Forall_take.
  exact (concat_map_range _ _
           (fun c => salsa20_block_range _ _ (Z.of_nat c))).
Qed.

Lemma secretbox_shape (m nonce key : list Z) :
  length nonce = nacl.NONCE_SIZE ->
  length (nacl.crypto_secretbox m nonce key) = (16 + length m)%nat
  /\ (Forall is_byte m -> Forall is_byte (nacl.crypto_secretbox m nonce key)).
Proof.
  intros Hn. unfold nacl.crypto_secretbox. cbv zeta.
  set (stream := nacl.xsalsa20_stream key nonce (32 + length m)).
  assert (Hs : length (drop 32 stream) = length m).
  { unfold stream. rewrite length_drop, xsalsa20_stream_length by assumption.
    lia. }
  split.
  - rewrite length_app, poly1305_length, xor_bytes_length by lia. reflexivity.
  - intros Hm. apply Forall_app. split.
    + unfold nacl.poly1305. cbv zeta. apply le_bytes_range.
    + apply xor_bytes_range; [exact Hm|]. apply Forall_drop, stream_range.
Qed.

(** X7. A ciphertext is 40 bytes longer than the UTF-8 form of the message
    (a 24-byte nonce and a 16-byte authenticator), and all its bytes are
    bytes when the nonce's are. *)
Theorem encrypt_message_shape (message key nonce c : list Z) :
  crypto.encrypt_message message key nonce = Ok c ->
  exists plaintext,
    utf8.encode message = Ok plaintext
    /\ length c = (40 + length plaintext)%nat
    /\ take 24 c = nonce
    /\ (Forall is_byte nonce -> Forall is_byte c).
Proof.
  unfold crypto.encrypt_message. intros H.
  destruct (nacl.SecretBox key) as [box|]; [|discriminate]. cbn [rbind] in H.
  destruct (utf8.encode message) as [pt|] eqn:Hpt; [|discriminate].
  cbn [rbind] in H. unfold nacl.SecretBox_encrypt in H.
  destruct (length nonce =? nacl.NONCE_SIZE)%nat eqn:Hn; [|discriminate].
  apply Nat.eqb_eq in Hn. injection H as <-.
  destruct (secretbox_shape pt nonce box Hn) as [Hl Hr].
  exists pt. split; [reflexivity|]. split; [|split].
  - rewrite length_app, Hl, Hn. reflexivity.
  - change 24%nat with nacl.NONCE_SIZE. rewrite <- Hn. apply take_app_length.
  - intros Hb. apply Forall_app. split; [exact Hb|].
    apply Hr. eapply encode_range. exact Hpt.
Qed.

Lemma encrypt_message_shape_witness :
  exists plaintext,
    utf8.encode (lit "hi") = Ok plaintext
    /\ length more_examples.a_ciphertext = (40 + length plaintext)%nat
    /\ take 24 more_examples.a_ciphertext = more_examples.a_nonce
    /\ (Forall is_byte more_examples.a_nonce ->
        Forall is_byte more_examples.a_ciphertext).
Proof.
  apply (encrypt_message_shape (lit "hi") more_examples.a_key
           more_examples.a_nonce more_examples.a_ciphertext).
  vm_compute. reflexivity.
Defined.

(** X8. Fewer than 40 bytes are never a message: under a 32-byte key
    [decrypt_message] answers None and raises nothing. *)
Theorem short_ciphertext_is_rejected (encrypted key : list Z) :
  length key = nacl.KEY_SIZE ->
  (length encrypted < 40)%nat ->
  crypto.decrypt_message encrypted key = Ok None.
Proof.
  intros Hk Hlen. unfold crypto.decrypt_message, nacl.SecretBox.
  rewrite Hk, Nat.eqb_refl. cbn [rbind]. unfold nacl.SecretBox_decrypt.
  cbv zeta. rewrite length_take.
  destruct (Nat.min nacl.NONCE_SIZE (length encrypted) =? nacl.NONCE_SIZE)%nat
    eqn:Hn; [|reflexivity].
  apply Nat.eqb_eq in Hn. unfold nacl.crypto_secretbox_open.
  replace (length (drop nacl.NONCE_SIZE encrypted) <? nacl.MACBYTES)%nat
    with true; [reflexivity|].
  symmetry. apply Nat.ltb_lt. rewrite length_drop.
  unfold nacl.NONCE_SIZE, nacl.MACBYTES in *. lia.
Qed.

Lemma short_ciphertext_is_rejected_witness :
  crypto.decrypt_message (take 39 more_examples.a_ciphertext)
    more_examples.a_key = Ok None.
Proof.
  apply (short_ciphertext_is_rejected (take 39 more_examples.a_ciphertext)
           more_examples.a_key).
  - reflexivity.
  - vm_compute. lia.
Defined.

(** *** base64 *)

Lemma b64_char_spec (v : Z) :
  0 <= v < 64 ->
  base64.b64_value (b64_char v) = Some v
  /\ (b64_char v =? 61) = false
  /\ 0 <= b64_char v < 128.
Proof.
  intros Hv.
  assert (C : v < 26 \/ 26 <= v < 52 \/ 52 <= v < 62 \/ v = 62 \/ v = 63)
    by lia.
  unfold b64_char.
  destruct C as [C|[C|[C|[C|C]]]].
  - rewrite (proj2 (Z.ltb_lt v 26)) by lia.
    unfold base64.b64_value.
    rewrite (proj2 (Z.leb_le 65 (65 + v))), (proj2 (Z.leb_le (65 + v) 90)) by lia.
    cbn [andb]. split; [f_equal; lia|]. split; [apply Z.eqb_neq; lia|lia].
  - rewrite (proj2 (Z.ltb_ge v 26)), (proj2 (Z.ltb_lt v 52)) by lia.
    unfold base64.b64_value.
    rewrite (proj2 (Z.leb_gt (71 + v) 90)) by lia. rewrite andb_false_r.
    rewrite (proj2 (Z.leb_le 97 (71 + v))), (proj2 (Z.leb_le (71 + v) 122)) by lia.
    cbn [andb]. split; [f_equal; lia|]. split; [apply Z.eqb_neq; lia|lia].
  - rewrite (proj2 (Z.ltb_ge v 26)), (proj2 (Z.ltb_ge v 52)),
      (proj2 (Z.ltb_lt v 62)) by lia.
    unfold base64.b64_value.
    rewrite (proj2 (Z.leb_gt 65 (v - 4))) by lia. cbn [andb].
    rewrite (proj2 (Z.leb_gt 97 (v - 4))) by lia. cbn [andb].
    rewrite (proj2 (Z.leb_le 48 (v - 4))), (proj2 (Z.leb_le (v - 4) 57)) by lia.
    cbn [andb]. split; [f_equal; lia|]. split; [apply Z.eqb_neq; lia|lia].
  - subst v. vm_compute. repeat split; congruence.
  - subst v. vm_compute. repeat split; congruence.
Qed.

Lemma a2b_char (v : Z) (s : list Z) (q l p : Z) (acc : list Z) :
  0 <= v < 64 ->
  base64.a2b_base64 (b64_char v :: s) q l p acc
  = if q =? 0 then base64.a2b_base64 s 1 v 0 acc
    else if q =? 1 then
      base64.a2b_base64 s 2 (v mod 16) 0 (l * 4 + v / 16 :: acc)
    else if q =? 2 then
      base64.a2b_base64 s 3 (v mod 4) 0 (l * 16 + v / 4 :: acc)
    else base64.a2b_base64 s 0 0 0 (l * 64 + v :: acc).
Proof.
  intros Hv. destruct (b64_char_spec v Hv) as (H1 & H2 & _).
  cbn [base64.a2b_base64]. rewrite H2, H1. reflexivity.
Qed.

Lemma a2b_pad2 (s : list Z) (l : Z) (acc : list Z) :
  base64.a2b_base64 (61 :: 61 :: s) 2 l 0 acc = Ok (rev acc).
Proof. reflexivity. Qed.

Lemma a2b_pad1 (s : list Z) (l : Z) (acc : list Z) :
  base64.a2b_base64 (61 :: s) 3 l 0 acc = Ok (rev acc).
Proof. reflexivity. Qed.

Lemma a2b_b64encode (bs : list Z) :
  Forall is_byte bs ->
  forall acc, base64.a2b_base64 (b64encode bs) 0 0 0 acc = Ok (rev acc ++ bs).
Proof.
  remember (length bs) as n eqn:Hn. revert bs Hn.
  induction n as [n IH] using lt_wf_ind. intros bs Hn Hb acc.
  destruct bs as [|a [|b [|c rest]]].
  - cbn. rewrite app_nil_r. reflexivity.
  - apply Forall_cons in Hb as [Ha _]. unfold is_byte in Ha.
    cbn [b64encode].
    rewrite a2b_char by (Z.div_mod_to_equations; lia). cbn [Z.eqb].
    rewrite a2b_char by (Z.div_mod_to_equations; lia). cbn [Z.eqb Pos.eqb].
    rewrite a2b_pad2. cbn [rev]. do 3 f_equal.
    Z.div_mod_to_equations. lia.
  - apply Forall_cons in Hb as [Ha Hb]. apply Forall_cons in Hb as [Hb _].
    unfold is_byte in Ha, Hb. cbn [b64encode].
    rewrite a2b_char by (Z.div_mod_to_equations; lia). cbn [Z.eqb].
    rewrite a2b_char by (Z.div_mod_to_equations; lia). cbn [Z.eqb Pos.eqb].
    rewrite a2b_char by (Z.div_mod_to_equations; lia). cbn [Z.eqb Pos.eqb].
    rewrite a2b_pad1. cbn [rev]. rewrite <- !app_assoc. cbn [app].
    do 2 f_equal. f_equal; [|f_equal]; Z.div_mod_to_equations; lia.
  - apply Forall_cons in Hb as [Ha Hb]. apply Forall_cons in Hb as [Hb Hc].
    apply Forall_cons in Hc as [Hc Hrest].
    unfold is_byte in Ha, Hb, Hc.
    change (b64encode (a :: b :: c :: rest))
      with ([b64_char (a / 4); b64_char (a mod 4 * 16 + b / 16);
             b64_char (b mod 16 * 4 + c / 64); b64_char (c mod 64)]
            ++ b64encode rest).
    cbn [app].
    rewrite a2b_char by (Z.div_mod_to_equations; lia). cbn [Z.eqb].
    rewrite a2b_char by (Z.div_mod_to_equations; lia). cbn [Z.eqb Pos.eqb].
    rewrite a2b_char by (Z.div_mod_to_equations; lia). cbn [Z.eqb Pos.eqb].
    rewrite a2b_char by (Z.div_mod_to_equations; lia). cbn [Z.eqb Pos.eqb].
    rewrite (IH (length rest)) by (subst n; cbn; try lia; auto).
    cbn [rev]. rewrite <- !app_assoc. cbn [app]. do 2 f_equal.
    f_equal; [|f_equal; [|f_equal]]; Z.div_mod_to_equations; lia.
Qed.

Lemma b64encode_ascii (bs : list Z) :
  Forall is_byte bs ->
  forallb (fun c => (0 <=? c) && (c <? 128)) (b64encode bs) = true.
Proof.
  remember (length bs) as n eqn:Hn. revert bs Hn.
  induction n as [n IH] using lt_wf_ind. intros bs Hn Hb.
  assert (T : forall v, 0 <= v < 64 ->
                (0 <=? b64_char v) && (b64_char v <? 128) = true).
  { intros v Hv. destruct (b64_char_spec v Hv) as (_ & _ & H).
    apply andb_true_iff. split; [apply Z.leb_le|apply Z.ltb_lt]; lia. }
  destruct bs as [|a [|b [|c rest]]].
  - reflexivity.
  - apply Forall_cons in Hb as [Ha _]. unfold is_byte in Ha.
    cbn [b64encode forallb].
    rewrite !T by (Z.div_mod_to_equations; lia). reflexivity.
  - apply Forall_cons in Hb as [Ha Hb]. apply Forall_cons in Hb as [Hb _].
    unfold is_byte in Ha, Hb. cbn [b64encode forallb].
    rewrite !T by (Z.div_mod_to_equations; lia). reflexivity.
  - apply Forall_cons in Hb as [Ha Hb]. apply Forall_cons in Hb as [Hb Hc].
    apply Forall_cons in Hc as [Hc Hrest].
    unfold is_byte in Ha, Hb, Hc.
    change (b64encode (a :: b :: c :: rest))
      with ([b64_char (a / 4); b64_char (a mod 4 * 16 + b / 16);
             b64_char (b mod 16 * 4 + c / 64); b64_char (c mod 64)]
            ++ b64encode rest).
    cbn [app forallb].
    rewrite !T by (Z.div_mod_to_equations; lia).
    rewrite (IH (length rest)) by (subst n; cbn; try lia; auto).
    reflexivity.
Qed.

(** X9. base64 round trip: [b64decode] of [b64encode] of any bytes gives
    the bytes back. *)
Theorem b64decode_b64encode (bs : list Z) :
  Forall is_byte bs -> base64.b64decode (b64encode bs) = Ok bs.
Proof.
  intros Hb. unfold base64.b64decode.
  rewrite (b64encode_ascii _ Hb). apply (a2b_b64encode _ Hb []).
Qed.

Lemma b64decode_b64encode_witness :
  base64.b64decode (b64encode more_examples.a_ciphertext)
  = Ok more_examples.a_ciphertext.
Proof.
  apply (b64decode_b64encode more_examples.a_ciphertext).
  change (Forall (fun b => 0 <= b < 256) more_examples.a_ciphertext).
  apply (bool_decide_unpack _). vm_compute. exact I.
Defined.

End wire_facts.

(** ** From the input line to the other side's chat log *)

Module chat_facts.
Import num_facts utf8_facts nacl_facts crypto_facts hashlib_facts pin_facts.
Import emoji_facts wire_facts.
Import shapes pylib examples more_examples.
Import ChatRoomScreen ChatRoomInput.

(** X10. What was encrypted under the current window's key is what
    [try_decrypt_rotating] returns, with the current PIN; the empty message
    alone comes back as None. *)
Theorem try_decrypt_rotating_current (hash_secret_raw : argon2_raw)
    (creds : crypto.RoomCredentials) (now : Q)
    (fresh_pin pin key m nonce c : list Z) :
  crypto.get_current_pin creds now fresh_pin = Ok pin ->
  crypto.get_encryption_key hash_secret_raw creds pin now = Ok key ->
  crypto.encrypt_message m key nonce = Ok c ->
  crypto.try_decrypt_rotating hash_secret_raw c creds now fresh_pin
  = Ok (match m with [] => None | _ => Some (m, pin) end).
Proof.
  intros Hpin Hkey Hc. unfold crypto.try_decrypt_rotating.
  rewrite Hpin. cbn [rbind]. rewrite Hkey. cbn [rbind].
  rewrite (encrypt_decrypt _ _ _ _ Hc). cbn [rbind].
  destruct m; reflexivity.
Qed.

Lemma try_decrypt_rotating_current_witness :
  crypto.try_decrypt_rotating sha256_kdf rotating_ciphertext rotating_creds
    (1700000000 # 1) []
  = Ok (Some (lit "hi", lit "202665")).
Proof.
  apply (try_decrypt_rotating_current sha256_kdf rotating_creds
           (1700000000 # 1) [] (lit "202665") rotating_key (lit "hi") a_nonce).
  - vm_compute. reflexivity.
  - vm_compute. reflexivity.
  - vm_compute. reflexivity.
Defined.








Section Rotating.
Variable hash_secret_raw : argon2_raw.
Hypothesis hash_len : argon2_contract hash_secret_raw.


End Rotating.


End chat_facts.

(** ** Rooms as the client makes them, and the room-id input *)

Module room_facts.
Import num_facts utf8_facts crypto_facts hashlib_facts pin_facts emoji_facts.
Import shapes emoji.

Lemma EMOJI_SET_encodable :
  Forall (fun e => forallb utf8.encodable e = true) EMOJI_SET.
Proof.
  apply Forall_forall. intros e He.
  assert (H : Forall (fun e => bool_decide (forallb utf8.encodable e = true)
                                = true) EMOJI_SET).
  { apply (bool_decide_unpack _). vm_compute. exact I. }
  rewrite Forall_forall in H. specialize (H e He).
  apply bool_decide_eq_true in H. exact H.
Qed.

Lemma forallb_concat {A} (p : A -> bool) (ls : list (list A)) :
  Forall (fun l => forallb p l = true) ls -> forallb p (concat ls) = true.
Proof.
  induction 1 as [|l ls Hl _ IH]; [reflexivity|].
  cbn [concat]. rewrite forallb_app, Hl, IH. reflexivity.
Qed.

Lemma digit_str (d : Z) :
  0 <= d < 10 -> py_str_int d = [48 + d].
Proof.
  intros H.
  assert (C : d = 0 \/ d = 1 \/ d = 2 \/ d = 3 \/ d = 4 \/ d = 5 \/ d = 6
              \/ d = 7 \/ d = 8 \/ d = 9) by lia.
  repeat destruct C as [->|C]; try subst d; reflexivity.
Qed.

(** X13. A room made by [create_room] is well formed when the draws are in
    range: six emojis of the alphabet that [emojis_to_indices] maps back to
    the draws, a room id the fingerprint accepts, and in fixed mode a PIN of
    six decimal digits that [get_current_pin] returns at every time. *)
Theorem created_room_is_well_formed (mode : list Z) (choices : nat -> nat)
    (digits : nat -> Z) (now : Q) :
  (forall k, (choices k < 32)%nat) ->
  (forall k, 0 <= digits k < 10) ->
  let creds := room.credentials (room.create_room mode choices digits now) in
  length (crypto.emojis creds) = 6%nat
  /\ Forall (fun e => e ∈ EMOJI_SET) (crypto.emojis creds)
  /\ emojis_to_indices (crypto.emojis creds)
     = map (fun k => Z.of_nat (choices k)) (seq 0 6)
  /\ (exists h, room.room_hash (room.create_room mode choices digits now)
                = Ok h)
  /\ (mode = lit "fixed" ->
      exists pin,
        length pin = 6%nat /\ Forall is_ascii_digit pin
        /\ forall t fresh_pin, crypto.get_current_pin creds t fresh_pin = Ok pin).
Proof.
  intros Hc Hd creds. subst creds.
  cbn [room.create_room room.credentials crypto.emojis].
  assert (Hin : forall k, nth (choices k) EMOJI_SET [] ∈ EMOJI_SET).
  { intros k. apply list_elem_of_In, nth_In.
    change (length EMOJI_SET) with 32%nat. apply Hc. }
  assert (Hall : Forall (fun e => e ∈ EMOJI_SET) (generate_room_id choices)).
  { unfold generate_room_id. apply Forall_fmap, Forall_forall.
    intros k _. apply Hin. }
  split; [reflexivity|]. split; [exact Hall|]. split; [|split].
  - unfold emojis_to_indices, generate_room_id.
    induction (seq 0 6) as [|k ks IH]; [reflexivity|].
    cbn [map]. rewrite omap_cons.
    rewrite (index_lookup EMOJI_SET _ (choices k) EMOJI_SET_NoDup).
    + cbn [fmap option_fmap option_map]. rewrite IH. reflexivity.
    + destruct (lookup_lt_is_Some_2 EMOJI_SET (choices k)) as [x Hx].
      { change (length EMOJI_SET) with 32%nat. apply Hc. }
      rewrite (nth_lookup_Some _ _ [] _ Hx). exact Hx.
  - unfold room.room_hash, crypto.room_id_to_hash.
    cbn [room.create_room room.credentials crypto.emojis].
    destruct (encode_total (concat (generate_room_id choices))) as [bs ->].
    + apply forallb_concat. eapply Forall_impl; [exact Hall|].
      intros e He. revert e He. apply Forall_forall, EMOJI_SET_encodable.
    + eexists. reflexivity.
  - intros ->. exists (generate_pin digits).
    assert (E : generate_pin digits
                = map (fun k => 48 + digits k) (seq 0 6)).
    { unfold generate_pin. induction (seq 0 6) as [|k ks IH]; [reflexivity|].
      cbn [map concat]. rewrite IH, digit_str by apply Hd. reflexivity. }
    split; [rewrite E; reflexivity|]. split.
    + rewrite E. apply Forall_fmap, Forall_forall. intros k _.
      unfold compose, is_ascii_digit. specialize (Hd k). lia.
    + intros t fresh. unfold crypto.get_current_pin, crypto.str_eqb.
      cbn [crypto.mode crypto.fixed_pin].
      rewrite !bool_decide_eq_true_2 by reflexivity.
      cbn [truthy_opt_str]. rewrite E. reflexivity.
Qed.

Lemma created_room_is_well_formed_witness :
  let creds := room.credentials
                 (room.create_room (lit "fixed") (fun k => Nat.min (5 * k) 31)
                    (fun k => Z.min (Z.of_nat k) 9) (1700000000 # 1)) in
  length (crypto.emojis creds) = 6%nat
  /\ Forall (fun e => e ∈ EMOJI_SET) (crypto.emojis creds)
  /\ emojis_to_indices (crypto.emojis creds)
     = map (fun k => Z.of_nat (Nat.min (5 * k) 31)) (seq 0 6)
  /\ (exists h, room.room_hash
                  (room.create_room (lit "fixed") (fun k => Nat.min (5 * k) 31)
                     (fun k => Z.min (Z.of_nat k) 9) (1700000000 # 1)) = Ok h)
  /\ (lit "fixed" = lit "fixed" ->
      exists pin,
        length pin = 6%nat /\ Forall is_ascii_digit pin
        /\ forall t fresh_pin, crypto.get_current_pin creds t fresh_pin = Ok pin).
Proof.
  apply (created_room_is_well_formed (lit "fixed") (fun k => Nat.min (5 * k) 31)
           (fun k => Z.min (Z.of_nat k) 9) (1700000000 # 1)).
  - intros k. lia.
  - intros k. lia.
Defined.

End room_facts.

(** ** Python dicts *)

Module pydict_facts.
Import pydict.



Lemma get_set_ne {V} (d : t V) (k k0 : list Z) (v : V) :
  k0 <> k -> get (set d k v) k0 = get d k0.
Proof.
  intros Hne. induction d as [|[k' v'] d IH]; cbn.
  - rewrite bool_decide_eq_false_2 by congruence. reflexivity.
  - case_bool_decide as E; cbn.
    + subst k'. rewrite !bool_decide_eq_false_2 by congruence. reflexivity.
    + case_bool_decide; [reflexivity|exact IH].
Qed.

Lemma set_keys {V} (d : t V) (k : list Z) (v : V) :
  map fst (set d k v)
  = if bool_decide (k ∈ map fst d) then map fst d else map fst d ++ [k].
Proof.
  induction d as [|[k' v'] d IH]; [reflexivity|].
  cbn [set]. destruct (decide (k' = k)) as [->|E].
  - rewrite bool_decide_eq_true_2 by reflexivity. cbn [map fst].
    rewrite bool_decide_eq_true_2 by left. reflexivity.
  - rewrite bool_decide_eq_false_2 by exact E. cbn [map fst]. rewrite IH.
    destruct (decide (k ∈ map fst d)) as [E1|E1].
    + rewrite !bool_decide_eq_true_2; [reflexivity|right; exact E1|exact E1].
    + rewrite !bool_decide_eq_false_2; [reflexivity| |exact E1].
      intros [?|?]%elem_of_cons; congruence.
Qed.

Lemma set_NoDup {V} (d : t V) (k : list Z) (v : V) :
  NoDup (map fst d) -> NoDup (map fst (set d k v)).
Proof.
  intros H. rewrite set_keys. case_bool_decide as E; [exact H|].
  apply NoDup_app. split; [exact H|]. split.
  - intros x Hx Hk. apply list_elem_of_singleton in Hk. congruence.
  - apply NoDup_singleton.
Qed.

Lemma set_Forall {V} (P : list Z * V -> Prop) (d : t V) (k : list Z) (v : V) :
  Forall P d -> P (k, v) -> Forall P (set d k v).
Proof.
  intros H Hk. induction H as [|[k' v'] d Hx Hd IH]; cbn.
  - constructor; [exact Hk|constructor].
  - case_bool_decide as E; constructor; try assumption. subst. exact Hk.
Qed.

Lemma del_sublist {V} (d : t V) (k : list Z) : sublist (del d k) d.
Proof.
  induction d as [|[k' v'] d IH]; cbn; [constructor|].
  case_bool_decide; [apply sublist_cons; reflexivity|apply sublist_skip, IH].
Qed.



End pydict_facts.

(** ** The registry: what every stored room looks like *)

Module registry_facts.
Import relay SOSRelay registry num_facts examples relay_facts pydict_facts.
Import shapes registry_shape relay_more.

Lemma del_Forall {V} (P : list Z * V -> Prop) (d : pydict.t V) (k : list Z) :
  Forall P d -> Forall P (pydict.del d k).
Proof.
  induction 1 as [|[k' v'] d Hx Hd IH]; cbn; [constructor|].
  case_bool_decide; [exact Hd|constructor; assumption].
Qed.

Lemma del_NoDup {V} (d : pydict.t V) (k : list Z) :
  NoDup (map fst d) -> NoDup (map fst (pydict.del d k)).
Proof.
  intros H. eapply sublist_NoDup; [exact H|].
  apply fmap_sublist, del_sublist.
Qed.

Lemma shape_ok_rooms (s s' : state) :
  rooms s' = rooms s \/ (exists h, rooms s' = delete h (rooms s)) ->
  shape_ok s -> shape_ok s'.
Proof.
  unfold shape_ok. intros [->|[h ->]] H; [assumption|].
  now apply map_Forall_delete.
Qed.

Lemma shape_ok_get_room (s : state) (h : list Z) (now : Q) :
  shape_ok s -> shape_ok (snd (_get_room s h now)).
Proof.
  intros H. destruct (get_room_cases s h now) as [(room&_&_&->)|(s'&->&_&[E|E])];
    cbn [snd]; [assumption| |]; eapply shape_ok_rooms; eauto.
Qed.

Lemma shape_ok_save (s : state) (room : RoomData) :
  shape_ok s -> room_shape (room_hash room) room -> shape_ok (_save_room s room).
Proof.
  intros H Hr. unfold shape_ok, _save_room. cbn [rooms].
  now apply map_Forall_insert_2.
Qed.

Lemma get_room_shape (s s' : state) (h : list Z) (now : Q) (room : RoomData) :
  shape_ok s -> _get_room s h now = (Some room, s') ->
  s' = s /\ room_shape h room /\ (now < expires_at room)%Q.
Proof.
  intros H. destruct (get_room_cases s h now) as [(room'&Hl&Hlive&->)|(s1&->&_)];
    [|discriminate].
  intros [= <- <-]. split; [reflexivity|]. split; [exact (H _ _ Hl)|exact Hlive].
Qed.

Lemma step_shape (s s' : state) : shape_ok s -> step s s' -> shape_ok s'.
Proof.
  intros H [ip data checked now uuid Hchecked Hnow | ip h data now uuid Hnow
           | h data now stamp uuid Hnow Hstamp
           | h since now Hnow | h member_id now Hnow | now Hnow].
  - unfold handle_create_room.
    destruct (RateLimiter.check _ _ _) as [[allowed retry] limiter].
    destruct allowed; cbn [negb snd]; [|assumption].
    destruct data as [[|b|x|str|l|d]|]; try assumption.
    destruct (negb (json.truthy _)); [assumption|].
    destruct (json.len _) as [n|] eqn:Hn; [|assumption].
    destruct (negb (n =? 16)%nat) eqn:Hbad; [assumption|].
    destruct (negb (bool_decide _)); [assumption|].
    destruct (json.get d _ _) as [|b|x|rh|l|d']; try assumption.
    pose proof (shape_ok_get_room {| rooms := rooms s; rate_limiter := limiter |}
                  rh now H) as H1.
    destruct (_get_room _ _ _) as [[r|] s1]; cbn [snd] in *; [assumption|].
    apply shape_ok_save; [assumption|].
    apply negb_false_iff, Nat.eqb_eq in Hbad. subst n.
    cbn [json.len] in Hn. injection Hn as Hlen.
    unfold room_shape. cbn [room_hash mode created_at expires_at members messages].
    repeat split; try assumption; try reflexivity.
    + cbn [map fst]. apply NoDup_singleton.
    + constructor; [|constructor]. unfold member_ok. cbn [fst snd].
      rewrite length_take. split; [lia|]. vm_compute. lia.
    + constructor.
  - unfold handle_join_room.
    pose proof (shape_ok_get_room s h now H) as H1.
    destruct (_get_room s h now) as [[room|] s1] eqn:Hg; cbn [snd] in *; [|assumption].
    apply (get_room_shape _ _ _ _ _ H) in Hg
      as [-> ((Hh&Hlen&Hmode&Hexp&Hnd&Hmem&Hmsg)&Hlive)].
    subst h.
    destruct (default _ data) as [|b|x|str|l|d]; try assumption.
    destruct (json.slice_to _ _) as [nickname|] eqn:Hnick; [|assumption].
    apply shape_ok_save; [assumption|].
    unfold room_shape. cbn [room_hash mode created_at expires_at members messages].
    repeat split; try assumption.
    + apply set_NoDup, Hnd.
    + apply set_Forall; [exact Hmem|]. unfold member_ok. cbn [fst snd].
      rewrite length_take. split; [lia|].
      destruct (json.get d _ _) as [|b|x|n|l|d']; try discriminate;
        cbn [json.slice_to] in Hnick; injection Hnick as <-;
        rewrite length_take; lia.
  - unfold handle_send_message.
    pose proof (shape_ok_get_room s h now H) as H1.
    destruct (_get_room s h now) as [[room|] s1] eqn:Hg; cbn [snd] in *; [|assumption].
    apply (get_room_shape _ _ _ _ _ H) in Hg
      as [-> ((Hh&Hlen&Hmode&Hexp&Hnd&Hmem&Hmsg)&Hlive)].
    subst h.
    destruct data as [[|b|x|str|l|d]|]; try assumption.
    destruct (negb _) eqn:Hcont; [assumption|].
    destruct (resolve_sender _ _ _) as [sender|]; [|assumption]. cbn [snd].
    apply shape_ok_save; [assumption|].
    unfold room_shape. cbn [room_hash mode created_at expires_at members messages].
    repeat split; try assumption.
    rewrite trim_is_last_n. unfold last_n. apply Forall_drop, Forall_app.
    split; [exact Hmsg|]. constructor; [|constructor].
    unfold message_ok. cbn [relay.id content timestamp].
    rewrite length_take. split; [lia|]. split; [|exact Hstamp].
    now apply negb_false_iff in Hcont.
  - unfold handle_poll.
    pose proof (shape_ok_get_room s h now H) as H1.
    destruct (_get_room s h now) as [[room|] s1]; cbn [snd] in *; assumption.
  - unfold handle_leave.
    pose proof (shape_ok_get_room s h now H) as H1.
    destruct (_get_room s h now) as [[room|] s1] eqn:Hg; cbn [snd] in *; [|assumption].
    apply (get_room_shape _ _ _ _ _ H) in Hg
      as [-> ((Hh&Hlen&Hmode&Hexp&Hnd&Hmem&Hmsg)&Hlive)].
    subst h.
    destruct (_ && _); [|assumption].
    apply shape_ok_save; [assumption|].
    unfold room_shape. cbn [room_hash mode created_at expires_at members messages].
    repeat split; try assumption.
    + apply del_NoDup, Hnd.
    + apply del_Forall, Hmem.
  - unfold shape_ok, _cleanup_loop. cbn [rooms].
    intros h r [Hl _]%map_lookup_filter_Some. exact (H _ _ Hl).
Qed.

(** X14. Every room a reachable registry holds is stored under its own
    16-character hash, is in mode "fixed" whatever mode was asked for,
    expires 3600 s after its creation, has no member id twice, member ids
    of at most 8 characters with names that are strings or lists of at most
    20 entries, and only messages with an id of at most 12 characters, a
    truthy content and a positive timestamp. *)
Theorem reachable_room_shape (s : state) (h : list Z) (room : RoomData) :
  reachable s -> rooms s !! h = Some room -> room_shape h room.
Proof.
  intros Hr Hl. assert (H : shape_ok s).
  { clear Hl. induction Hr as [|s s' _ IH Hstep].
    - apply map_Forall_empty.
    - exact (step_shape _ _ IH Hstep). }
  exact (H _ _ Hl).
Qed.

(** X14 at the room of the examples after three sends. *)
Lemma reachable_room_shape_witness :
  room_shape a_room_hash
    {| room_hash := a_room_hash; mode := lit "fixed";
       created_at := 1700000000 # 1;
       expires_at := (1700000000 # 1) + ROOM_TTL;
       members := [(take 8 a_uuid, json.JStr (lit "creator"))];
       messages := map (message_of (members the_room)) (sends 3) |}.
Proof.
  apply (reachable_room_shape (snd (send_all one_room a_room_hash (sends 3)))).
  - apply send_all_reachable; [exact one_room_reachable|].
    repeat constructor.
  - vm_compute. reflexivity.
Defined.

End registry_facts.

(** ** The handlers, one after another *)

Module handler_facts.
Import relay SOSRelay registry num_facts examples relay_facts pydict_facts.
Import registry_facts limiter_runs limiter_facts.
Import shapes registry_shape relay_more.

Lemma get_room_expired (s : state) (h : list Z) (now : Q) (room : RoomData) :
  rooms s !! h = Some room -> ~ (now < expires_at room)%Q ->
  _get_room s h now = (None, without s h).
Proof.
  intros Hl Hx. unfold _get_room. rewrite Hl.
  apply Qlt_bool_false in Hx. rewrite Hx. reflexivity.
Qed.

Lemma get_room_absent (s : state) (h : list Z) (now : Q) :
  rooms s !! h = None -> _get_room s h now = (None, s).
Proof. intros Hl. unfold _get_room. rewrite Hl. reflexivity. Qed.

(** X15. A room whose time is up is gone for every request that names it:
    join, send, poll, leave and info answer 404 and the room is deleted,
    everything else is left as it was. *)
Theorem expired_room_is_gone (s : state) (h : list Z) (room : RoomData)
    (now : Q) :
  rooms s !! h = Some room -> ~ (now < expires_at room)%Q ->
  let gone := (json_response (Error (lit "room_not_found")) 404, without s h) in
  (forall ip data uuid, handle_join_room s ip h data now uuid = gone)
  /\ (forall data stamp uuid,
        handle_send_message s h data now stamp uuid = gone)
  /\ (forall since, handle_poll s h since now = gone)
  /\ (forall member_id, handle_leave s h member_id now = gone)
  /\ handle_info s h now = ((404, NoRoom), without s h).
Proof.
  intros Hl Hx gone. subst gone.
  pose proof (get_room_expired s h now room Hl Hx) as Hg.
  unfold handle_join_room, handle_send_message, handle_poll, handle_leave,
    handle_info. rewrite Hg. repeat split.
Qed.

Lemma expired_room_is_gone_witness :
  let now := (1700003600 # 1)%Q in
  let gone := (json_response (Error (lit "room_not_found")) 404,
               without one_room a_room_hash) in
  (forall ip data uuid, handle_join_room one_room ip a_room_hash data now uuid
                        = gone)
  /\ (forall data stamp uuid,
        handle_send_message one_room a_room_hash data now stamp uuid = gone)
  /\ (forall since, handle_poll one_room a_room_hash since now = gone)
  /\ (forall member_id, handle_leave one_room a_room_hash member_id now = gone)
  /\ handle_info one_room a_room_hash now
     = ((404, NoRoom), without one_room a_room_hash).
Proof.
  apply (expired_room_is_gone one_room a_room_hash the_room
           (1700003600 # 1)%Q).
  - reflexivity.
  - vm_compute. intros H. discriminate H.
Defined.

(** X16. A permitted create request with a 16-character hash: a room that
    is alive under that hash is left alone and the answer is 409; otherwise
    the answer is 200 and the hash now names a new room, created at the
    clock reading, with an empty log and the creator as only member, also
    where a room whose time was up stood before. *)
Theorem create_room_outcomes (s : state) (ip h : list Z)
    (d : list (list Z * json.value)) (checked now : Q) (uuid : list Z) :
  fst (fst (RateLimiter.check (rate_limiter s) ip checked)) = true ->
  length h = 16%nat ->
  json.get d (lit "room_hash") json.JNull = json.JStr h ->
  let out := handle_create_room s ip (Some (json.JObj d)) checked now uuid in
  let alive := exists room, rooms s !! h = Some room
                            /\ (now < expires_at room)%Q in
  (alive -> status (fst out) = 409 /\ rooms (snd out) = rooms s)
  /\ (~ alive ->
      status (fst out) = 200
      /\ rooms (snd out)
         = <[h := {| room_hash := h; relay.mode := lit "fixed";
                     created_at := now; expires_at := (now + ROOM_TTL)%Q;
                     members := [(take 8 uuid, json.JStr (lit "creator"))];
                     messages := [] |}]> (rooms s)).
Proof.
  intros Hok Hlen Hd out alive. subst out alive. unfold handle_create_room.
  destruct (RateLimiter.check _ _ _) as [[allowed retry] limiter].
  cbn [fst] in Hok. subst allowed. cbn [negb]. rewrite Hd. clear Hd.
  destruct h as [|c h]; [discriminate Hlen|].
  cbn [json.truthy json.len truthy_str negb]. rewrite Hlen. cbn [Nat.eqb negb].
  rewrite bool_decide_eq_true_2 by (apply list_elem_of_singleton; reflexivity).
  cbn [negb]. set (s0 := {| rooms := rooms s; rate_limiter := limiter |}).
  split.
  - intros (room & Hl & Hlive).
    rewrite (get_room_live s0 _ now room Hl Hlive). split; reflexivity.
  - intros Hdead. destruct (rooms s !! (c :: h)) as [room|] eqn:Hl.
    + assert (Hx : ~ (now < expires_at room)%Q) by (intros Hl'; apply Hdead; eauto).
      rewrite (get_room_expired s0 _ now room Hl Hx).
      split; [reflexivity|]. unfold _save_room, without.
      cbn [rooms room_hash]. apply insert_delete_eq.
    + rewrite (get_room_absent s0 _ now Hl). split; reflexivity.
Qed.

Lemma create_room_outcomes_witness :
  let out := handle_create_room one_room an_ip
               (Some (json.JObj [(lit "room_hash", json.JStr a_room_hash)]))
               (1700003600 # 1) (1700003600 # 1) a_uuid in
  let alive := exists room, rooms one_room !! a_room_hash = Some room
                            /\ ((1700003600 # 1) < expires_at room)%Q in
  (alive -> status (fst out) = 409 /\ rooms (snd out) = rooms one_room)
  /\ (~ alive ->
      status (fst out) = 200
      /\ rooms (snd out)
         = <[a_room_hash :=
               {| room_hash := a_room_hash; relay.mode := lit "fixed";
                  created_at := 1700003600 # 1;
                  expires_at := ((1700003600 # 1) + ROOM_TTL)%Q;
                  members := [(take 8 a_uuid, json.JStr (lit "creator"))];
                  messages := [] |}]> (rooms one_room)).
Proof.
  apply (create_room_outcomes one_room an_ip a_room_hash
           [(lit "room_hash", json.JStr a_room_hash)]
           (1700003600 # 1) (1700003600 # 1) a_uuid).
  - vm_compute. reflexivity.
  - reflexivity.
  - reflexivity.
Defined.











(** X20. Waiting one second longer than the 429 answer says is always
    enough: if an attempt at [now] is denied with [retry_after], an attempt
    of the same address at any reading from [now + retry_after + 1] on is
    permitted. *)
Theorem retry_after_plus_one_suffices (attempts : gmap (list Z) Attempt)
    (ip : list Z) (now now' : Q) (retry_after : Z) :
  fst (RateLimiter.check attempts ip now) = (false, retry_after) ->
  (now + inject_Z (retry_after + 1) <= now')%Q ->
  snd (RateLimiter.check attempts ip now) = attempts
  /\ fst (RateLimiter.check attempts ip now') = (true, 0).
Proof.
  intros H Hwait. destruct (attempts !! ip) as [data|] eqn:Hl.
  2:{ rewrite (check_first _ _ _ Hl) in H. discriminate. }
  destruct (Qlt_le_dec RATE_LIMIT_COOLDOWN (now - last_attempt data)) as [Hc|Hc].
  { rewrite (check_cooled _ _ _ _ Hl Hc) in H. discriminate. }
  apply Qle_not_lt in Hc.
  destruct (Qlt_le_dec (now - last_attempt data)
              (inject_Z (required_delay (count data)))) as [Hd|Hd].
  2:{ rewrite (check_waited _ _ _ _ Hl Hc Hd) in H. discriminate. }
  pose proof Hd as Hd'. apply Qlt_not_le in Hd'.
  rewrite (check_denied _ _ _ _ Hl Hc Hd') in H |- *.
  cbn [fst snd] in H |- *. injection H as H. split; [reflexivity|].
  set (remaining := (inject_Z (required_delay (count data))
                     - (now - last_attempt data))%Q) in *.
  assert (Hpos : (0 <= remaining)%Q) by (subst remaining; lra).
  rewrite (py_int_floor _ Hpos) in H.
  pose proof (Qlt_floor remaining) as Hf. rewrite H in Hf.
  rewrite inject_Z_plus in Hf, Hwait.
  change (inject_Z 1) with 1%Q in Hf, Hwait.
  destruct (Qlt_le_dec RATE_LIMIT_COOLDOWN (now' - last_attempt data)) as [Hc'|Hc'].
  { rewrite (check_cooled _ _ _ _ Hl Hc'). reflexivity. }
  apply Qle_not_lt in Hc'.
  rewrite (check_waited _ _ _ _ Hl Hc'); [reflexivity|].
  subst remaining. lra.
Qed.

Lemma retry_after_plus_one_suffices_witness :
  snd (RateLimiter.check
         (snd (run_checks ∅ an_ip [100 # 1; 105 # 1]%Q)) an_ip (221 # 2))
  = snd (run_checks ∅ an_ip [100 # 1; 105 # 1]%Q)
  /\ fst (RateLimiter.check
            (snd (run_checks ∅ an_ip [100 # 1; 105 # 1]%Q)) an_ip (231 # 2))
     = (true, 0).
Proof.
  apply (retry_after_plus_one_suffices
           (snd (run_checks ∅ an_ip [100 # 1; 105 # 1]%Q)) an_ip
           (221 # 2) (231 # 2) 4).
  - vm_compute. reflexivity.
  - vm_compute. discriminate.
Defined.

End handler_facts.

(** ** The address the rate limiter counts by *)

Module client_ip_facts.
Import relay SOSRelay registry num_facts examples relay_facts.
Import limiter_runs limiter_facts handler_facts.
Import shapes pylib relay_more.

Lemma rev_ones (n : nat) : rev (repeat 49 n) = repeat 49 n.
Proof.
  induction n as [|n IH]; [reflexivity|].
  cbn [repeat rev]. rewrite IH. symmetry. apply repeat_cons.
Qed.

Lemma strip_ones (n : nat) : strip (repeat 49 (S n)) = repeat 49 (S n).
Proof.
  unfold strip. change (lstrip (repeat 49 (S n))) with (repeat 49 (S n)).
  rewrite rev_ones. change (lstrip (repeat 49 (S n))) with (repeat 49 (S n)).
  apply rev_ones.
Qed.

Lemma before_comma_ones (n : nat) : before_comma (repeat 49 n) = repeat 49 n.
Proof. induction n as [|n IH]; [reflexivity|]. cbn. rewrite IH. reflexivity. Qed.

(** A string of ones longer than every key is not a key. *)
Lemma longer_is_fresh {V} (m : gmap (list Z) V) :
  exists n, m !! repeat 49 (S n) = None.
Proof.
  exists (max_list ((fun kv => length kv.1) <$> map_to_list m)).
  destruct (m !! _) as [v|] eqn:Hl; [|reflexivity]. exfalso.
  apply elem_of_map_to_list in Hl.
  apply (list_elem_of_fmap_2 (fun kv => length kv.1)) in Hl.
  apply max_list_elem_of_le in Hl. cbn [fst] in Hl.
  rewrite repeat_length in Hl. lia.
Qed.

Lemma allowed_is_not_429 (s : state) (ip : list Z) (data : option json.value)
    (checked now : Q) (uuid : list Z) :
  fst (fst (RateLimiter.check (rate_limiter s) ip checked)) = true ->
  status (fst (handle_create_room s ip data checked now uuid)) <> 429.
Proof.
  intros Hok.
  pose proof (create_room_allowed s ip data checked now uuid Hok) as H.
  cbv zeta in H. destruct H as (Hnone&Hbad&Hraise&Hvalid).
  destruct data as [v|]; [|rewrite Hnone by reflexivity; discriminate].
  destruct (create_body_classes v) as [H|[H|(d&h&->&H1&H2)]].
  - rewrite (Hbad v eq_refl H). discriminate.
  - rewrite (Hraise v eq_refl H). discriminate.
  - destruct (Hvalid d h eq_refl H1 H2) as [E|E]; rewrite E; discriminate.
Qed.

(** X21. The rate limiter counts by what the request says about itself:
    for every state of the relay there is an X-Forwarded-For value under
    which a create request is not answered 429, whatever the other headers,
    the peer address, the body and the clock are. *)
Theorem forwarded_header_evades_limiter (s : state) :
  exists xff,
    forall r data checked now uuid,
      x_forwarded_for r = Some xff ->
      status (fst (handle_create_room s (_get_client_ip r) data checked now
                     uuid))
      <> 429.
Proof.
  destruct (longer_is_fresh (rate_limiter s)) as [n Hn].
  exists (repeat 49 (S n)). intros r data checked now uuid Hx.
  apply allowed_is_not_429. unfold _get_client_ip. rewrite Hx.
  cbn [truthy_opt_str truthy_str repeat default from_option Datatypes.id].
  change (49 :: repeat 49 n) with (repeat 49 (S n)).
  rewrite before_comma_ones, strip_ones.
  rewrite (check_first _ _ _ Hn). reflexivity.
Qed.

End client_ip_facts.

(** ** The transport: polling, the offline queue, leaving *)

Module loop_facts.
Import transport transport_loop session num_facts transport_facts.
Import shapes.

Lemma max_timestamp_spec (first : Message) (rest : list Message) :
  let M := max_timestamp first rest in
  (exists m, m ∈ first :: rest /\ M = timestamp m)
  /\ Forall (fun m => (timestamp m <= M)%Q) (first :: rest).
Proof.
  cbv zeta. unfold max_timestamp.
  assert (G : forall acc,
             let M := fold_left (fun acc m => if Qlt_bool acc (timestamp m)
                                              then timestamp m else acc)
                        rest acc in
             (M = acc \/ exists m, m ∈ rest /\ M = timestamp m)
             /\ (acc <= M)%Q /\ Forall (fun m => (timestamp m <= M)%Q) rest).
  { induction rest as [|x rest IH]; intros acc; cbn [fold_left].
    - split; [left; reflexivity|]. split; [apply Qle_refl|constructor].
    - destruct (Qlt_bool acc (timestamp x)) eqn:E.
      + destruct (IH (timestamp x)) as (Hin & Hle & Hall).
        apply Qlt_bool_iff in E. split; [|split].
        * right. destruct Hin as [->|(m & Hm & ->)].
          -- exists x. split; [left|reflexivity].
          -- exists m. split; [right; exact Hm|reflexivity].
        * lra.
        * constructor; assumption.
      + destruct (IH acc) as (Hin & Hle & Hall).
        apply Qlt_bool_false in E. split; [|split].
        * destruct Hin as [->|(m & Hm & ->)]; [left; reflexivity|].
          right. exists m. split; [right; exact Hm|reflexivity].
        * exact Hle.
        * constructor; [lra|exact Hall]. }
  destruct (G (timestamp first)) as (Hin & Hle & Hall). split.
  - destruct Hin as [E|(m & Hm & E)].
    + exists first. split; [left|exact E].
    + exists m. split; [right; exact Hm|exact E].
  - constructor; assumption.
Qed.

(** X22. A poll answered 200 returns the messages of the body and moves
    [last_message_ts] to the greatest of their timestamps: it is the
    timestamp of one of them and none is later; with no message in the body
    it stays. The state, the room and the queue are untouched. *)
Theorem poll_moves_last_message_ts (t : SOSTransport) (data : poll_json)
    (messages : list Message) (now : Q) :
  truthy_opt_str (room_hash t) = true -> is_Some (client t) ->
  from_dicts (default [] (pj_messages data)) = Ok messages ->
  let '(r, t', _) := poll_messages t (Response 200 data) now in
  r = Ok messages
  /\ (messages = [] -> t' = t)
  /\ (messages <> [] ->
      (exists m, m ∈ messages /\ last_message_ts t' = timestamp m)
      /\ Forall (fun m => (timestamp m <= last_message_ts t')%Q) messages)
  /\ state t' = state t /\ room_hash t' = room_hash t
  /\ member_id t' = member_id t
  /\ _pending_messages t' = _pending_messages t.
Proof.
  intros Hh Hc Hm. unfold poll_messages. rewrite Hh.
  rewrite bool_decide_eq_true_2 by exact Hc. cbn [negb orb Z.eqb Pos.eqb].
  rewrite Hm. destruct messages as [|m ms].
  - split; [reflexivity|]. split; [intros _; reflexivity|].
    split; [congruence|]. repeat split.
  - cbn [last_message_ts with_session state room_hash member_id
         _pending_messages].
    split; [reflexivity|]. split; [discriminate|].
    split; [|repeat split].
    intros _. apply max_timestamp_spec.
Qed.

Lemma poll_moves_last_message_ts_witness :
  let data := {| pj_messages :=
                   Some [ {| mj_id := Some (lit "m1"); mj_sender := Some (lit "anon");
                             mj_content := Some (lit "QUJD");
                             mj_timestamp := Some (1700000007 # 1) |};
                          {| mj_id := Some (lit "m2"); mj_sender := Some (lit "anon");
                             mj_content := Some (lit "QUJE");
                             mj_timestamp := Some (1700000005 # 1) |} ];
                 pj_members := None; pj_expires_at := None |} in
  let messages := [ {| id := lit "m1"; sender := lit "anon";
                       content := lit "QUJD"; timestamp := 1700000007 # 1 |};
                    {| id := lit "m2"; sender := lit "anon";
                       content := lit "QUJE"; timestamp := 1700000005 # 1 |} ] in
  let t := more_examples.a_transport in
  let '(r, t', _) := poll_messages t (Response 200 data) (1700000010 # 1) in
  r = Ok messages
  /\ (messages = [] -> t' = t)
  /\ (messages <> [] ->
      (exists m, m ∈ messages /\ last_message_ts t' = timestamp m)
      /\ Forall (fun m => (timestamp m <= last_message_ts t')%Q) messages)
  /\ state t' = state t /\ room_hash t' = room_hash t
  /\ member_id t' = member_id t
  /\ _pending_messages t' = _pending_messages t.
Proof.
  intros data messages t.
  apply (poll_moves_last_message_ts t data messages (1700000010 # 1)).
  - reflexivity.
  - eexists. reflexivity.
  - reflexivity.
Defined.

(** *** The offline queue *)

Lemma send_online_answered (t : SOSTransport) (h content sender : list Z)
    (code : Z) (now : Q) :
  online t h ->
  send_message t content sender (Response code tt) now
  = (code =? 200, t,
     [Http (POST_send h content sender (member_id t))]).
Proof.
  intros (Hh & Hne & Hc & Hs). unfold send_message.
  rewrite Hh. destruct h as [|x h]; [congruence|].
  cbn [truthy_opt_str truthy_str negb].
  rewrite bool_decide_eq_true_2 by exact Hc. rewrite Hs. reflexivity.
Qed.

Lemma flush_online (h : list Z) (q : list pending) :
  forall (t : SOSTransport) (inputs : list (Q * reply unit)),
    online t h -> _pending_messages t = q ->
    length inputs = length q -> Forall answered inputs ->
    _flush_pending t inputs
    = (true, with_pending t [],
       map (fun pi => flushed t h pi.1) (filter (fun pi => young pi = true)
                                            (zip q inputs))).
Proof.
  induction q as [|p q IH]; intros t inputs Hon Hq Hlen Hans.
  - destruct inputs; [|discriminate Hlen]. cbn. rewrite Hq.
    destruct t; cbn in *; subst; reflexivity.
  - destruct inputs as [|[now http] inputs]; [discriminate Hlen|].
    cbn [_flush_pending]. rewrite Hq.
    apply Forall_cons in Hans as [Ha Hans]. unfold answered in Ha.
    cbn [snd] in Ha. destruct http as [code []|]; [|contradiction].
    assert (Hon' : online (with_pending t q) h) by exact Hon.
    cbn [zip zip_with]. rewrite filter_cons.
    destruct (decide (young (p, (now, Response code ())) = true)) as [Hy|Hy].
    + pose proof Hy as Hy'. unfold young in Hy'. cbn [fst snd] in Hy'.
      rewrite Hy'.
      rewrite (send_online_answered _ h _ _ code now Hon').
      rewrite (IH (with_pending t q) inputs Hon' eq_refl
                 ltac:(cbn in Hlen; lia) Hans).
      reflexivity.
    + pose proof Hy as Hy'. apply not_true_is_false in Hy'.
      unfold young in Hy'. cbn [fst snd] in Hy'. rewrite Hy'.
      rewrite (IH (with_pending t q) inputs Hon' eq_refl
                 ltac:(cbn in Hlen; lia) Hans).
      reflexivity.
Qed.

(** X23. Flushing while online, every request being answered: the loop
    ends with the queue empty; each queued message younger than 300 s was
    posted once to the current room, in queue order, the older ones were
    dropped; no answer, whatever its status code, puts a message back. *)
Theorem flush_empties_the_queue (t : SOSTransport) (h : list Z)
    (inputs : list (Q * reply unit)) :
  online t h ->
  length inputs = length (_pending_messages t) ->
  Forall answered inputs ->
  _flush_pending t inputs
  = (true, with_pending t [],
     map (fun pi => flushed t h pi.1)
       (filter (fun pi => young pi = true) (zip (_pending_messages t) inputs))).
Proof.
  intros Hon Hlen Hans. exact (flush_online h _ t inputs Hon eq_refl Hlen Hans).
Qed.

Lemma flush_empties_the_queue_witness :
  let t := more_examples.a_queued_transport in
  let inputs := [((1700000100 # 1)%Q, Response 200 tt);
                 ((1700000101 # 1)%Q, Response 500 tt)] in
  _flush_pending t inputs
  = (true, with_pending t [],
     map (fun pi => flushed t examples.a_room_hash pi.1)
       (filter (fun pi => young pi = true) (zip (_pending_messages t) inputs))).
Proof.
  intros t inputs.
  apply (flush_empties_the_queue t examples.a_room_hash inputs).
  - repeat split; [vm_compute; discriminate|eexists; reflexivity].
  - reflexivity.
  - repeat constructor.
Defined.

Lemma enqueue_offline (t : SOSTransport) (q : list pending)
    (content sender : list Z) (now : Q) :
  offline t -> offline (enqueue (with_pending t q) content sender now).
Proof. intros H. exact H. Qed.

Lemma send_offline (t : SOSTransport) (content sender : list Z)
    (http : reply unit) (now : Q) :
  offline t ->
  send_message t content sender http now
  = (false, enqueue t content sender now, []).
Proof.
  intros [Hh Hoff]. unfold send_message. rewrite Hh. cbn [negb].
  destruct Hoff as [Hc|Hs].
  - rewrite Hc. rewrite bool_decide_eq_false_2; [reflexivity|].
    intros [x Hx]. discriminate Hx.
  - replace (state_eqb (state t) CONNECTED) with false.
    + rewrite orb_true_r. reflexivity.
    + destruct (state t); try reflexivity. congruence.
Qed.

Lemma flush_offline (lo : Q) (inputs : list (Q * reply unit)) :
  forall t : SOSTransport,
    offline t -> _pending_messages t <> [] ->
    Forall (fun p => (lo <= queued_at p)%Q) (_pending_messages t) ->
    Forall (fun i => (lo <= i.1 /\ i.1 < lo + 300)%Q) inputs ->
    exists t',
      _flush_pending t inputs = (false, t', [])
      /\ offline t'
      /\ length (_pending_messages t') = length (_pending_messages t)
      /\ state t' = state t /\ client t' = client t
      /\ room_hash t' = room_hash t.
Proof.
  induction inputs as [|[now http] inputs IH]; intros t Hoff Hne Hq Hin.
  - exists t. cbn [_flush_pending].
    destruct (_pending_messages t); [congruence|].
    split; [reflexivity|]. split; [exact Hoff|]. repeat split.
  - cbn [_flush_pending].
    destruct (_pending_messages t) as [|p q] eqn:Eq; [congruence|].
    apply Forall_cons in Hq as [Hp Hq]. apply Forall_cons in Hin as [Hi Hin].
    cbn [fst] in Hi.
    replace (Qlt_bool (now - queued_at p) 300) with true
      by (symmetry; apply Qlt_bool_iff; lra).
    rewrite (send_offline (with_pending t q) _ _ http now Hoff).
    destruct (IH (enqueue (with_pending t q) (p_content p) (p_sender p) now))
      as (t' & E & Hoff' & Hlen & Hs & Hc & Hh).
    + exact Hoff.
    + cbn [enqueue with_pending _pending_messages]. destruct q; discriminate.
    + cbn [enqueue with_pending _pending_messages]. apply Forall_app.
      split; [exact Hq|]. constructor; [|constructor]. cbn [queued_at]. lra.
    + exact Hin.
    + exists t'. rewrite E. split; [reflexivity|]. split; [exact Hoff'|].
      split; [|split; [exact Hs|split; [exact Hc|exact Hh]]].
      rewrite Hlen. cbn [enqueue with_pending _pending_messages].
      rewrite length_app. cbn. lia.
Qed.

(** X24. Flushing while not connected never ends: with a room set, the
    queue not empty and the clock staying within 300 s of the oldest entry,
    every pass takes the first message and puts it back at the end with a
    new time stamp; after any number of passes the loop is still running,
    nothing has been sent and the queue is as long as before. *)
Theorem flush_offline_never_ends (t : SOSTransport) (lo : Q)
    (inputs : list (Q * reply unit)) :
  offline t -> _pending_messages t <> [] ->
  Forall (fun p => (lo <= queued_at p)%Q) (_pending_messages t) ->
  Forall (fun i => (lo <= i.1 /\ i.1 < lo + 300)%Q) inputs ->
  exists t',
    _flush_pending t inputs = (false, t', [])
    /\ length (_pending_messages t') = length (_pending_messages t)
    /\ state t' = state t.
Proof.
  intros Hoff Hne Hq Hin.
  destruct (flush_offline lo inputs t Hoff Hne Hq Hin)
    as (t' & E & _ & Hlen & Hs & _).
  exists t'. auto.
Qed.

Lemma flush_offline_never_ends_witness :
  let t := with_state more_examples.a_queued_transport RECONNECTING in
  let inputs := [((1699999100 # 1)%Q, Response 200 tt);
                 ((1699999101 # 1)%Q, RequestError);
                 ((1699999102 # 1)%Q, Response 200 tt)] in
  exists t',
    _flush_pending t inputs = (false, t', [])
    /\ length (_pending_messages t') = length (_pending_messages t)
    /\ state t' = state t.
Proof.
  intros t inputs.
  apply (flush_offline_never_ends t (1699999000 # 1)%Q inputs).
  - split; [reflexivity|]. right. discriminate.
  - discriminate.
  - repeat constructor; vm_compute; discriminate.
  - repeat constructor; vm_compute; congruence.
Defined.

(** *** The polling loop *)

Lemma idle_pass (t : SOSTransport) (i : pass_input) :
  state t = ERROR \/ state t = DISCONNECTED \/ state t = CONNECTING ->
  _poll_pass t i = Some (t, [Sleep POLL_INTERVAL]).
Proof.
  intros [H|[H|H]]; unfold _poll_pass; rewrite H; reflexivity.
Qed.

Lemma idle_loop (t : SOSTransport) (inputs : list pass_input) :
  state t = ERROR \/ state t = DISCONNECTED \/ state t = CONNECTING ->
  exists e, _poll_loop t inputs = Some (t, e)
            /\ Forall (fun x => ~ is_request x) e.
Proof.
  intros H. induction inputs as [|i inputs (e & IH & He)].
  - exists []. split; [reflexivity|constructor].
  - cbn [_poll_loop]. destruct (_running t).
    + rewrite (idle_pass t i H). cbn [mbind option_bind]. rewrite IH.
      cbn [mbind option_bind]. eexists. split; [reflexivity|].
      constructor; [intros []|exact He].
    + exists []. split; [reflexivity|constructor].
Qed.

Lemma set_state_no_request (t : SOSTransport) (s : ConnectionState) :
  Forall (fun x => ~ is_request x) (map Inner (snd (_set_state t s))).
Proof.
  unfold _set_state. destruct (negb _); [|constructor]. cbn [snd].
  destruct (on_state_change t); repeat constructor. intros [].
Qed.

(** X25. One failed reconnection is final: when the loop, in state
    Reconnecting, gets no client from [connect], it doubles the backoff
    (capped at 30 s) and leaves the transport in state Error; every later
    pass only sleeps, so that whatever follows, the loop makes no request
    and the transport stays as that pass left it. *)
Theorem failed_reconnect_is_final (t : SOSTransport) (i : pass_input)
    (rest : list pass_input) :
  state t = RECONNECTING -> _running t = true -> made i = None ->
  exists t' e,
    _poll_loop t (i :: rest) = Some (t', e)
    /\ state t' = ERROR
    /\ _backoff t' = (if Qlt_bool BACKOFF_MAX (_backoff t * BACKOFF_MULTIPLIER)
                      then BACKOFF_MAX
                      else (_backoff t * BACKOFF_MULTIPLIER)%Q)
    /\ same_session t t'
    /\ _pending_messages t' = _pending_messages t
    /\ Forall (fun x => ~ is_request x) e.
Proof.
  intros Hs Hrun Hmade. cbn [_poll_loop]. rewrite Hrun.
  unfold _poll_pass. rewrite Hs, Hmade. unfold connect.
  pose proof (set_state_no_request t CONNECTING) as He1.
  destruct (_set_state t CONNECTING) as [t1 e1] eqn:E1.
  assert (H1 : t1 = with_state t CONNECTING).
  { unfold _set_state in E1. rewrite Hs in E1. cbn in E1. congruence. }
  pose proof (set_state_no_request t1 ERROR) as He2.
  destruct (_set_state t1 ERROR) as [t2 e2] eqn:E2.
  assert (H2 : t2 = with_state t ERROR).
  { unfold _set_state in E2. rewrite H1 in E2. cbn in E2.
    injection E2 as <- _. reflexivity. }
  cbn [snd] in He1, He2. cbn [mbind option_bind].
  set (t3 := with_client t2 (client t2) _).
  destruct (idle_loop t3 rest) as (e & El & He).
  { left. subst t3 t2. reflexivity. }
  rewrite El. cbn [mbind option_bind].
  exists t3, (map Inner (e1 ++ e2) ++ [Sleep (_backoff t2); Sleep POLL_INTERVAL]
              ++ e).
  split; [rewrite <- app_assoc; reflexivity|].
  subst t3 t2. cbn [state with_client with_state _backoff client].
  split; [reflexivity|]. split; [reflexivity|].
  split; [repeat split|]. split; [reflexivity|].
  rewrite map_app. repeat (apply Forall_app; split); try assumption.
  repeat constructor; intros [].
Qed.

Lemma failed_reconnect_is_final_witness :
  let t := with_running (with_state more_examples.a_queued_transport
                           RECONNECTING) true in
  let i := {| poll_reply := RequestError; flush_inputs := [];
              made := None; now := 1700000100 # 1 |} in
  let rest := [ {| poll_reply := RequestError; flush_inputs := [];
                   made := Some Direct; now := 1700000102 # 1 |} ] in
  exists t' e,
    _poll_loop t (i :: rest) = Some (t', e)
    /\ state t' = ERROR
    /\ _backoff t' = (if Qlt_bool BACKOFF_MAX (_backoff t * BACKOFF_MULTIPLIER)
                      then BACKOFF_MAX
                      else (_backoff t * BACKOFF_MULTIPLIER)%Q)
    /\ same_session t t'
    /\ _pending_messages t' = _pending_messages t
    /\ Forall (fun x => ~ is_request x) e.
Proof.
  intros t i rest.
  apply (failed_reconnect_is_final t i rest); reflexivity.
Defined.

(** X26. Leaving ends the session whatever state the transport is in and
    whatever becomes of the leave request: afterwards the transport is
    Disconnected with no room, no member id and no client, it has stopped
    running, and [send_message] and [poll_messages] make no request and
    change nothing; the offline queue and [last_message_ts] are kept. *)
Theorem leave_room_ends_the_session (t : SOSTransport) :
  let t' := fst (leave_room t) in
  state t' = DISCONNECTED
  /\ room_hash t' = None /\ member_id t' = None /\ client t' = None
  /\ _running t' = false
  /\ _pending_messages t' = _pending_messages t
  /\ last_message_ts t' = last_message_ts t
  /\ (forall content sender http now,
        send_message t' content sender http now = (false, t', []))
  /\ (forall http now, poll_messages t' http now = (Ok [], t', [])).
Proof.
  destruct t as [st cl rh mid ts om osc omu ore run q b].
  destruct cl, st, osc; repeat split.
Qed.

(** X27. The offline queue outlives the room: messages queued for one
    room and still there at [leave_room] are, after a successful
    [join_room] of another room, posted to that other room by the next
    flush, under the new member id. *)
Theorem queue_goes_to_the_next_room (t : SOSTransport)
    (h nickname : list Z) (c : client_kind) (data : room_json)
    (inputs : list (Q * reply unit)) :
  h <> [] ->
  length inputs = length (_pending_messages t) ->
  Forall answered inputs ->
  let t1 := fst (leave_room t) in
  let t2 := snd (fst (join_room t1 h nickname (Some c) (Response 200 data))) in
  _flush_pending t2 inputs
  = (true, with_pending t2 [],
     map (fun pi => Http (POST_send h (p_content pi.1) (p_sender pi.1)
                            (rj_member_id data)))
       (filter (fun pi => young pi = true) (zip (_pending_messages t) inputs))).
Proof.
  intros Hh Hlen Hans t1 t2.
  assert (Hon : online t2 h /\ _pending_messages t2 = _pending_messages t
                /\ member_id t2 = rj_member_id data).
  { subst t2 t1. destruct t as [st cl rh mid ts om osc omu ore run q b].
    destruct cl, st, osc; (split; [|split; reflexivity]);
      (split; [reflexivity|]); (split; [exact Hh|]);
      (split; [eexists; reflexivity|reflexivity]). }
  destruct Hon as (Hon & Hq & Hm).
  rewrite (flush_online h _ t2 inputs Hon Hq Hlen Hans).
  unfold flushed. rewrite Hm. reflexivity.
Qed.

Lemma queue_goes_to_the_next_room_witness :
  let t := more_examples.a_queued_transport in
  let h := lit "ffeeddccbbaa9988" in
  let data := {| rj_member_id := Some (lit "0a0b0c0d"); rj_mode := Some (lit "fixed");
                 rj_created_at := Some (1700000050 # 1);
                 rj_expires_at := Some (1700003650 # 1);
                 rj_members := None; rj_message_count := None;
                 rj_last_message_ts := None; rj_retry_after := None |} in
  let inputs := [((1700000100 # 1)%Q, Response 200 tt);
                 ((1700000101 # 1)%Q, Response 200 tt)] in
  let t1 := fst (leave_room t) in
  let t2 := snd (fst (join_room t1 h (lit "anon") (Some Direct)
                        (Response 200 data))) in
  _flush_pending t2 inputs
  = (true, with_pending t2 [],
     map (fun pi => Http (POST_send h (p_content pi.1) (p_sender pi.1)
                            (rj_member_id data)))
       (filter (fun pi => young pi = true) (zip (_pending_messages t) inputs))).
Proof.
  intros t h data inputs.
  apply (queue_goes_to_the_next_room t h (lit "anon") Direct data inputs).
  - vm_compute. discriminate.
  - reflexivity.
  - repeat constructor.
Defined.

End loop_facts.

(** ** The room-id input *)

Module otp_facts.
Import EmojiOTPInput otp_runs pylib.

Lemma setitem_in_range {A} (l : list A) (i : Z) (v : A) :
  0 <= i < Z.of_nat (length l) ->
  setitem l i v = Some (<[Z.to_nat i := v]> l).
Proof.
  intros H. unfold setitem.
  replace ((0 <=? i) && (i <? Z.of_nat (length l))) with true; [reflexivity|].
  symmetry. apply andb_true_iff. split; [apply Z.leb_le|apply Z.ltb_lt]; lia.
Qed.

Lemma forallb_truthy (l : list (list Z)) :
  forallb truthy_str l = true <-> Forall (fun e => e <> []) l.
Proof.
  rewrite forallb_forall, Forall_forall. split; intros H e He.
  - apply list_elem_of_In, H in He. destruct e; [discriminate|congruence].
  - apply list_elem_of_In, H in He. destruct e; [congruence|reflexivity].
Qed.

(** X28. The room-id input keeps its shape: from a widget with six boxes
    and the selection on one of them, no handler raises and each leaves
    six boxes and the selection on one of them; and a pick posts
    RoomIDComplete only when it is made in the last box and all six boxes
    are filled, with the six emojis shown. *)
Theorem otp_input_keeps_its_shape (w : widget) :
  well_formed w ->
  (forall e, exists w' post,
     on_emoji_selected w e = Some (w', post)
     /\ well_formed w'
     /\ (forall p, post = Some p ->
           current_box w = 5 /\ p = emojis w' /\ Forall (fun x => x <> []) p))
  /\ well_formed (action_next_box w)
  /\ well_formed (action_prev_box w)
  /\ (exists w', action_clear_current w = Some w' /\ well_formed w')
  /\ well_formed (clear w).
Proof.
  intros [Hlen Hbox]. split; [|split; [|split; [|split]]].
  - intros e. unfold on_emoji_selected.
    replace ((0 <=? current_box w) && (current_box w <? 6)) with true
      by (symmetry; apply andb_true_iff; split;
          [apply Z.leb_le|apply Z.ltb_lt]; lia).
    rewrite setitem_in_range by (rewrite Hlen; lia). cbn [mbind option_bind].
    destruct (Z.ltb_spec (current_box w) 5) as [H5|H5].
    + eexists _, _. split; [reflexivity|]. split.
      * split; cbn [emojis current_box]; [rewrite length_insert; exact Hlen|lia].
      * intros p [=].
    + eexists _, _. split; [reflexivity|]. split.
      * split; cbn [emojis current_box]; [rewrite length_insert; exact Hlen|lia].
      * intros p Hp. cbn [emojis].
        destruct (forallb truthy_str _) eqn:Hall; [|discriminate Hp].
        injection Hp as <-. split; [lia|]. split; [reflexivity|].
        apply forallb_truthy, Hall.
  - unfold action_next_box. destruct (Z.ltb_spec (current_box w) 5);
      split; cbn [emojis current_box]; (assumption || lia).
  - unfold action_prev_box. destruct (Z.ltb_spec 0 (current_box w));
      split; cbn [emojis current_box]; (assumption || lia).
  - unfold action_clear_current.
    rewrite setitem_in_range by (rewrite Hlen; lia). cbn [mbind option_bind].
    eexists. split; [reflexivity|].
    split; cbn [emojis current_box]; [rewrite length_insert; exact Hlen|lia].
  - split; cbn; [reflexivity|lia].
Qed.

Lemma otp_input_keeps_its_shape_witness :
  (forall e, exists w' post,
     on_emoji_selected init e = Some (w', post)
     /\ well_formed w'
     /\ (forall p, post = Some p ->
           current_box init = 5 /\ p = emojis w'
           /\ Forall (fun x => x <> []) p))
  /\ well_formed (action_next_box init)
  /\ well_formed (action_prev_box init)
  /\ (exists w', action_clear_current init = Some w' /\ well_formed w')
  /\ well_formed (clear init).
Proof.
  apply (otp_input_keeps_its_shape init).
  split; [reflexivity|cbn; lia].
Defined.

(** X29. Six picks complete the room id: from the cleared input, six
    non-empty emojis picked one after another fill the boxes in order and
    post RoomIDComplete once, at the sixth, with exactly those six; fewer
    picks post nothing. *)
Theorem six_picks_complete_the_room_id (es : list (list Z)) :
  Forall (fun e => e <> []) es ->
  (length es = 6%nat ->
   select_all init es = Some ({| emojis := es; current_box := 5 |}, [es]))
  /\ ((length es < 6)%nat ->
      exists w, select_all init es = Some (w, [])
                /\ take (length es) (emojis w) = es
                /\ current_box w = Z.of_nat (length es)).
Proof.
  intros Hne. split.
  - intros Hlen.
    do 7 (destruct es as [|? es]; try discriminate Hlen).
    repeat match goal with
           | H : Forall _ (_ :: _) |- _ => apply Forall_cons in H as [? H]
           end.
    repeat match goal with
           | H : ?l <> [] |- _ => is_var l; destruct l; [congruence|clear H]
           end.
    reflexivity.
  - intros Hlen.
    do 6 (destruct es as [|? es];
          [eexists; split; [reflexivity|split; reflexivity]|]).
    cbn in Hlen. lia.
Qed.

Lemma six_picks_complete_the_room_id_witness :
  let es := take 6 emoji.EMOJI_SET in
  (length es = 6%nat ->
   select_all init es = Some ({| emojis := es; current_box := 5 |}, [es]))
  /\ ((length es < 6)%nat ->
      exists w, select_all init es = Some (w, [])
                /\ take (length es) (emojis w) = es
                /\ current_box w = Z.of_nat (length es)).
Proof.
  apply (six_picks_complete_the_room_id (take 6 emoji.EMOJI_SET)).
  repeat constructor; discriminate.
Defined.

End otp_facts.
